(** * DemoComponent: a shallow embedding of [demo.component.ts]

    The component keeps two in-memory collections ([users], [todos]) and a
    handful of UI fields, and every public method is a short synchronous
    sequence of array operations over them.  TypeScript types are erased at
    run time, and [importData] stores whatever [JSON.parse] returns, so the
    collections are modelled as lists of untyped JavaScript values; the typed
    records [User] and [TodoItem] of the source are a view on the well-formed
    ones.

    Modelling decisions, once and for all:
    - a JavaScript number is an integer-valued double, held as the integer
      it denotes ([Z]); NaN, infinities and fractions are not represented.
      A sum or a difference is rounded to the nearest double, as IEEE-754
      asks ([Number_add], [Number_sub]): from 2^53 on, adding 1 no longer
      gives the next integer;
    - a string is a [string] whose characters stand for code units below 256;
    - a method is a state transformer that ends in a [completion]: it returns
      ([Normal]), lets a JavaScript exception escape ([Throw]), or leaves the
      fragment of JavaScript modelled here ([Beyond]: the step would need NaN,
      an object-to-primitive coercion or an implementation-defined order);
      the state reached at that point is kept in all three cases, as
      assignments made before an exception stay made;
    - what the host supplies ([JSON.parse], [JSON.stringify], [Date.parse],
      [toISOString], [localeCompare], and the number of arguments that a
      call can take) is a [Platform]; the component is generic in it, and
      [reference] is one concrete platform used to run it on concrete texts;
    - [selectedUser] is a reference in the source; the model keeps the record
      by value.  The methods read it through [id] only, a field that no
      method assigns in place.  [toggleUserStatus], [activateAllUsers] and
      [deactivateAllUsers] assign [isActive] in place, which shows through
      the reference when the selected object is one of [users]; the model
      does not follow that.  What is proved of these three is therefore
      stated of [users] and [statistics], or up to [selectedUser], or of a
      state that the source reaches as well whether or not the selected
      object is shared (after a call that finds no user, or after two calls
      that undo each other). *)

From Stdlib Require Import List String Ascii ZArith Bool Arith Lia.
From Stdlib Require Import Permutation Sorted DecimalString.
Import ListNotations.

Set Warnings "-register-all".

Local Open Scope string_scope.
Local Open Scope list_scope.

(* ===================================================================== *)
(** ** Strings *)
(* ===================================================================== *)

(** The characters matched by [\s] and stripped by [String.prototype.trim]
    (WhiteSpace and LineTerminator), as far as they lie below 256: TAB, LF,
    VT, FF, CR, SPACE and NBSP. *)
Definition isWhiteSpace (c : ascii) : bool :=
  let n := nat_of_ascii c in
  (((9 <=? n) && (n <=? 13)) || (n =? 32) || (n =? 160))%nat.

Fixpoint trimStart (s : string) : string :=
  match s with
  | EmptyString => EmptyString
  | String c s' => if isWhiteSpace c then trimStart s' else s
  end.

Fixpoint trimEnd (s : string) : string :=
  match s with
  | EmptyString => EmptyString
  | String c s' =>
      match trimEnd s' with
      | EmptyString => if isWhiteSpace c then EmptyString else String c EmptyString
      | t => String c t
      end
  end.

(** [s.trim()] *)
Definition trim (s : string) : string := trimEnd (trimStart s).

(** [!s] for a string [s]: only the empty string is falsy. *)
Definition isEmpty (s : string) : bool :=
  match s with EmptyString => true | _ => false end.

(** [s.toLowerCase()] on code units below 256: the letters A to Z, and the
    capitals of Latin-1 (U+00C0 to U+00DE, the multiplication sign U+00D7
    apart), lie 32 below their small letters; every other one is kept. *)
Definition lowerChar (c : ascii) : ascii :=
  let n := nat_of_ascii c in
  if (((65 <=? n) && (n <=? 90)) ||
      ((192 <=? n) && (n <=? 222) && negb (n =? 215)))%nat
  then ascii_of_nat (n + 32) else c.

Fixpoint toLowerCase (s : string) : string :=
  match s with
  | EmptyString => EmptyString
  | String c s' => String (lowerChar c) (toLowerCase s')
  end.

(** [s.includes(t)]: [t] occurs in [s] at some position. *)
Fixpoint includes (s t : string) : bool :=
  String.prefix t s ||
  match s with
  | EmptyString => false
  | String _ s' => includes s' t
  end.

(* ===================================================================== *)
(** ** Regular expressions *)
(* ===================================================================== *)

Module RegExp.

(** The fragment of the pattern language that [emailRegex] uses: character
    classes, concatenation and repetition. *)
Inductive t : Type :=
| Void
| Eps
| Class (p : ascii -> bool)
| Seq (r1 r2 : t)
| Alt (r1 r2 : t)
| Star (r : t).

(** [r+] *)
Definition Plus (r : t) : t := Seq r (Star r).

(** One literal character. *)
Definition Chr (c : ascii) : t := Class (Ascii.eqb c).

Fixpoint nullable (r : t) : bool :=
  match r with
  | Void => false
  | Eps => true
  | Class _ => false
  | Seq r1 r2 => nullable r1 && nullable r2
  | Alt r1 r2 => nullable r1 || nullable r2
  | Star _ => true
  end.

(** The residual of [r] after reading [c]. *)
Fixpoint deriv (c : ascii) (r : t) : t :=
  match r with
  | Void => Void
  | Eps => Void
  | Class p => if p c then Eps else Void
  | Seq r1 r2 =>
      if nullable r1
      then Alt (Seq (deriv c r1) r2) (deriv c r2)
      else Seq (deriv c r1) r2
  | Alt r1 r2 => Alt (deriv c r1) (deriv c r2)
  | Star r1 => Seq (deriv c r1) (Star r1)
  end.

(** [/^r$/.test(s)]: with both anchors the test is a match of the whole
    string. *)
Fixpoint test (r : t) (s : string) : bool :=
  match s with
  | EmptyString => nullable r
  | String c s' => test (deriv c r) s'
  end.

(** The strings a pattern denotes. *)
Inductive lang : t -> string -> Prop :=
| lang_Eps : lang Eps ""
| lang_Class p c : p c = true -> lang (Class p) (String c "")
| lang_Seq r1 r2 s1 s2 : lang r1 s1 -> lang r2 s2 -> lang (Seq r1 r2) (s1 ++ s2)%string
| lang_Alt_l r1 r2 s : lang r1 s -> lang (Alt r1 r2) s
| lang_Alt_r r1 r2 s : lang r2 s -> lang (Alt r1 r2) s
| lang_Star_nil r : lang (Star r) ""
| lang_Star_cons r s1 s2 : lang r s1 -> lang (Star r) s2 -> lang (Star r) (s1 ++ s2)%string.

End RegExp.

(** [[^\s@]] *)
Definition notSpaceAt (c : ascii) : bool :=
  negb (isWhiteSpace c) && negb (Ascii.eqb c "@").

(** [/^[^\s@]+@[^\s@]+\.[^\s@]+$/] *)
Definition emailRegex : RegExp.t :=
  RegExp.Seq (RegExp.Plus (RegExp.Class notSpaceAt))
    (RegExp.Seq (RegExp.Chr "@")
       (RegExp.Seq (RegExp.Plus (RegExp.Class notSpaceAt))
          (RegExp.Seq (RegExp.Chr ".")
             (RegExp.Plus (RegExp.Class notSpaceAt))))).

(** [private isValidEmail(email)] *)
Definition isValidEmail (email : string) : bool :=
  RegExp.test emailRegex email.

(* ===================================================================== *)
(** ** JavaScript values and completions *)
(* ===================================================================== *)

(** What a field of the component or an element of its arrays can hold at
    run time.  An object is its own enumerable properties in enumeration
    order; a [Date] is its time value in milliseconds, [None] for an invalid
    date. *)
Inductive value : Type :=
| VUndefined
| VNull
| VBool (b : bool)
| VNum (n : Z)
| VStr (s : string)
| VDate (t : option Z)
| VArr (elems : list value)
| VObj (props : list (string * value)).

Inductive exn : Type :=
| TypeError
| SyntaxError
| RangeError.

Inductive completion (A : Type) : Type :=
| Normal (a : A)
| Throw (e : exn)
| Beyond.

Arguments Normal {A} a.
Arguments Throw {A} e.
Arguments Beyond {A}.

Definition cbind {A B : Type} (c : completion A) (k : A -> completion B) : completion B :=
  match c with
  | Normal a => k a
  | Throw e => Throw e
  | Beyond => Beyond
  end.

Declare Scope completion_scope.
Delimit Scope completion_scope with completion.
Notation "x <~ c ;; k" := (cbind c (fun x => k))
  (at level 61, c at next level, right associativity) : completion_scope.
Local Open Scope completion_scope.

(** ToBoolean *)
Definition truthy (v : value) : bool :=
  match v with
  | VUndefined | VNull => false
  | VBool b => b
  | VNum n => negb (n =? 0)%Z
  | VStr s => negb (isEmpty s)
  | VDate _ | VArr _ | VObj _ => true
  end.

Fixpoint lookup (p : string) (props : list (string * value)) : value :=
  match props with
  | [] => VUndefined
  | (k, v) :: rest => if String.eqb k p then v else lookup p rest
  end.

(** [v.p] for the property names the component reads ([id], [name],
    [email], [isActive], [title], [completed], [priority], [createdAt],
    [users], [todos], [theme]): none of them is an index, [length] or a
    name that a built-in prototype defines, so only an object's own
    properties can answer, and reading from [null] or [undefined] is a
    TypeError. *)
Definition get (v : value) (p : string) : completion value :=
  match v with
  | VUndefined | VNull => Throw TypeError
  | VObj props => Normal (lookup p props)
  | _ => Normal VUndefined
  end.

(** [null] or [undefined] *)
Definition isNullish (v : value) : bool :=
  match v with VUndefined | VNull => true | _ => false end.

(** What [v.p] is when [v] is neither [null] nor [undefined]. *)
Definition field (p : string) (v : value) : value :=
  match v with
  | VObj props => lookup p props
  | _ => VUndefined
  end.

(** The property list after [o.p = x]: an existing property keeps its
    place, a new one goes last. *)
Fixpoint assign (p : string) (x : value) (props : list (string * value))
  : list (string * value) :=
  match props with
  | [] => [(p, x)]
  | (k, v) :: rest =>
      if String.eqb k p then (k, x) :: rest else (k, v) :: assign p x rest
  end.

(** [v.p = x] in strict mode (class bodies are strict), for the same
    property names: a TypeError on [null], [undefined] and primitives.
    Named properties on arrays and dates are not represented. *)
Definition set (v : value) (p : string) (x : value) : completion value :=
  match v with
  | VObj props => Normal (VObj (assign p x props))
  | VArr _ | VDate _ => Beyond
  | _ => Throw TypeError
  end.

(** [v === n] for a number [n]. *)
Definition strictEqNum (v : value) (n : Z) : bool :=
  match v with VNum m => (m =? n)%Z | _ => false end.

(** [v === s] for a string [s]. *)
Definition strictEqStr (v : value) (s : string) : bool :=
  match v with VStr t => String.eqb t s | _ => false end.

(** [Array.isArray(v)] *)
Definition isArray (v : value) : bool :=
  match v with VArr _ => true | _ => false end.

(** Decimal digits of an integer, as [Number.prototype.toString] prints
    one below 10^21. *)
Definition decimal (n : Z) : string :=
  NilZero.string_of_int (Z.to_int n).

(** ToString on primitives; objects need ToPrimitive. *)
Definition ToString (v : value) : completion string :=
  match v with
  | VUndefined => Normal "undefined"
  | VNull => Normal "null"
  | VBool true => Normal "true"
  | VBool false => Normal "false"
  | VNum n => if (Z.abs n <? 10 ^ 21)%Z then Normal (decimal n) else Beyond
  | VStr s => Normal s
  | VDate _ | VArr _ | VObj _ => Beyond
  end.

(** ToNumber where the result is an integer. *)
Definition ToNumber (v : value) : completion Z :=
  match v with
  | VNum n => Normal n
  | VNull => Normal 0%Z
  | VBool b => Normal (if b then 1 else 0)%Z
  | VDate (Some t) => Normal t
  | _ => Beyond
  end.

(** *** Array methods *)

(** [arr.filter(f)] *)
Fixpoint Array_filter (f : value -> completion value) (arr : list value)
  : completion (list value) :=
  match arr with
  | [] => Normal []
  | x :: rest =>
      keep <~ f x ;;
      kept <~ Array_filter f rest ;;
      Normal (if truthy keep then x :: kept else kept)
  end.

(** [arr.map(f)] *)
Fixpoint Array_map {A : Type} (f : value -> completion A) (arr : list value)
  : completion (list A) :=
  match arr with
  | [] => Normal []
  | x :: rest =>
      y <~ f x ;;
      ys <~ Array_map f rest ;;
      Normal (y :: ys)
  end.

(** [arr.findIndex(f)]: the index of the first element on which [f] is
    truthy; elements after it are not visited.  [None] stands for -1. *)
Fixpoint Array_findIndex (f : value -> completion bool) (arr : list value)
  : completion (option nat) :=
  match arr with
  | [] => Normal None
  | x :: rest =>
      hit <~ f x ;;
      if hit then Normal (Some 0)
      else i <~ Array_findIndex f rest ;; Normal (option_map S i)
  end.

(** [arr.splice(i, 1)] *)
Fixpoint Array_splice1 {A : Type} (i : nat) (arr : list A) {struct arr}
  : list A :=
  match arr, i with
  | [], _ => []
  | _ :: rest, 0 => rest
  | x :: rest, S j => x :: Array_splice1 j rest
  end.

(** [arr.forEach(x => x.p = v)]: the elements visited before an exception
    stay assigned, so the array reached is returned beside the completion. *)
Fixpoint Array_forEach_set (p : string) (v : value) (arr : list value)
  : completion unit * list value :=
  match arr with
  | [] => (Normal tt, [])
  | x :: rest =>
      match set x p v with
      | Normal x' =>
          let (c, rest') := Array_forEach_set p v rest in (c, x' :: rest')
      | Throw e => (Throw e, x :: rest)
      | Beyond => (Beyond, x :: rest)
      end
  end.

(** The element at [i] after [arr[i].p = v]. *)
Fixpoint Array_set_at (i : nat) (p : string) (v : value) (arr : list value)
  {struct arr} : completion (list value) :=
  match arr, i with
  | [], _ => Normal []
  | x :: rest, 0 => x' <~ set x p v ;; Normal (x' :: rest)
  | x :: rest, S j => rest' <~ Array_set_at j p v rest ;; Normal (x :: rest')
  end.

(** [Math.max(...xs)] for a non-empty [xs]. *)
Definition Math_max (xs : list Z) : Z :=
  match xs with
  | [] => 0%Z
  | x :: rest => fold_left Z.max rest x
  end.

(** The double nearest to the integer [z], ties to the even significand
    (IEEE-754 round-to-nearest-even on 53 bits).  Every integer up to 2^53
    in magnitude is a double; an integer further out lies between two
    doubles that are [2 ^ e] apart, for [e = log2 |z| - 52].  Magnitudes
    from 2^1024 on, which round to an infinity, are not represented. *)
Definition nearestDouble (z : Z) : Z :=
  let e := (Z.log2 (Z.abs z) - 52)%Z in
  if (e <=? 0)%Z then z
  else
    let q := (Z.abs z / 2 ^ e)%Z in
    let r := (Z.abs z mod 2 ^ e)%Z in
    let up := (2 ^ e <? 2 * r)%Z || ((2 ^ e =? 2 * r)%Z && Z.odd q) in
    (Z.sgn z * ((if up then q + 1 else q) * 2 ^ e))%Z.

(** [a + b] on numbers, and so [a++]. *)
Definition Number_add (a b : Z) : Z := nearestDouble (a + b).

(** [a - b] on numbers. *)
Definition Number_sub (a b : Z) : Z := nearestDouble (a - b).

(** Insertion of [x] into a list sorted by [cmp]: before the first [y]
    with [cmp(x, y) <= 0]. *)
Fixpoint insert (cmp : value -> value -> completion Z) (x : value)
  (sorted : list value) : completion (list value) :=
  match sorted with
  | [] => Normal [x]
  | y :: rest =>
      match cmp x y with
      | Normal c =>
          if (c <=? 0)%Z then Normal (x :: y :: rest)
          else rest' <~ insert cmp x rest ;; Normal (y :: rest')
      | _ => Beyond
      end
  end.

(** [arr.sort(cmp)].  ECMAScript asks for a stable sort, so with a
    comparator that is a consistent order on the elements the result does
    not depend on the algorithm; it is computed here by insertion.  Which
    pairs an engine hands to the comparator, and in which order, is its own
    choice: a comparator that fails on a pair is beyond the model. *)
Fixpoint Array_sort (cmp : value -> value -> completion Z) (arr : list value)
  : completion (list value) :=
  match arr with
  | [] => Normal []
  | x :: rest => sorted <~ Array_sort cmp rest ;; insert cmp x sorted
  end.

(** The own enumerable properties that [{...v}] copies. *)
Definition indexKey (i : nat) : string :=
  NilZero.string_of_uint (Nat.to_uint i).

Fixpoint indexed {A : Type} (f : A -> value) (i : nat) (l : list A)
  : list (string * value) :=
  match l with
  | [] => []
  | x :: rest => (indexKey i, f x) :: indexed f (S i) rest
  end.

Definition spread (v : value) : list (string * value) :=
  match v with
  | VObj props => props
  | VArr elems => indexed (fun x => x) 0 elems
  | VStr s => indexed (fun c => VStr (String c "")) 0 (list_ascii_of_string s)
  | _ => []
  end.

(** TimeClip: a time value is at most 8.64e15 ms from the epoch. *)
Definition TimeClip (t : Z) : option Z :=
  if (Z.abs t <=? 8640000000000000)%Z then Some t else None.

(* ===================================================================== *)
(** ** The platform *)
(* ===================================================================== *)

Class Platform : Type := {
  (** [JSON.parse(text)]; [None] is a SyntaxError. *)
  JSON_parse : string -> option value;
  (** [JSON.stringify(v, null, 2)] *)
  JSON_stringify : value -> string;
  (** [Date.parse(s)]; [None] is NaN. *)
  Date_parse : string -> option Z;
  (** [new Date(t).toISOString()] for a valid time value [t]. *)
  Date_toISOString : Z -> string;
  (** [a.localeCompare(b)] *)
  localeCompare : string -> string -> Z;
  (** The most arguments that a call can take.  An engine passes the
      arguments of a call on its stack, so a call with more of them than
      the stack holds is a RangeError.  (The limit is far below the
      2^32 - 1 elements that an array can hold: an array that was spread
      has room for one more element.) *)
  argumentsLimit : Z
}.

(** [f(...xs)]: the elements of [xs] become the arguments of the call. *)
Definition spreadArguments `{Platform} {A : Type} (xs : list A)
  : completion (list A) :=
  if (Z.of_nat (List.length xs) <=? argumentsLimit)%Z then Normal xs
  else Throw RangeError.

(** [new Date(v)] with one argument. *)
Definition new_Date `{Platform} (v : value) : completion value :=
  match v with
  | VUndefined => Normal (VDate None)
  | VNull => Normal (VDate (Some 0%Z))
  | VBool b => Normal (VDate (Some (if b then 1 else 0)%Z))
  | VNum n => Normal (VDate (TimeClip n))
  | VStr s => Normal (VDate (Date_parse s))
  | VDate t => Normal (VDate t)
  | VArr _ | VObj _ => Beyond
  end.

(** What [JSON.parse(JSON.stringify(v))] is for a value [v] of the model:
    a date is written by [toJSON] as its ISO string ([null] when invalid),
    an [undefined] property is left out and an [undefined] element is
    written as [null]. *)
Fixpoint toJSON `{Platform} (v : value) : value :=
  match v with
  | VUndefined => VUndefined
  | VDate (Some t) => VStr (Date_toISOString t)
  | VDate None => VNull
  | VArr elems =>
      VArr (map (fun x => match x with VUndefined => VNull | _ => toJSON x end) elems)
  | VObj props =>
      VObj ((fix members (l : list (string * value)) : list (string * value) :=
               match l with
               | [] => []
               | (k, VUndefined) :: rest => members rest
               | (k, x) :: rest => (k, toJSON x) :: members rest
               end) props)
  | _ => v
  end.

(* ===================================================================== *)
(** ** The component's state *)
(* ===================================================================== *)

Inductive Priority : Type := Low | Medium | High.

Inductive TodoFilter : Type := FilterAll | FilterActive | FilterCompleted.

(** ['low' | 'medium' | 'high'] as the string it is at run time. *)
Definition priorityName (p : Priority) : string :=
  match p with Low => "low" | Medium => "medium" | High => "high" end.

Record Statistics : Type := {
  totalUsers : nat;
  activeUsers : nat;
  totalTodos : nat;
  completedTodos : nat;
  highPriorityTodos : nat
}.

(** [window.localStorage]: the keys set, most recent first. *)
Definition Storage : Type := list (string * string).

Fixpoint getItem (key : string) (s : Storage) : option string :=
  match s with
  | [] => None
  | (k, v) :: rest => if String.eqb k key then Some v else getItem key rest
  end.

Definition setItem (key v : string) (s : Storage) : Storage :=
  (key, v) :: filter (fun kv => negb (String.eqb (fst kv) key)) s.

(** The fields of [DemoComponent] that a method assigns ([title] and
    [description] never change, and [destroy$] carries no data), and the
    local storage the component reads and writes.  [currentTime] is only
    ever assigned [new Date()], a valid time value. *)
Record DemoComponent : Type := {
  users : list value;
  selectedUser : value;
  userSearchTerm : string;
  showUserForm : bool;
  todos : list value;
  newTodoTitle : string;
  selectedPriority : Priority;
  todoFilter : TodoFilter;
  isLoading : bool;
  errorMessage : string;
  currentTime : Z;
  counter : Z;
  theme : value;
  statistics : Statistics;
  localStorage : Storage
}.

Definition set_users (x : list value) (st : DemoComponent) : DemoComponent :=
  {| users := x; selectedUser := selectedUser st;
     userSearchTerm := userSearchTerm st; showUserForm := showUserForm st;
     todos := todos st; newTodoTitle := newTodoTitle st;
     selectedPriority := selectedPriority st; todoFilter := todoFilter st;
     isLoading := isLoading st; errorMessage := errorMessage st;
     currentTime := currentTime st; counter := counter st; theme := theme st;
     statistics := statistics st; localStorage := localStorage st |}.

Definition set_selectedUser (x : value) (st : DemoComponent) : DemoComponent :=
  {| users := users st; selectedUser := x;
     userSearchTerm := userSearchTerm st; showUserForm := showUserForm st;
     todos := todos st; newTodoTitle := newTodoTitle st;
     selectedPriority := selectedPriority st; todoFilter := todoFilter st;
     isLoading := isLoading st; errorMessage := errorMessage st;
     currentTime := currentTime st; counter := counter st; theme := theme st;
     statistics := statistics st; localStorage := localStorage st |}.

Definition set_userSearchTerm (x : string) (st : DemoComponent) : DemoComponent :=
  {| users := users st; selectedUser := selectedUser st; userSearchTerm := x;
     showUserForm := showUserForm st; todos := todos st;
     newTodoTitle := newTodoTitle st;
     selectedPriority := selectedPriority st; todoFilter := todoFilter st;
     isLoading := isLoading st; errorMessage := errorMessage st;
     currentTime := currentTime st; counter := counter st; theme := theme st;
     statistics := statistics st; localStorage := localStorage st |}.

Definition set_showUserForm (x : bool) (st : DemoComponent) : DemoComponent :=
  {| users := users st; selectedUser := selectedUser st;
     userSearchTerm := userSearchTerm st; showUserForm := x;
     todos := todos st; newTodoTitle := newTodoTitle st;
     selectedPriority := selectedPriority st; todoFilter := todoFilter st;
     isLoading := isLoading st; errorMessage := errorMessage st;
     currentTime := currentTime st; counter := counter st; theme := theme st;
     statistics := statistics st; localStorage := localStorage st |}.

Definition set_todos (x : list value) (st : DemoComponent) : DemoComponent :=
  {| users := users st; selectedUser := selectedUser st;
     userSearchTerm := userSearchTerm st; showUserForm := showUserForm st;
     todos := x; newTodoTitle := newTodoTitle st;
     selectedPriority := selectedPriority st; todoFilter := todoFilter st;
     isLoading := isLoading st; errorMessage := errorMessage st;
     currentTime := currentTime st; counter := counter st; theme := theme st;
     statistics := statistics st; localStorage := localStorage st |}.

Definition set_newTodoTitle (x : string) (st : DemoComponent) : DemoComponent :=
  {| users := users st; selectedUser := selectedUser st;
     userSearchTerm := userSearchTerm st; showUserForm := showUserForm st;
     todos := todos st; newTodoTitle := x;
     selectedPriority := selectedPriority st; todoFilter := todoFilter st;
     isLoading := isLoading st; errorMessage := errorMessage st;
     currentTime := currentTime st; counter := counter st; theme := theme st;
     statistics := statistics st; localStorage := localStorage st |}.

Definition set_selectedPriority (x : Priority) (st : DemoComponent) : DemoComponent :=
  {| users := users st; selectedUser := selectedUser st;
     userSearchTerm := userSearchTerm st; showUserForm := showUserForm st;
     todos := todos st; newTodoTitle := newTodoTitle st;
     selectedPriority := x; todoFilter := todoFilter st;
     isLoading := isLoading st; errorMessage := errorMessage st;
     currentTime := currentTime st; counter := counter st; theme := theme st;
     statistics := statistics st; localStorage := localStorage st |}.

Definition set_todoFilter (x : TodoFilter) (st : DemoComponent) : DemoComponent :=
  {| users := users st; selectedUser := selectedUser st;
     userSearchTerm := userSearchTerm st; showUserForm := showUserForm st;
     todos := todos st; newTodoTitle := newTodoTitle st;
     selectedPriority := selectedPriority st; todoFilter := x;
     isLoading := isLoading st; errorMessage := errorMessage st;
     currentTime := currentTime st; counter := counter st; theme := theme st;
     statistics := statistics st; localStorage := localStorage st |}.

Definition set_isLoading (x : bool) (st : DemoComponent) : DemoComponent :=
  {| users := users st; selectedUser := selectedUser st;
     userSearchTerm := userSearchTerm st; showUserForm := showUserForm st;
     todos := todos st; newTodoTitle := newTodoTitle st;
     selectedPriority := selectedPriority st; todoFilter := todoFilter st;
     isLoading := x; errorMessage := errorMessage st;
     currentTime := currentTime st; counter := counter st; theme := theme st;
     statistics := statistics st; localStorage := localStorage st |}.

Definition set_errorMessage (x : string) (st : DemoComponent) : DemoComponent :=
  {| users := users st; selectedUser := selectedUser st;
     userSearchTerm := userSearchTerm st; showUserForm := showUserForm st;
     todos := todos st; newTodoTitle := newTodoTitle st;
     selectedPriority := selectedPriority st; todoFilter := todoFilter st;
     isLoading := isLoading st; errorMessage := x;
     currentTime := currentTime st; counter := counter st; theme := theme st;
     statistics := statistics st; localStorage := localStorage st |}.

Definition set_currentTime (x : Z) (st : DemoComponent) : DemoComponent :=
  {| users := users st; selectedUser := selectedUser st;
     userSearchTerm := userSearchTerm st; showUserForm := showUserForm st;
     todos := todos st; newTodoTitle := newTodoTitle st;
     selectedPriority := selectedPriority st; todoFilter := todoFilter st;
     isLoading := isLoading st; errorMessage := errorMessage st;
     currentTime := x; counter := counter st; theme := theme st;
     statistics := statistics st; localStorage := localStorage st |}.

Definition set_counter (x : Z) (st : DemoComponent) : DemoComponent :=
  {| users := users st; selectedUser := selectedUser st;
     userSearchTerm := userSearchTerm st; showUserForm := showUserForm st;
     todos := todos st; newTodoTitle := newTodoTitle st;
     selectedPriority := selectedPriority st; todoFilter := todoFilter st;
     isLoading := isLoading st; errorMessage := errorMessage st;
     currentTime := currentTime st; counter := x; theme := theme st;
     statistics := statistics st; localStorage := localStorage st |}.

Definition set_theme (x : value) (st : DemoComponent) : DemoComponent :=
  {| users := users st; selectedUser := selectedUser st;
     userSearchTerm := userSearchTerm st; showUserForm := showUserForm st;
     todos := todos st; newTodoTitle := newTodoTitle st;
     selectedPriority := selectedPriority st; todoFilter := todoFilter st;
     isLoading := isLoading st; errorMessage := errorMessage st;
     currentTime := currentTime st; counter := counter st; theme := x;
     statistics := statistics st; localStorage := localStorage st |}.

Definition set_statistics (x : Statistics) (st : DemoComponent) : DemoComponent :=
  {| users := users st; selectedUser := selectedUser st;
     userSearchTerm := userSearchTerm st; showUserForm := showUserForm st;
     todos := todos st; newTodoTitle := newTodoTitle st;
     selectedPriority := selectedPriority st; todoFilter := todoFilter st;
     isLoading := isLoading st; errorMessage := errorMessage st;
     currentTime := currentTime st; counter := counter st; theme := theme st;
     statistics := x; localStorage := localStorage st |}.

Definition set_localStorage (x : Storage) (st : DemoComponent) : DemoComponent :=
  {| users := users st; selectedUser := selectedUser st;
     userSearchTerm := userSearchTerm st; showUserForm := showUserForm st;
     todos := todos st; newTodoTitle := newTodoTitle st;
     selectedPriority := selectedPriority st; todoFilter := todoFilter st;
     isLoading := isLoading st; errorMessage := errorMessage st;
     currentTime := currentTime st; counter := counter st; theme := theme st;
     statistics := statistics st; localStorage := x |}.

(* ===================================================================== *)
(** ** Methods as state transformers *)
(* ===================================================================== *)

(** A method body: from the state before to its completion and the state
    reached. *)
Definition M (A : Type) : Type := DemoComponent -> completion A * DemoComponent.

Definition ret {A : Type} (a : A) : M A := fun st => (Normal a, st).

Definition bind {A B : Type} (m : M A) (k : A -> M B) : M B :=
  fun st =>
    match m st with
    | (Normal a, st') => k a st'
    | (Throw e, st') => (Throw e, st')
    | (Beyond, st') => (Beyond, st')
    end.

(** An expression that reads no field. *)
Definition lift {A : Type} (c : completion A) : M A := fun st => (c, st).

(** [this.f] *)
Definition read {A : Type} (f : DemoComponent -> A) : M A :=
  fun st => (Normal (f st), st).

(** [this.f = x], as the setter of [f] applied to [x]. *)
Definition write (f : DemoComponent -> DemoComponent) : M unit :=
  fun st => (Normal tt, f st).

(** [try { body } catch (error) { handler }] *)
Definition try_catch (body handler : M unit) : M unit :=
  fun st =>
    match body st with
    | (Throw _, st') => handler st'
    | r => r
    end.

(** The method [m] leaves the field [f] as it was, however it completes. *)
Definition preserves {A B : Type} (f : DemoComponent -> B) (m : M A) : Prop :=
  forall st, f (snd (m st)) = f st.


Declare Scope method_scope.
Delimit Scope method_scope with method.
Notation "x <- m ;; k" := (bind m (fun x => k))
  (at level 61, m at next level, right associativity) : method_scope.
Notation "m ;; k" := (bind m (fun _ => k))
  (at level 61, right associativity) : method_scope.
Local Open Scope method_scope.

Section Component.

Context `{Platform}.

(** The object literal of a [User]. *)
Definition userLiteral (id : Z) (name email : string) (isActive : bool) : value :=
  VObj [("id", VNum id); ("name", VStr name); ("email", VStr email);
        ("isActive", VBool isActive)].

(** The object literal of a [TodoItem]. *)
Definition todoLiteral (id : Z) (title : string) (completed : bool)
  (priority : string) (createdAt : value) : value :=
  VObj [("id", VNum id); ("title", VStr title); ("completed", VBool completed);
        ("priority", VStr priority); ("createdAt", createdAt)].

(** [new DemoComponent()] at time [now], in a browser whose local storage
    is [storage]: the field initialisers. *)
Definition initial (now : Z) (storage : Storage) : DemoComponent :=
  {| users := []; selectedUser := VNull; userSearchTerm := "";
     showUserForm := false; todos := []; newTodoTitle := "";
     selectedPriority := Medium; todoFilter := FilterAll; isLoading := false;
     errorMessage := ""; currentTime := now; counter := 0%Z;
     theme := VStr "light";
     statistics := {| totalUsers := 0; activeUsers := 0; totalTodos := 0;
                      completedTodos := 0; highPriorityTodos := 0 |};
     localStorage := storage |}.

(** *** Statistics *)

Definition updateStatistics : M unit :=
  us <- read users ;;
  ts <- read todos ;;
  active <- lift (Array_filter (fun u => get u "isActive") us) ;;
  done <- lift (Array_filter (fun t => get t "completed") ts) ;;
  highs <- lift (Array_filter
                   (fun t => p <~ get t "priority" ;;
                             Normal (VBool (strictEqStr p "high"))) ts) ;;
  write (set_statistics
           {| totalUsers := List.length us; activeUsers := List.length active;
              totalTodos := List.length ts; completedTodos := List.length done;
              highPriorityTodos := List.length highs |}).

(** *** Theme *)

Definition loadTheme : M unit :=
  storage <- read localStorage ;;
  match getItem "demo-theme" storage with
  | Some savedTheme =>
      if String.eqb savedTheme "dark" || String.eqb savedTheme "light"
      then write (set_theme (VStr savedTheme))
      else ret tt
  | None => ret tt
  end.

(** [saveTheme] is only called by [toggleTheme], right after [theme] was
    assigned one of the two strings. *)
Definition toggleTheme : M unit :=
  th <- read theme ;;
  let next := if strictEqStr th "light" then "dark" else "light" in
  write (set_theme (VStr next)) ;;
  storage <- read localStorage ;;
  write (set_localStorage (setItem "demo-theme" next storage)).

(** *** Seed data and lifecycle *)

Definition initializeData : M unit :=
  loadTheme ;;
  updateStatistics.

Definition loadInitialUsers : M unit :=
  write (set_users
           [ userLiteral 1 "John Doe" "john@example.com" true;
             userLiteral 2 "Jane Smith" "jane@example.com" false;
             userLiteral 3 "Bob Johnson" "bob@example.com" true;
             userLiteral 4 "Alice Brown" "alice@example.com" true;
             userLiteral 5 "Charlie Wilson" "charlie@example.com" false ]) ;;
  updateStatistics.

Definition loadInitialTodos : M unit :=
  d1 <- lift (new_Date (VStr "2024-01-01")) ;;
  d2 <- lift (new_Date (VStr "2024-01-02")) ;;
  d3 <- lift (new_Date (VStr "2024-01-03")) ;;
  d4 <- lift (new_Date (VStr "2024-01-04")) ;;
  d5 <- lift (new_Date (VStr "2024-01-05")) ;;
  write (set_todos
           [ todoLiteral 1 "Complete project setup" true "high" d1;
             todoLiteral 2 "Write unit tests" false "high" d2;
             todoLiteral 3 "Update documentation" false "medium" d3;
             todoLiteral 4 "Code review" false "low" d4;
             todoLiteral 5 "Deploy to staging" true "medium" d5 ]) ;;
  updateStatistics.

(** [startTimer] subscribes to [interval(1000)] and assigns no field; each
    signal of the interval is a [tick], delivered between two methods. *)
Definition ngOnInit : M unit :=
  initializeData ;;
  loadInitialUsers ;;
  loadInitialTodos.

(** The subscriber of [startTimer], called at time [now]. *)
Definition tick (now : Z) : M unit :=
  write (set_currentTime now) ;;
  c <- read counter ;;
  write (set_counter (Number_add c 1)).

(** [destroy$.next(); destroy$.complete()] assign no field. *)
Definition ngOnDestroy : M unit := ret tt.

(** *** Users *)

(** [Math.max(...this.users.map(u => u.id)) + 1]: the ids are read, spread
    into the arguments of [Math.max], which converts each to a number, and
    1 is added to the largest. *)
Definition getNextUserId : M Z :=
  us <- read users ;;
  match us with
  | [] => ret 1%Z
  | _ =>
      ids <- lift (Array_map (fun u => get u "id") us) ;;
      args <- lift (spreadArguments ids) ;;
      ns <- lift (Array_map ToNumber args) ;;
      ret (Number_add (Math_max ns) 1)
  end.

Definition addUser (name email : string) : M unit :=
  if isEmpty (trim name) || isEmpty (trim email) then
    write (set_errorMessage "Name and email are required")
  else if negb (isValidEmail email) then
    write (set_errorMessage "Please enter a valid email address")
  else
    id <- getNextUserId ;;
    let newUser := userLiteral id (trim name) (trim email) true in
    us <- read users ;;
    write (set_users (us ++ [newUser])) ;;
    updateStatistics ;;
    write (set_errorMessage "") ;;
    write (set_showUserForm false).

Definition hasId (userId : Z) (u : value) : completion bool :=
  id <~ get u "id" ;; Normal (strictEqNum id userId).

Definition deleteUser (userId : Z) : M unit :=
  us <- read users ;;
  userIndex <- lift (Array_findIndex (hasId userId) us) ;;
  match userIndex with
  | Some i =>
      write (set_users (Array_splice1 i us)) ;;
      sel <- read selectedUser ;;
      (if truthy sel then
         selId <- lift (get sel "id") ;;
         if strictEqNum selId userId then write (set_selectedUser VNull)
         else ret tt
       else ret tt) ;;
      updateStatistics
  | None => ret tt
  end.

(** [find] returns the first element with the id; it is the element at the
    index [findIndex] returns, and the assignment to its property is an
    assignment to that element of the array.  (When [selectedUser] refers
    to that element the source shows the new [isActive] through it too; the
    selection of the model is a copy and keeps the old one.) *)
Definition toggleUserStatus (userId : Z) : M unit :=
  us <- read users ;;
  found <- lift (Array_findIndex (hasId userId) us) ;;
  match found with
  | Some i =>
      let user := nth i us VUndefined in
      if truthy user then
        isActive <- lift (get user "isActive") ;;
        us' <- lift (Array_set_at i "isActive" (VBool (negb (truthy isActive))) us) ;;
        write (set_users us') ;;
        updateStatistics
      else ret tt
  | None => ret tt
  end.

Definition selectUser (user : value) : M unit :=
  write (set_selectedUser user).

(** [v.toLowerCase()]: a TypeError unless [v] is a string (no other value
    of the model has a method of that name). *)
Definition lowerCased (v : value) : completion string :=
  match v with
  | VStr s => Normal (toLowerCase s)
  | _ => Throw TypeError
  end.

(** The callback of [searchUsers]; [||] does not read the email of a user
    whose name matches. *)
Definition matchesSearch (term : string) (user : value) : completion value :=
  name <~ get user "name" ;;
  lowerName <~ lowerCased name ;;
  if includes lowerName (toLowerCase term) then Normal (VBool true)
  else
    email <~ get user "email" ;;
    lowerEmail <~ lowerCased email ;;
    Normal (VBool (includes lowerEmail (toLowerCase term))).

Definition searchUsers : M (list value) :=
  term <- read userSearchTerm ;;
  if isEmpty (trim term) then read users
  else
    us <- read users ;;
    lift (Array_filter (matchesSearch term) us).

(** *** Todos *)

Definition getNextTodoId : M Z :=
  ts <- read todos ;;
  match ts with
  | [] => ret 1%Z
  | _ =>
      ids <- lift (Array_map (fun t => get t "id") ts) ;;
      args <- lift (spreadArguments ids) ;;
      ns <- lift (Array_map ToNumber args) ;;
      ret (Number_add (Math_max ns) 1)
  end.

(** [addTodo()] at time [now]. *)
Definition addTodo (now : Z) : M unit :=
  title <- read newTodoTitle ;;
  if isEmpty (trim title) then
    write (set_errorMessage "Todo title is required")
  else
    id <- getNextTodoId ;;
    priority <- read selectedPriority ;;
    let newTodo :=
      todoLiteral id (trim title) false (priorityName priority) (VDate (Some now)) in
    ts <- read todos ;;
    write (set_todos (ts ++ [newTodo])) ;;
    write (set_newTodoTitle "") ;;
    updateStatistics ;;
    write (set_errorMessage "").

Definition toggleTodo (todoId : Z) : M unit :=
  ts <- read todos ;;
  found <- lift (Array_findIndex (hasId todoId) ts) ;;
  match found with
  | Some i =>
      let todo := nth i ts VUndefined in
      if truthy todo then
        completed <- lift (get todo "completed") ;;
        ts' <- lift (Array_set_at i "completed" (VBool (negb (truthy completed))) ts) ;;
        write (set_todos ts') ;;
        updateStatistics
      else ret tt
  | None => ret tt
  end.

Definition deleteTodo (todoId : Z) : M unit :=
  ts <- read todos ;;
  todoIndex <- lift (Array_findIndex (hasId todoId) ts) ;;
  match todoIndex with
  | Some i =>
      write (set_todos (Array_splice1 i ts)) ;;
      updateStatistics
  | None => ret tt
  end.

Definition updateTodoPriority (todoId : Z) (priority : Priority) : M unit :=
  ts <- read todos ;;
  found <- lift (Array_findIndex (hasId todoId) ts) ;;
  match found with
  | Some i =>
      let todo := nth i ts VUndefined in
      if truthy todo then
        ts' <- lift (Array_set_at i "priority" (VStr (priorityName priority)) ts) ;;
        write (set_todos ts') ;;
        updateStatistics
      else ret tt
  | None => ret tt
  end.

Definition getFilteredTodos : M (list value) :=
  f <- read todoFilter ;;
  match f with
  | FilterActive =>
      ts <- read todos ;;
      lift (Array_filter
              (fun todo => c <~ get todo "completed" ;;
                           Normal (VBool (negb (truthy c)))) ts)
  | FilterCompleted =>
      ts <- read todos ;;
      lift (Array_filter (fun todo => get todo "completed") ts)
  | FilterAll => read todos
  end.

Definition getActiveTodosCount : M nat :=
  ts <- read todos ;;
  active <- lift (Array_filter
                    (fun todo => c <~ get todo "completed" ;;
                                 Normal (VBool (negb (truthy c)))) ts) ;;
  ret (List.length active).

Definition getCompletedTodosCount : M nat :=
  ts <- read todos ;;
  done <- lift (Array_filter (fun todo => get todo "completed") ts) ;;
  ret (List.length done).

Definition clearCompletedTodos : M unit :=
  ts <- read todos ;;
  kept <- lift (Array_filter
                  (fun todo => c <~ get todo "completed" ;;
                               Normal (VBool (negb (truthy c)))) ts) ;;
  write (set_todos kept) ;;
  updateStatistics.

(** *** Export and import *)

(** The object literal [data] of [exportData()] at time [now]. *)
Definition exportPayload (now : Z) (st : DemoComponent) : value :=
  VObj [("users", VArr (users st)); ("todos", VArr (todos st));
        ("theme", theme st); ("exportDate", VStr (Date_toISOString now))].

(** [exportData()] at time [now]. *)
Definition exportData (now : Z) : M string :=
  data <- read (exportPayload now) ;;
  ret (JSON_stringify data).

(** [console.log] assigns no field. *)
Definition exportToConsole (now : Z) : M unit :=
  _ <- exportData now ;;
  ret tt.

Definition elements (v : value) : list value :=
  match v with VArr elems => elems | _ => [] end.

(** [(todo: any) => ({ ...todo, createdAt: new Date(todo.createdAt) })] *)
Definition importTodo (todo : value) : completion value :=
  createdAt <~ get todo "createdAt" ;;
  d <~ new_Date createdAt ;;
  Normal (VObj (assign "createdAt" d (spread todo))).

Definition parse (jsonData : string) : completion value :=
  match JSON_parse jsonData with
  | Some data => Normal data
  | None => Throw SyntaxError
  end.

Definition importData (jsonData : string) : M unit :=
  try_catch
    (data <- lift (parse jsonData) ;;
     dataUsers <- lift (get data "users") ;;
     (if truthy dataUsers && isArray dataUsers
      then write (set_users (elements dataUsers))
      else ret tt) ;;
     dataTodos <- lift (get data "todos") ;;
     (if truthy dataTodos && isArray dataTodos
      then ts <- lift (Array_map importTodo (elements dataTodos)) ;;
           write (set_todos ts)
      else ret tt) ;;
     dataTheme <- lift (get data "theme") ;;
     (if truthy dataTheme then write (set_theme dataTheme) else ret tt) ;;
     updateStatistics ;;
     write (set_errorMessage ""))
    (write (set_errorMessage "Invalid JSON data for import")).

(** *** Bulk operations *)

Definition markAllTodosComplete : M unit :=
  ts <- read todos ;;
  let (c, ts') := Array_forEach_set "completed" (VBool true) ts in
  write (set_todos ts') ;;
  lift c ;;
  updateStatistics.

Definition markAllTodosIncomplete : M unit :=
  ts <- read todos ;;
  let (c, ts') := Array_forEach_set "completed" (VBool false) ts in
  write (set_todos ts') ;;
  lift c ;;
  updateStatistics.

(** [users.forEach(user => user.isActive = b)] assigns in place, as
    [toggleUserStatus] does, and the selection of the model is a copy here
    too. *)
Definition activateAllUsers : M unit :=
  us <- read users ;;
  let (c, us') := Array_forEach_set "isActive" (VBool true) us in
  write (set_users us') ;;
  lift c ;;
  updateStatistics.

Definition deactivateAllUsers : M unit :=
  us <- read users ;;
  let (c, us') := Array_forEach_set "isActive" (VBool false) us in
  write (set_users us') ;;
  lift c ;;
  updateStatistics.

(** *** Sorting *)

(** [(a, b) => a.field.localeCompare(b.field)]: a TypeError unless
    [a.field] is a string; the argument is converted by ToString. *)
Definition compareBy (field : string) (a b : value) : completion Z :=
  x <~ get a field ;;
  y <~ get b field ;;
  match x with
  | VStr s => t <~ ToString y ;; Normal (localeCompare s t)
  | _ => Throw TypeError
  end.

Definition sortUsersByName : M unit :=
  us <- read users ;;
  sorted <- lift (Array_sort (compareBy "name") us) ;;
  write (set_users sorted).

Definition sortUsersByEmail : M unit :=
  us <- read users ;;
  sorted <- lift (Array_sort (compareBy "email") us) ;;
  write (set_users sorted).

(** [priorityOrder[p]] for [priorityOrder = { high: 3, medium: 2, low: 1 }];
    any other key makes the difference NaN. *)
Definition priorityOrder (p : value) : completion Z :=
  match p with
  | VStr s =>
      if String.eqb s "high" then Normal 3%Z
      else if String.eqb s "medium" then Normal 2%Z
      else if String.eqb s "low" then Normal 1%Z
      else Beyond
  | _ => Beyond
  end.

(** [(a, b) => priorityOrder[b.priority] - priorityOrder[a.priority]] *)
Definition byPriority (a b : value) : completion Z :=
  pb <~ get b "priority" ;;
  rb <~ priorityOrder pb ;;
  pa <~ get a "priority" ;;
  ra <~ priorityOrder pa ;;
  Normal (Number_sub rb ra).

Definition sortTodosByPriority : M unit :=
  ts <- read todos ;;
  sorted <- lift (Array_sort byPriority ts) ;;
  write (set_todos sorted).

(** [d.getTime()]: a TypeError unless [d] is a date; NaN when invalid. *)
Definition getTime (d : value) : completion Z :=
  match d with
  | VDate (Some t) => Normal t
  | VDate None => Beyond
  | _ => Throw TypeError
  end.

(** [(a, b) => b.createdAt.getTime() - a.createdAt.getTime()] *)
Definition byDate (a b : value) : completion Z :=
  db <~ get b "createdAt" ;;
  tb <~ getTime db ;;
  da <~ get a "createdAt" ;;
  ta <~ getTime da ;;
  Normal (Number_sub tb ta).

Definition sortTodosByDate : M unit :=
  ts <- read todos ;;
  sorted <- lift (Array_sort byDate ts) ;;
  write (set_todos sorted).

(** *** Reset *)

Definition resetAllData : M unit :=
  write (set_users []) ;;
  write (set_todos []) ;;
  write (set_selectedUser VNull) ;;
  write (set_userSearchTerm "") ;;
  write (set_newTodoTitle "") ;;
  write (set_errorMessage "") ;;
  updateStatistics.

Definition resetToDefaults : M unit :=
  loadInitialUsers ;;
  loadInitialTodos ;;
  write (set_selectedUser VNull) ;;
  write (set_userSearchTerm "") ;;
  write (set_newTodoTitle "") ;;
  write (set_errorMessage "") ;;
  write (set_theme (VStr "light")) ;;
  write (set_todoFilter FilterAll) ;;
  write (set_selectedPriority Medium).

(** *** Runs *)

(** What can happen to a component between its construction and its end:
    a call of a public method that assigns a field, a signal of the timer,
    or the view writing one of the fields it is bound to.  The queries
    ([searchUsers], [getFilteredTodos], the two counts, [exportData]) assign
    nothing and are left out. *)
Inductive operation : Type :=
| NgOnInit
| NgOnDestroy
| Tick (now : Z)
| AddUser (name email : string)
| DeleteUser (userId : Z)
| ToggleUserStatus (userId : Z)
| SelectUser (user : value)
| AddTodo (now : Z)
| ToggleTodo (todoId : Z)
| DeleteTodo (todoId : Z)
| UpdateTodoPriority (todoId : Z) (priority : Priority)
| ClearCompletedTodos
| ToggleTheme
| ExportToConsole (now : Z)
| ImportData (jsonData : string)
| MarkAllTodosComplete
| MarkAllTodosIncomplete
| ActivateAllUsers
| DeactivateAllUsers
| SortUsersByName
| SortUsersByEmail
| SortTodosByPriority
| SortTodosByDate
| ResetAllData
| ResetToDefaults
| InputUserSearchTerm (term : string)
| InputShowUserForm (shown : bool)
| InputNewTodoTitle (title : string)
| InputSelectedPriority (priority : Priority)
| InputTodoFilter (filter : TodoFilter).

Definition exec (o : operation) : M unit :=
  match o with
  | NgOnInit => ngOnInit
  | NgOnDestroy => ngOnDestroy
  | Tick now => tick now
  | AddUser name email => addUser name email
  | DeleteUser userId => deleteUser userId
  | ToggleUserStatus userId => toggleUserStatus userId
  | SelectUser user => selectUser user
  | AddTodo now => addTodo now
  | ToggleTodo todoId => toggleTodo todoId
  | DeleteTodo todoId => deleteTodo todoId
  | UpdateTodoPriority todoId priority => updateTodoPriority todoId priority
  | ClearCompletedTodos => clearCompletedTodos
  | ToggleTheme => toggleTheme
  | ExportToConsole now => exportToConsole now
  | ImportData jsonData => importData jsonData
  | MarkAllTodosComplete => markAllTodosComplete
  | MarkAllTodosIncomplete => markAllTodosIncomplete
  | ActivateAllUsers => activateAllUsers
  | DeactivateAllUsers => deactivateAllUsers
  | SortUsersByName => sortUsersByName
  | SortUsersByEmail => sortUsersByEmail
  | SortTodosByPriority => sortTodosByPriority
  | SortTodosByDate => sortTodosByDate
  | ResetAllData => resetAllData
  | ResetToDefaults => resetToDefaults
  | InputUserSearchTerm term => write (set_userSearchTerm term)
  | InputShowUserForm shown => write (set_showUserForm shown)
  | InputNewTodoTitle title => write (set_newTodoTitle title)
  | InputSelectedPriority priority => write (set_selectedPriority priority)
  | InputTodoFilter filter => write (set_todoFilter filter)
  end.

(** The state after a sequence of operations.  An exception escapes to the
    caller and the component lives on in the state reached; the run is
    [None] once it leaves the modelled fragment. *)
Fixpoint run (ops : list operation) (st : DemoComponent) : option DemoComponent :=
  match ops with
  | [] => Some st
  | o :: rest =>
      match exec o st with
      | (Beyond, _) => None
      | (_, st') => run rest st'
      end
  end.

End Component.

(* ===================================================================== *)
(** ** The typed view *)
(* ===================================================================== *)

(** [interface User] *)
Module User.
Record t : Type := {
  id : Z;
  name : string;
  email : string;
  isActive : bool
}.
End User.

(** [interface TodoItem]; [createdAt] is the time value of a valid date. *)
Module TodoItem.
Record t : Type := {
  id : Z;
  title : string;
  completed : bool;
  priority : Priority;
  createdAt : Z
}.
End TodoItem.

Definition ofUser (u : User.t) : value :=
  userLiteral (User.id u) (User.name u) (User.email u) (User.isActive u).

Definition ofTodo (t : TodoItem.t) : value :=
  todoLiteral (TodoItem.id t) (TodoItem.title t) (TodoItem.completed t)
    (priorityName (TodoItem.priority t)) (VDate (Some (TodoItem.createdAt t))).

(** A todo as [JSON.stringify] writes it: the date as its ISO string. *)
Definition ofTodoJSON `{Platform} (t : TodoItem.t) : value :=
  todoLiteral (TodoItem.id t) (TodoItem.title t) (TodoItem.completed t)
    (priorityName (TodoItem.priority t))
    (VStr (Date_toISOString (TodoItem.createdAt t))).

(** The state is well-formed: [users] holds [User] records and [todos]
    holds [TodoItem] records. *)
Definition wellFormed (st : DemoComponent) (us : list User.t)
  (ts : list TodoItem.t) : Prop :=
  users st = map ofUser us /\ todos st = map ofTodo ts.

Definition withActive (b : bool) (u : User.t) : User.t :=
  {| User.id := User.id u; User.name := User.name u;
     User.email := User.email u; User.isActive := b |}.

Definition withCompleted (b : bool) (t : TodoItem.t) : TodoItem.t :=
  {| TodoItem.id := TodoItem.id t; TodoItem.title := TodoItem.title t;
     TodoItem.completed := b; TodoItem.priority := TodoItem.priority t;
     TodoItem.createdAt := TodoItem.createdAt t |}.

Definition withPriority (p : Priority) (t : TodoItem.t) : TodoItem.t :=
  {| TodoItem.id := TodoItem.id t; TodoItem.title := TodoItem.title t;
     TodoItem.completed := TodoItem.completed t; TodoItem.priority := p;
     TodoItem.createdAt := TodoItem.createdAt t |}.

(** The array methods on the typed view. *)
Fixpoint findIndex {A : Type} (f : A -> bool) (l : list A) : option nat :=
  match l with
  | [] => None
  | x :: rest => if f x then Some 0 else option_map S (findIndex f rest)
  end.

Fixpoint updateAt {A : Type} (i : nat) (g : A -> A) (l : list A) {struct l}
  : list A :=
  match l, i with
  | [], _ => []
  | x :: rest, 0 => g x :: rest
  | x :: rest, S j => x :: updateAt j g rest
  end.

Fixpoint insertBy {A : Type} (cmp : A -> A -> Z) (x : A) (sorted : list A)
  : list A :=
  match sorted with
  | [] => [x]
  | y :: rest =>
      if (cmp x y <=? 0)%Z then x :: y :: rest else y :: insertBy cmp x rest
  end.

Fixpoint sortBy {A : Type} (cmp : A -> A -> Z) (l : list A) : list A :=
  match l with
  | [] => []
  | x :: rest => insertBy cmp x (sortBy cmp rest)
  end.

(** The seed users as records. *)
Definition seedUsers : list User.t :=
  [ {| User.id := 1; User.name := "John Doe";
       User.email := "john@example.com"; User.isActive := true |};
    {| User.id := 2; User.name := "Jane Smith";
       User.email := "jane@example.com"; User.isActive := false |};
    {| User.id := 3; User.name := "Bob Johnson";
       User.email := "bob@example.com"; User.isActive := true |};
    {| User.id := 4; User.name := "Alice Brown";
       User.email := "alice@example.com"; User.isActive := true |};
    {| User.id := 5; User.name := "Charlie Wilson";
       User.email := "charlie@example.com"; User.isActive := false |} ].

(** The element has the key [k]. *)
Definition hasKey {A : Type} (key : A -> Z) (k : Z) (x : A) : bool :=
  (key x =? k)%Z.

(** The comparator of a sort by descending key, and the order it yields. *)
Definition descending {A : Type} (key : A -> Z) (x y : A) : Z :=
  (key y - key x)%Z.

Definition notBelow {A : Type} (key : A -> Z) (x y : A) : Prop :=
  (key y <= key x)%Z.

(** What a method does to a well-formed state: it returns, and the state
    it reaches is well-formed with the given records. *)
Definition reaches (m : M unit) (st : DemoComponent) (us : list User.t)
  (ts : list TodoItem.t) : Prop :=
  exists st', m st = (Normal tt, st') /\ wellFormed st' us ts.

(** The dates of the seed todos, and the platform reading them as dates. *)
Definition seedDates : list string :=
  ["2024-01-01"; "2024-01-02"; "2024-01-03"; "2024-01-04"; "2024-01-05"].

Definition seedDatesValid `{Platform} : Prop :=
  Forall (fun s => Date_parse s <> None) seedDates.

(** The severity rank of [sortTodosByPriority]. *)
Definition rank (p : Priority) : Z :=
  match p with High => 3 | Medium => 2 | Low => 1 end.

Definition Priority_eqb (p q : Priority) : bool :=
  match p, q with
  | Low, Low | Medium, Medium | High, High => true
  | _, _ => false
  end.

(** The statistics of [users] and [todos] whose elements are neither
    [null] nor [undefined]: every element counts in the totals, and a
    property that is missing reads as [undefined]. *)
Definition recompute (us ts : list value) : Statistics :=
  {| totalUsers := List.length us;
     activeUsers := List.length (filter (fun u => truthy (field "isActive" u)) us);
     totalTodos := List.length ts;
     completedTodos := List.length (filter (fun t => truthy (field "completed" t)) ts);
     highPriorityTodos :=
       List.length (filter (fun t => strictEqStr (field "priority" t) "high") ts) |}.

(** No two elements of [users] have the same [id]. *)
Definition uniqueIds (st : DemoComponent) : Prop :=
  NoDup (map (fun u => get u "id") (users st)).

(** The shape [local@domain.tld] in the words of the specification: no
    whitespace, a single [@], and after it a dot between two non-empty
    segments. *)
Definition segment (s : string) : Prop :=
  s <> "" /\ Forall (fun c => notSpaceAt c = true) (list_ascii_of_string s).

Definition emailShape (s : string) : Prop :=
  exists local domain tld,
    s = (local ++ "@" ++ domain ++ "." ++ tld)%string /\
    segment local /\ segment domain /\ segment tld.


(** A payload that the caller has checked before handing it to
    [importData], which checks nothing: when its [users] is an array, it
    holds [User] records with distinct ids; when its [todos] is an array,
    [importTodo] turns its elements into [TodoItem] records (their
    [createdAt] converts to a valid date).  A text that is not JSON is
    harmless. *)
Definition usersChecked (dataUsers : value) : Prop :=
  truthy dataUsers && isArray dataUsers = true ->
  exists us, dataUsers = VArr (map ofUser us) /\ NoDup (map User.id us).

Definition todosChecked `{Platform} (dataTodos : value) : Prop :=
  truthy dataTodos && isArray dataTodos = true ->
  exists ts, Array_map importTodo (elements dataTodos) = Normal (map ofTodo ts).

Definition checkedImport `{Platform} (jsonData : string) : Prop :=
  match JSON_parse jsonData with
  | None => True
  | Some data =>
      usersChecked (field "users" data) /\ todosChecked (field "todos" data)
  end.

(** The operations of a run in which every import is a checked one. *)
Definition checked `{Platform} (o : operation) : Prop :=
  match o with
  | ImportData jsonData => checkedImport jsonData
  | _ => True
  end.


(* ===================================================================== *)
(** ** Further views of the state *)
(* ===================================================================== *)

(** How often the character occurs in the string. *)
Definition occurrences (c : ascii) (s : string) : nat :=
  count_occ ascii_dec (list_ascii_of_string s) c.

(** [user.isActive = !user.isActive] and [todo.completed = !todo.completed]
    on records. *)
Definition flipActive (u : User.t) : User.t :=
  withActive (negb (User.isActive u)) u.

Definition flipCompleted (t : TodoItem.t) : TodoItem.t :=
  withCompleted (negb (TodoItem.completed t)) t.

(** [find] followed by an assignment to the element found, and [findIndex]
    followed by [splice], on the typed view: the first element on which [p]
    holds is updated, or removed. *)
Fixpoint updateFirst {A : Type} (p : A -> bool) (g : A -> A) (l : list A)
  : list A :=
  match l with
  | [] => []
  | x :: rest => if p x then g x :: rest else x :: updateFirst p g rest
  end.

Fixpoint removeFirst {A : Type} (p : A -> bool) (l : list A) : list A :=
  match l with
  | [] => []
  | x :: rest => if p x then rest else x :: removeFirst p rest
  end.

(** The id that [getNextUserId] and [getNextTodoId] hand out when the ids
    in use are [ids]. *)
Definition nextId (ids : list Z) : Z :=
  match ids with
  | [] => 1%Z
  | _ => Number_add (Math_max ids) 1
  end.

(** [Number.isSafeInteger(n)]: the integers below 2^53 in magnitude, on
    which adding 1 is exact. *)
Definition isSafeInteger (n : Z) : Prop := (- 2 ^ 53 < n < 2 ^ 53)%Z.

(** The collection can be spread into the arguments of a call. *)
Definition spreadable `{Platform} {A : Type} (l : list A) : Prop :=
  (Z.of_nat (List.length l) <= argumentsLimit)%Z.

(** A method that returns, in a well-formed state, or that fails for lack
    of stack before it has assigned anything. *)
Definition reachesOrFails (m : M unit) (st : DemoComponent)
  (us : list User.t) (ts : list TodoItem.t) : Prop :=
  reaches m st us ts \/ (m st = (Throw RangeError, st) /\ wellFormed st us ts).

(** The calls of [addUser] in a run. *)
Fixpoint adds (ops : list operation) : Z :=
  match ops with
  | [] => 0%Z
  | AddUser _ _ :: rest => (1 + adds rest)%Z
  | _ :: rest => adds rest
  end.

(** Ids that are integers above -2^53 and at most [hi]. *)
Definition idsWithin (hi : Z) (ids : list Z) : Prop :=
  Forall (fun n => (- 2 ^ 53 < n <= hi)%Z) ids.

Definition idWithin (hi : Z) (u : value) : Prop :=
  exists n, field "id" u = VNum n /\ (- 2 ^ 53 < n <= hi)%Z.

(** An import whose users, when it has some, have such ids. *)
Definition importWithin `{Platform} (hi : Z) (o : operation) : Prop :=
  match o with
  | ImportData jsonData =>
      match JSON_parse jsonData with
      | Some data => Forall (idWithin hi) (elements (field "users" data))
      | None => True
      end
  | _ => True
  end.

(** Two states that agree in every field but [selectedUser]. *)
Definition sameButSelection (st1 st2 : DemoComponent) : Prop :=
  set_selectedUser VNull st1 = set_selectedUser VNull st2.

(** The records that [addUser] and [addTodo] append to [us] and [ts]. *)
Definition newUser (us : list User.t) (name email : string) : User.t :=
  {| User.id := nextId (map User.id us); User.name := trim name;
     User.email := trim email; User.isActive := true |}.

Definition newTodo (ts : list TodoItem.t) (title : string)
  (priority : Priority) (now : Z) : TodoItem.t :=
  {| TodoItem.id := nextId (map TodoItem.id ts); TodoItem.title := trim title;
     TodoItem.completed := false; TodoItem.priority := priority;
     TodoItem.createdAt := now |}.

(** [statistics] holds the counts of the collections as they are now. *)
Definition inSync (st : DemoComponent) : Prop :=
  statistics st = recompute (users st) (todos st).

(** A method that leaves the statistics in step whenever it returns, and
    one that keeps them in step when they were. *)
Definition settles {A : Type} (m : M A) : Prop :=
  forall st a st', m st = (Normal a, st') -> inSync st'.

Definition keepsSync {A : Type} (m : M A) : Prop :=
  forall st a st', inSync st -> m st = (Normal a, st') -> inSync st'.

(** The signals of the timer in a run, and the time of the last one. *)
Fixpoint ticks (ops : list operation) : Z :=
  match ops with
  | [] => 0%Z
  | Tick _ :: rest => (1 + ticks rest)%Z
  | _ :: rest => ticks rest
  end.

Fixpoint lastTick (ops : list operation) (time : Z) : Z :=
  match ops with
  | [] => time
  | Tick now :: rest => lastTick rest now
  | _ :: rest => lastTick rest time
  end.

(** The operations on users and the operations on todos. *)
Definition userOperation (o : operation) : bool :=
  match o with
  | AddUser _ _ | DeleteUser _ | ToggleUserStatus _ | SelectUser _
  | ActivateAllUsers | DeactivateAllUsers | SortUsersByName | SortUsersByEmail
  | InputUserSearchTerm _ | InputShowUserForm _ => true
  | _ => false
  end.

Definition todoOperation (o : operation) : bool :=
  match o with
  | AddTodo _ | ToggleTodo _ | DeleteTodo _ | UpdateTodoPriority _ _
  | ClearCompletedTodos | MarkAllTodosComplete | MarkAllTodosIncomplete
  | SortTodosByPriority | SortTodosByDate
  | InputNewTodoTitle _ | InputSelectedPriority _ | InputTodoFilter _ => true
  | _ => false
  end.

(** The user matches the search term: its name or its email contains the
    term, letter case apart. *)
Definition matchesTerm (term : string) (u : User.t) : bool :=
  includes (toLowerCase (User.name u)) (toLowerCase term) ||
  includes (toLowerCase (User.email u)) (toLowerCase term).

(** [theme] is one of the two values of its type, ['light' | 'dark']. *)
Definition themeValid (th : value) : Prop :=
  th = VStr "light" \/ th = VStr "dark".

(** A method that keeps a property of the state, however it completes. *)
Definition keeps (P : DemoComponent -> Prop) {A : Type} (m : M A) : Prop :=
  forall st, P st -> P (snd (m st)).

(** The messages that the methods assign to [errorMessage]. *)
Definition messages : list string :=
  [ ""; "Name and email are required"; "Please enter a valid email address";
    "Todo title is required"; "Invalid JSON data for import" ].

(** A payload whose theme, when it has one, is one of the two. *)
Definition themeChecked `{Platform} (o : operation) : Prop :=
  match o with
  | ImportData jsonData =>
      match JSON_parse jsonData with
      | Some data =>
          truthy (field "theme" data) = true -> themeValid (field "theme" data)
      | None => True
      end
  | _ => True
  end.

(** The counts of the seed data. *)
Definition seedStatistics : Statistics :=
  {| totalUsers := 5; activeUsers := 3; totalTodos := 5;
     completedTodos := 2; highPriorityTodos := 2 |}.

(* ===================================================================== *)
(** ** A reference platform *)
(* ===================================================================== *)

(** One concrete host, on which the component runs on concrete texts: JSON
    as ECMA-404 defines it (numbers with a fraction or an exponent and
    escapes above 255 have no counterpart in the model and are not read),
    dates in the ISO forms [YYYY-MM-DD] and [YYYY-MM-DDTHH:mm:ss.sssZ] in
    the proleptic Gregorian calendar (the forms [toISOString] writes and the
    seed data uses), strings ordered by their code units, and calls of up
    to 65535 arguments. *)
Module Reference.

Definition dquote : ascii := "034"%char.
Definition newline : ascii := "010"%char.

Definition isDigit (c : ascii) : bool :=
  let n := nat_of_ascii c in ((48 <=? n) && (n <=? 57))%nat.

Definition digitValue (c : ascii) : Z := Z.of_nat (nat_of_ascii c) - 48.

(** The longest prefix of digits, and what follows it. *)
Fixpoint digits (s : string) : list ascii * string :=
  match s with
  | String c rest =>
      if isDigit c then let (ds, r) := digits rest in (c :: ds, r) else ([], s)
  | EmptyString => ([], s)
  end.

Definition number (ds : list ascii) : Z :=
  fold_left (fun acc c => acc * 10 + digitValue c)%Z ds 0%Z.

(** Exactly [n] digits. *)
Fixpoint fixedDigits (n : nat) (s : string) : option (list ascii * string) :=
  match n with
  | 0 => Some ([], s)
  | S k =>
      match s with
      | String c rest =>
          if isDigit c then
            match fixedDigits k rest with
            | Some (ds, r) => Some (c :: ds, r)
            | None => None
            end
          else None
      | EmptyString => None
      end
  end.

(** [s] without the prefix [p]. *)
Fixpoint strip (p s : string) : option string :=
  match p, s with
  | EmptyString, _ => Some s
  | String a p', String b s' => if Ascii.eqb a b then strip p' s' else None
  | _, _ => None
  end.

(** *** Dates *)

Definition daysFromCivil (y m d : Z) : Z :=
  (let y' := if m <=? 2 then y - 1 else y in
   let era := y' / 400 in
   let yoe := y' - era * 400 in
   let mp := if 2 <? m then m - 3 else m + 9 in
   let doy := (153 * mp + 2) / 5 + d - 1 in
   let doe := yoe * 365 + yoe / 4 - yoe / 100 + doy in
   era * 146097 + doe - 719468)%Z.

Definition civilFromDays (days : Z) : Z * Z * Z :=
  (let z := days + 719468 in
   let era := z / 146097 in
   let doe := z - era * 146097 in
   let yoe := (doe - doe / 1460 + doe / 36524 - doe / 146096) / 365 in
   let doy := doe - (365 * yoe + yoe / 4 - yoe / 100) in
   let mp := (5 * doy + 2) / 153 in
   let d := doy - (153 * mp + 2) / 5 + 1 in
   let m := if mp <? 10 then mp + 3 else mp - 9 in
   let y := yoe + era * 400 in
   (if m <=? 2 then y + 1 else y, m, d))%Z.

Definition msPerDay : Z := 86400000.

(** [n] in [width] digits, zero-padded. *)
Fixpoint padded (width : nat) (n : Z) : string :=
  match width with
  | 0 => ""
  | S k =>
      (padded k (n / 10) ++
       String (ascii_of_nat (48 + Z.to_nat (n mod 10))) "")%string
  end.

Definition toISOString (t : Z) : string :=
  let '(y, m, d) := civilFromDays (t / msPerDay) in
  let ms := (t mod msPerDay)%Z in
  let year :=
    if ((0 <=? y) && (y <=? 9999))%Z then padded 4 y
    else ((if (y <? 0)%Z then "-" else "+") ++ padded 6 (Z.abs y))%string in
  (year ++ "-" ++ padded 2 m ++ "-" ++ padded 2 d ++ "T" ++
   padded 2 (ms / 3600000) ++ ":" ++ padded 2 (ms / 60000 mod 60) ++ ":" ++
   padded 2 (ms / 1000 mod 60) ++ "." ++ padded 3 (ms mod 1000) ++ "Z")%string.

Definition daysInMonth (y m : Z) : Z :=
  (daysFromCivil (if m =? 12 then y + 1 else y) (if m =? 12 then 1 else m + 1) 1
   - daysFromCivil y m 1)%Z.

Definition parseYear (s : string) : option (Z * string) :=
  match s with
  | String "+" rest =>
      match fixedDigits 6 rest with
      | Some (ds, r) => Some (number ds, r)
      | None => None
      end
  | String "-" rest =>
      match fixedDigits 6 rest with
      | Some (ds, r) => if (number ds =? 0)%Z then None else Some (- number ds, r)%Z
      | None => None
      end
  | _ =>
      match fixedDigits 4 s with
      | Some (ds, r) => Some (number ds, r)
      | None => None
      end
  end.

Definition two (sep : string) (s : string) : option (Z * string) :=
  match strip sep s with
  | Some r =>
      match fixedDigits 2 r with
      | Some (ds, r') => Some (number ds, r')
      | None => None
      end
  | None => None
  end.

Definition parseTime (s : string) : option Z :=
  match two "T" s with
  | Some (h, s1) =>
      match two ":" s1 with
      | Some (mi, s2) =>
          match two ":" s2 with
          | Some (sec, s3) =>
              match strip "." s3 with
              | Some s4 =>
                  match fixedDigits 3 s4 with
                  | Some (ds, String "Z" EmptyString) =>
                      if ((h <=? 23) && (mi <=? 59) && (sec <=? 59))%Z
                      then Some (h * 3600000 + mi * 60000 + sec * 1000 + number ds)%Z
                      else None
                  | _ => None
                  end
              | None => None
              end
          | None => None
          end
      | None => None
      end
  | None => None
  end.

Definition Date_parse (s : string) : option Z :=
  match parseYear s with
  | Some (y, s1) =>
      match two "-" s1 with
      | Some (m, s2) =>
          match two "-" s2 with
          | Some (d, s3) =>
              if ((1 <=? m) && (m <=? 12) && (1 <=? d) && (d <=? daysInMonth y m))%Z
              then
                let day := (daysFromCivil y m d * msPerDay)%Z in
                match s3 with
                | EmptyString => TimeClip day
                | _ =>
                    match parseTime s3 with
                    | Some ms => TimeClip (day + ms)
                    | None => None
                    end
                end
              else None
          | None => None
          end
      | None => None
      end
  | None => None
  end.

(** *** JSON text *)

Definition hexDigit (n : nat) : ascii :=
  nth n (list_ascii_of_string "0123456789abcdef") "0"%char.

(** QuoteJSONString on one character. *)
Definition escape (c : ascii) : string :=
  let n := nat_of_ascii c in
  if Ascii.eqb c dquote then String "\" (String dquote "")
  else if Ascii.eqb c "\" then "\\"
  else if (n =? 8)%nat then "\b"
  else if (n =? 9)%nat then "\t"
  else if (n =? 10)%nat then "\n"
  else if (n =? 12)%nat then "\f"
  else if (n =? 13)%nat then "\r"
  else if (n <? 32)%nat then
    ("\u00" ++ String (hexDigit (n / 16)) (String (hexDigit (n mod 16)) ""))%string
  else String c "".

Fixpoint escapeAll (s : string) : string :=
  match s with
  | EmptyString => ""
  | String c rest => (escape c ++ escapeAll rest)%string
  end.

Definition quote (s : string) : string :=
  String dquote (escapeAll s ++ String dquote "")%string.

Fixpoint spaces (n : nat) : string :=
  match n with
  | 0 => ""
  | S k => String " " (spaces k)
  end.

Fixpoint joinWith (sep : string) (l : list string) : string :=
  match l with
  | [] => ""
  | [x] => x
  | x :: rest => (x ++ sep ++ joinWith sep rest)%string
  end.

(** A non-empty array or object over several lines, its items indented by
    [indent + 2]. *)
Definition block (opening closing : string) (indent : nat) (items : list string)
  : string :=
  let br := String newline (spaces (indent + 2)) in
  (opening ++ br ++ joinWith ("," ++ br) items ++
   String newline (spaces indent) ++ closing)%string.

(** SerializeJSONProperty with a gap of two spaces. *)
Fixpoint serialize (indent : nat) (v : value) : string :=
  match v with
  | VUndefined | VNull => "null"
  | VBool true => "true"
  | VBool false => "false"
  | VNum n => decimal n
  | VStr s => quote s
  | VDate (Some t) => quote (toISOString t)
  | VDate None => "null"
  | VArr [] => "[]"
  | VArr elems => block "[" "]" indent (map (serialize (indent + 2)) elems)
  | VObj props =>
      let members :=
        (fix members (l : list (string * value)) : list string :=
           match l with
           | [] => []
           | (_, VUndefined) :: rest => members rest
           | (k, x) :: rest =>
               (quote k ++ ": " ++ serialize (indent + 2) x)%string :: members rest
           end) props in
      match members with
      | [] => "{}"
      | _ => block "{" "}" indent members
      end
  end.

(** The component only stringifies an object literal. *)
Definition JSON_stringify (v : value) : string := serialize 0 v.

Definition isJSONSpace (c : ascii) : bool :=
  let n := nat_of_ascii c in ((n =? 32) || (n =? 9) || (n =? 10) || (n =? 13))%nat.

Fixpoint skipSpace (s : string) : string :=
  match s with
  | String c rest => if isJSONSpace c then skipSpace rest else s
  | EmptyString => s
  end.

Definition hexValue (c : ascii) : option nat :=
  let n := nat_of_ascii c in
  if ((48 <=? n) && (n <=? 57))%nat then Some (n - 48)
  else if ((97 <=? n) && (n <=? 102))%nat then Some (n - 87)
  else if ((65 <=? n) && (n <=? 70))%nat then Some (n - 55)
  else None.

(** The code unit of [\uXXXX], when it is below 256. *)
Definition unicodeEscape (s : string) : option (ascii * string) :=
  match s with
  | String a (String b (String c (String d rest))) =>
      match hexValue a, hexValue b, hexValue c, hexValue d with
      | Some 0, Some 0, Some x, Some y => Some (ascii_of_nat (16 * x + y), rest)
      | _, _, _, _ => None
      end
  | _ => None
  end.

(** The characters of a string literal after its opening quote, and what
    follows the closing quote. *)
Fixpoint stringBody (fuel : nat) (s : string) : option (string * string) :=
  match fuel with
  | 0 => None
  | S fuel' =>
      match s with
      | EmptyString => None
      | String c rest =>
          if Ascii.eqb c dquote then Some ("", rest)
          else if Ascii.eqb c "\" then
            match rest with
            | String e rest' =>
                let continue (ch : ascii) (r : string) :=
                  match stringBody fuel' r with
                  | Some (body, r') => Some (String ch body, r')
                  | None => None
                  end in
                if Ascii.eqb e dquote then continue dquote rest'
                else if Ascii.eqb e "\" then continue "\"%char rest'
                else if Ascii.eqb e "/" then continue "/"%char rest'
                else if Ascii.eqb e "b" then continue "008"%char rest'
                else if Ascii.eqb e "f" then continue "012"%char rest'
                else if Ascii.eqb e "n" then continue "010"%char rest'
                else if Ascii.eqb e "r" then continue "013"%char rest'
                else if Ascii.eqb e "t" then continue "009"%char rest'
                else if Ascii.eqb e "u" then
                  match unicodeEscape rest' with
                  | Some (ch, r) => continue ch r
                  | None => None
                  end
                else None
            | EmptyString => None
            end
          else if (nat_of_ascii c <? 32)%nat then None
          else
            match stringBody fuel' rest with
            | Some (body, r') => Some (String c body, r')
            | None => None
            end
      end
  end.

(** An integer literal, read as the double nearest to it; a fraction, an
    exponent or a literal that rounds to an infinity is not read. *)
Definition numberLiteral (s : string) : option (Z * string) :=
  let (negative, s1) :=
    match s with
    | String "-" rest => (true, rest)
    | _ => (false, s)
    end in
  let (ds, rest) := digits s1 in
  match ds with
  | [] => None
  | "0"%char :: _ :: _ => None
  | _ =>
      match rest with
      | String "." _ | String "e" _ | String "E" _ => None
      | _ =>
          let n := nearestDouble (if negative then - number ds else number ds)%Z in
          if (Z.abs n <? 2 ^ 1024)%Z then Some (n, rest) else None
      end
  end.

(** Is [k] an array index, written canonically?  Such keys come first in an
    object, in ascending order. *)
Definition indexOf (k : string) : option Z :=
  let (ds, rest) := digits k in
  match ds, rest with
  | [], _ => None
  | "0"%char :: _ :: _, _ => None
  | _, EmptyString => if (number ds <? 4294967295)%Z then Some (number ds) else None
  | _, _ => None
  end.

(** CreateDataProperty on the property list of an object being parsed: a
    key already there keeps its place, a new index goes among the indices,
    any other new key goes last. *)
Fixpoint define (k : string) (v : value) (props : list (string * value))
  : list (string * value) :=
  match props with
  | [] => [(k, v)]
  | (k', v') :: rest =>
      if String.eqb k' k then (k', v) :: rest
      else
        match indexOf k, indexOf k' with
        | Some i, Some j =>
            if (i <? j)%Z then (k, v) :: props else (k', v') :: define k v rest
        | Some _, None => (k, v) :: props
        | None, _ => (k', v') :: define k v rest
        end
  end.

(** A JSON value at the head of [s], and what follows it.  Every call
    on the way down consumes a character, so the length of the text bounds
    the depth of the recursion. *)
Fixpoint valueAt (fuel : nat) (s : string) : option (value * string) :=
  match fuel with
  | 0 => None
  | S fuel' =>
      match skipSpace s with
      | EmptyString => None
      | String c rest =>
          if Ascii.eqb c "{" then
            match skipSpace rest with
            | String "}" r => Some (VObj [], r)
            | _ =>
                match membersAt fuel' [] rest with
                | Some (props, r) => Some (VObj props, r)
                | None => None
                end
            end
          else if Ascii.eqb c "[" then
            match skipSpace rest with
            | String "]" r => Some (VArr [], r)
            | _ =>
                match elementsAt fuel' rest with
                | Some (elems, r) => Some (VArr elems, r)
                | None => None
                end
            end
          else if Ascii.eqb c dquote then
            match stringBody (String.length rest) rest with
            | Some (str, r) => Some (VStr str, r)
            | None => None
            end
          else
            match strip "true" (String c rest), strip "false" (String c rest),
                  strip "null" (String c rest) with
            | Some r, _, _ => Some (VBool true, r)
            | _, Some r, _ => Some (VBool false, r)
            | _, _, Some r => Some (VNull, r)
            | None, None, None =>
                match numberLiteral (String c rest) with
                | Some (n, r) => Some (VNum n, r)
                | None => None
                end
            end
      end
  end

(** The elements of an array after its opening bracket, up to and including
    the closing one. *)
with elementsAt (fuel : nat) (s : string) : option (list value * string) :=
  match fuel with
  | 0 => None
  | S fuel' =>
      match valueAt fuel' s with
      | Some (v, r) =>
          match skipSpace r with
          | String "]" r' => Some ([v], r')
          | String "," r' =>
              match elementsAt fuel' r' with
              | Some (vs, r'') => Some (v :: vs, r'')
              | None => None
              end
          | _ => None
          end
      | None => None
      end
  end

(** The members of an object after its opening brace, added to [props], up
    to and including the closing brace. *)
with membersAt (fuel : nat) (props : list (string * value)) (s : string)
  : option (list (string * value) * string) :=
  match fuel with
  | 0 => None
  | S fuel' =>
      match skipSpace s with
      | String c rest =>
          if Ascii.eqb c dquote then
            match stringBody (String.length rest) rest with
            | Some (k, r) =>
                match skipSpace r with
                | String ":" r1 =>
                    match valueAt fuel' r1 with
                    | Some (v, r2) =>
                        match skipSpace r2 with
                        | String "}" r3 => Some (define k v props, r3)
                        | String "," r3 => membersAt fuel' (define k v props) r3
                        | _ => None
                        end
                    | None => None
                    end
                | _ => None
                end
            | None => None
            end
          else None
      | EmptyString => None
      end
  end.

Definition JSON_parse (text : string) : option value :=
  match valueAt (S (String.length text)) text with
  | Some (v, rest) =>
      match skipSpace rest with
      | EmptyString => Some v
      | _ => None
      end
  | None => None
  end.

(** Comparison by code units, as in a locale without collation rules. *)
Definition localeCompare (a b : string) : Z :=
  match String.compare a b with
  | Lt => (-1)%Z
  | Eq => 0%Z
  | Gt => 1%Z
  end.

End Reference.

(** The reference platform. *)
#[global] Instance reference : Platform := {|
  JSON_parse := Reference.JSON_parse;
  JSON_stringify := Reference.JSON_stringify;
  Date_parse := Reference.Date_parse;
  Date_toISOString := Reference.toISOString;
  localeCompare := Reference.localeCompare;
  argumentsLimit := 65535
|}.

(** The component after [ngOnInit] on the reference platform, constructed
    at the epoch in a browser with an empty local storage. *)
Definition seeded : DemoComponent := snd (ngOnInit (initial 0 [])).

Definition seedTodos : list TodoItem.t :=
  [ {| TodoItem.id := 1; TodoItem.title := "Complete project setup";
       TodoItem.completed := true; TodoItem.priority := High;
       TodoItem.createdAt := 1704067200000 |};
    {| TodoItem.id := 2; TodoItem.title := "Write unit tests";
       TodoItem.completed := false; TodoItem.priority := High;
       TodoItem.createdAt := 1704153600000 |};
    {| TodoItem.id := 3; TodoItem.title := "Update documentation";
       TodoItem.completed := false; TodoItem.priority := Medium;
       TodoItem.createdAt := 1704240000000 |};
    {| TodoItem.id := 4; TodoItem.title := "Code review";
       TodoItem.completed := false; TodoItem.priority := Low;
       TodoItem.createdAt := 1704326400000 |};
    {| TodoItem.id := 5; TodoItem.title := "Deploy to staging";
       TodoItem.completed := true; TodoItem.priority := Medium;
       TodoItem.createdAt := 1704412800000 |} ].

(** The text [exportData] returns for the seeded component. *)
Definition seededExport : string :=
  JSON_stringify (exportPayload 1704067200000 seeded).

(** [{"users":[null]}] *)
Definition nullUserText : string :=
  "{" ++ Reference.quote "users" ++ ":[null]}".

(** The text of an object whose [users] are two records with the id 1. *)
Definition twinUsers : list value :=
  [ userLiteral 1 "Ann" "ann@example.com" true;
    userLiteral 1 "Bob" "bob@example.com" false ].

Definition twinUsersText : string :=
  JSON_stringify (VObj [("users", VArr twinUsers)]).

(** The text of an object whose [users] is one record with the id 2^53. *)
Definition bigUser : value :=
  userLiteral 9007199254740992 "Big" "big@example.com" true.

Definition bigUserText : string :=
  JSON_stringify (VObj [("users", VArr [bigUser])]).

(** [{"theme":"dark"}] *)
Definition darkThemeText : string :=
  "{" ++ Reference.quote "theme" ++ ":" ++ Reference.quote "dark" ++ "}".

(** [{"users":[],"todos":[null]}] *)
Definition nullTodoText : string :=
  "{" ++ Reference.quote "users" ++ ":[]," ++ Reference.quote "todos" ++ ":[null]}".


(* ===================================================================== *)
(** ** Strings and patterns *)
(* ===================================================================== *)

Lemma append_nil_r (s : string) : (s ++ "")%string = s.
Proof. induction s as [|c s IH]; simpl; [reflexivity | now rewrite IH]. Qed.

Lemma append_assoc (s1 s2 s3 : string) :
  ((s1 ++ s2) ++ s3)%string = (s1 ++ (s2 ++ s3))%string.
Proof. induction s1 as [|c s1 IH]; simpl; [reflexivity | now rewrite IH]. Qed.

Lemma append_eq_nil (s1 s2 : string) :
  (s1 ++ s2)%string = "" -> s1 = "" /\ s2 = "".
Proof. destruct s1; simpl; [auto | discriminate]. Qed.

Lemma list_ascii_of_append (s1 s2 : string) :
  list_ascii_of_string (s1 ++ s2) =
  list_ascii_of_string s1 ++ list_ascii_of_string s2.
Proof. induction s1 as [|c s1 IH]; simpl; [reflexivity | now rewrite IH]. Qed.

Lemma nullable_lang (r : RegExp.t) :
  RegExp.nullable r = true <-> RegExp.lang r "".
Proof.
  split.
  - induction r; simpl; intros E; try discriminate.
    + constructor.
    + apply andb_true_iff in E as [E1 E2].
      change "" with ("" ++ "")%string. constructor; auto.
    + apply orb_true_iff in E as [E|E];
        [apply RegExp.lang_Alt_l | apply RegExp.lang_Alt_r]; auto.
    + constructor.
  - intros L. remember "" as s eqn:Es.
    induction L; simpl; try reflexivity; try discriminate.
    + apply append_eq_nil in Es as [-> ->]. now rewrite IHL1, IHL2.
    + now rewrite IHL.
    + rewrite IHL by assumption. apply orb_true_r.
Qed.

Lemma lang_Void_inv (s : string) : RegExp.lang RegExp.Void s -> False.
Proof. intros L; inversion L. Qed.

Lemma lang_Eps_inv (s : string) : RegExp.lang RegExp.Eps s -> s = "".
Proof. intros L; inversion L; reflexivity. Qed.

Lemma lang_Class_inv (p : ascii -> bool) (s : string) :
  RegExp.lang (RegExp.Class p) s -> exists c, s = String c "" /\ p c = true.
Proof. intros L; inversion L; subst; eauto. Qed.

Lemma lang_Seq_inv (r1 r2 : RegExp.t) (s : string) :
  RegExp.lang (RegExp.Seq r1 r2) s ->
  exists s1 s2, s = (s1 ++ s2)%string /\ RegExp.lang r1 s1 /\ RegExp.lang r2 s2.
Proof. intros L; inversion L; subst; eauto. Qed.

Lemma lang_Alt_inv (r1 r2 : RegExp.t) (s : string) :
  RegExp.lang (RegExp.Alt r1 r2) s -> RegExp.lang r1 s \/ RegExp.lang r2 s.
Proof. intros L; inversion L; subst; auto. Qed.

(** A match of [r1 r2] that starts with [c] takes [c] from [r1], or from
    [r2] when [r1] matches the empty string. *)
Lemma lang_Seq_cons (r1 r2 : RegExp.t) (c : ascii) (s : string) :
  RegExp.lang (RegExp.Seq r1 r2) (String c s) <->
  (exists s1 s2, s = (s1 ++ s2)%string /\
                 RegExp.lang r1 (String c s1) /\ RegExp.lang r2 s2) \/
  (RegExp.lang r1 "" /\ RegExp.lang r2 (String c s)).
Proof.
  split.
  - intros L. apply lang_Seq_inv in L as (s1 & s2 & E & L1 & L2).
    destruct s1 as [|c1 s1]; simpl in E.
    + right. subst. auto.
    + left. injection E as -> ->. eauto.
  - intros [(s1 & s2 & -> & L1 & L2) | [L1 L2]].
    + change (String c (s1 ++ s2)) with (String c s1 ++ s2)%string.
      now constructor.
    + change (String c s) with ("" ++ String c s)%string. now constructor.
Qed.

(** A non-empty match of [r*] starts with a non-empty match of [r]. *)
Lemma lang_Star_cons_inv (r : RegExp.t) (c : ascii) (s : string) :
  RegExp.lang (RegExp.Star r) (String c s) <->
  exists s1 s2, s = (s1 ++ s2)%string /\
                RegExp.lang r (String c s1) /\ RegExp.lang (RegExp.Star r) s2.
Proof.
  split.
  - intros L. remember (RegExp.Star r) as r' eqn:Er.
    remember (String c s) as s' eqn:Es. revert s Es.
    induction L as [| | | | | |r0 t1 t2 L1 _ L2 IH2]; intros t Es; try discriminate.
    injection Er as ->.
    destruct t1 as [|c1 t1]; simpl in Es.
    + now apply IH2.
    + injection Es as -> <-. eauto.
  - intros (s1 & s2 & -> & L1 & L2).
    change (String c (s1 ++ s2)) with (String c s1 ++ s2)%string.
    now constructor.
Qed.

Lemma deriv_lang (r : RegExp.t) : forall (c : ascii) (s : string),
  RegExp.lang (RegExp.deriv c r) s <-> RegExp.lang r (String c s).
Proof.
  induction r as [| |p|r1 IH1 r2 IH2|r1 IH1 r2 IH2|r IH]; intros c s; simpl.
  - split; intros L; now apply lang_Void_inv in L.
  - split; intros L; [now apply lang_Void_inv in L | now apply lang_Eps_inv in L].
  - destruct (p c) eqn:Ep; split; intros L.
    + apply lang_Eps_inv in L as ->. now constructor.
    + apply lang_Class_inv in L as (c' & E & _). injection E as _ ->. constructor.
    + now apply lang_Void_inv in L.
    + apply lang_Class_inv in L as (c' & E & Ep'). injection E as -> _. congruence.
  - rewrite lang_Seq_cons.
    destruct (RegExp.nullable r1) eqn:N.
    + split.
      * intros L. apply lang_Alt_inv in L as [L|L].
        -- apply lang_Seq_inv in L as (s1 & s2 & -> & L1 & L2).
           left. exists s1, s2. rewrite <- IH1. auto.
        -- right. rewrite <- IH2, <- nullable_lang. auto.
      * intros [(s1 & s2 & -> & L1 & L2) | [L1 L2]].
        -- apply RegExp.lang_Alt_l. constructor; [now apply IH1 | assumption].
        -- apply RegExp.lang_Alt_r. now apply IH2.
    + split.
      * intros L. apply lang_Seq_inv in L as (s1 & s2 & -> & L1 & L2).
        left. exists s1, s2. rewrite <- IH1. auto.
      * intros [(s1 & s2 & -> & L1 & L2) | [L1 L2]].
        -- constructor; [now apply IH1 | assumption].
        -- apply nullable_lang in L1. congruence.
  - split; intros L.
    + apply lang_Alt_inv in L as [L|L];
        [apply RegExp.lang_Alt_l; now apply IH1 | apply RegExp.lang_Alt_r; now apply IH2].
    + apply lang_Alt_inv in L as [L|L];
        [apply RegExp.lang_Alt_l; now apply IH1 | apply RegExp.lang_Alt_r; now apply IH2].
  - rewrite lang_Star_cons_inv. split.
    + intros L. apply lang_Seq_inv in L as (s1 & s2 & -> & L1 & L2).
      exists s1, s2. rewrite <- IH. auto.
    + intros (s1 & s2 & -> & L1 & L2). constructor; [now apply IH | assumption].
Qed.

(** The derivative test decides membership in the language. *)
Lemma test_lang (s : string) : forall r : RegExp.t,
  RegExp.test r s = true <-> RegExp.lang r s.
Proof.
  induction s as [|c s IH]; intros r; simpl.
  - apply nullable_lang.
  - rewrite IH. apply deriv_lang.
Qed.

Lemma lang_Star_Class (p : ascii -> bool) (s : string) :
  RegExp.lang (RegExp.Star (RegExp.Class p)) s <->
  Forall (fun c => p c = true) (list_ascii_of_string s).
Proof.
  split.
  - intros L. remember (RegExp.Star (RegExp.Class p)) as r eqn:Er.
    induction L as [| | | | | |r0 t1 t2 L1 _ L2 IH2]; try discriminate.
    + constructor.
    + injection Er as ->.
      apply lang_Class_inv in L1 as (c & -> & Ec). simpl.
      constructor; auto.
  - induction s as [|c s IH]; simpl; intros F.
    + constructor.
    + inversion F; subst.
      change (String c s) with (String c "" ++ s)%string.
      constructor; [now constructor | auto].
Qed.

Lemma lang_Plus_Class (p : ascii -> bool) (s : string) :
  RegExp.lang (RegExp.Plus (RegExp.Class p)) s <->
  s <> "" /\ Forall (fun c => p c = true) (list_ascii_of_string s).
Proof.
  unfold RegExp.Plus. split.
  - intros L. apply lang_Seq_inv in L as (s1 & s2 & -> & L1 & L2).
    apply lang_Class_inv in L1 as (c & -> & Ec).
    apply lang_Star_Class in L2. simpl. split; [discriminate | now constructor].
  - intros [N F]. destruct s as [|c s]; [congruence|].
    simpl in F. inversion F; subst.
    change (String c s) with (String c "" ++ s)%string.
    constructor; [now constructor | now apply lang_Star_Class].
Qed.

Lemma lang_Chr (c : ascii) (s : string) :
  RegExp.lang (RegExp.Chr c) s <-> s = String c "".
Proof.
  unfold RegExp.Chr. split.
  - intros L. apply lang_Class_inv in L as (c' & -> & E).
    apply Ascii.eqb_eq in E. now subst.
  - intros ->. constructor. apply Ascii.eqb_refl.
Qed.

(** The pattern of [isValidEmail] denotes the shape the specification
    words as [local@domain.tld]. *)
Lemma isValidEmail_shape (email : string) :
  isValidEmail email = true <-> emailShape email.
Proof.
  unfold isValidEmail, emailShape, emailRegex, segment.
  rewrite test_lang. split.
  - intros L.
    apply lang_Seq_inv in L as (a & s1 & -> & La & L).
    apply lang_Seq_inv in L as (at_ & s2 & -> & Lat & L).
    apply lang_Seq_inv in L as (b & s3 & -> & Lb & L).
    apply lang_Seq_inv in L as (dot & c & -> & Ldot & Lc).
    apply lang_Chr in Lat as ->. apply lang_Chr in Ldot as ->.
    apply lang_Plus_Class in La, Lb, Lc.
    exists a, b, c. auto.
  - intros (a & b & c & -> & Ha & Hb & Hc).
    repeat constructor; try (now apply lang_Plus_Class); now apply lang_Chr.
Qed.

Lemma trimEnd_fixed (s : string) :
  Forall (fun c => isWhiteSpace c = false) (list_ascii_of_string s) ->
  trimEnd s = s.
Proof.
  induction s as [|c s IH]; simpl; intros F; [reflexivity|].
  inversion F as [|? ? Hc Hs]; subst.
  rewrite (IH Hs). destruct s; [now rewrite Hc | reflexivity].
Qed.

(** A string without whitespace is its own trimmed form. *)
Lemma trim_fixed (s : string) :
  Forall (fun c => isWhiteSpace c = false) (list_ascii_of_string s) ->
  trim s = s.
Proof.
  intros F. unfold trim.
  assert (E : trimStart s = s).
  { destruct s as [|c s]; simpl; [reflexivity|].
    inversion F as [|? ? Hc Hs]; subst. now rewrite Hc. }
  rewrite E. now apply trimEnd_fixed.
Qed.

Lemma segment_no_space (s : string) :
  segment s -> Forall (fun c => isWhiteSpace c = false) (list_ascii_of_string s).
Proof.
  intros [_ F]. eapply Forall_impl; [|exact F].
  intros c Hc. unfold notSpaceAt in Hc.
  apply andb_true_iff in Hc as [Hc _]. now apply negb_true_iff in Hc.
Qed.

(** An address of the right shape has no whitespace to trim. *)
Lemma emailShape_trim (email : string) :
  emailShape email -> trim email = email.
Proof.
  intros (a & b & c & -> & Ha & Hb & Hc).
  apply trim_fixed.
  repeat rewrite list_ascii_of_append. simpl.
  apply Forall_app; split; [now apply segment_no_space|].
  constructor; [reflexivity|].
  apply Forall_app; split; [now apply segment_no_space|].
  constructor; [reflexivity | now apply segment_no_space].
Qed.

Lemma isEmpty_true (s : string) : isEmpty s = true <-> s = "".
Proof. destruct s; simpl; split; congruence. Qed.

Lemma isEmpty_false (s : string) : isEmpty s = false <-> s <> "".
Proof. destruct s; simpl; split; congruence. Qed.

(* ===================================================================== *)
(** ** Reasoning about method bodies *)
(* ===================================================================== *)

Lemma bind_Normal {A B : Type} (m : M A) (k : A -> M B) st b st2 :
  bind m k st = (Normal b, st2) ->
  exists a st1, m st = (Normal a, st1) /\ k a st1 = (Normal b, st2).
Proof.
  unfold bind. destruct (m st) as [[a|e|] st1]; intros E; try discriminate.
  eauto.
Qed.

Lemma bind_step {A B : Type} (m : M A) (k : A -> M B) st a st1 :
  m st = (Normal a, st1) -> bind m k st = k a st1.
Proof. unfold bind. now intros ->. Qed.

Lemma bind_Throw {A B : Type} (m : M A) (k : A -> M B) st e st1 :
  m st = (Throw e, st1) -> bind m k st = (Throw e, st1).
Proof. unfold bind. now intros ->. Qed.

Lemma bind_read {A B : Type} (f : DemoComponent -> A) (k : A -> M B) st :
  bind (read f) k st = k (f st) st.
Proof. reflexivity. Qed.

Lemma bind_write {B : Type} (g : DemoComponent -> DemoComponent)
  (k : unit -> M B) st :
  bind (write g) k st = k tt (g st).
Proof. reflexivity. Qed.

Lemma bind_ret {A B : Type} (a : A) (k : A -> M B) st :
  bind (ret a) k st = k a st.
Proof. reflexivity. Qed.

Lemma bind_lift {A B : Type} (c : completion A) (k : A -> M B) st :
  bind (lift c) k st =
  match c with
  | Normal a => k a st
  | Throw e => (Throw e, st)
  | Beyond => (Beyond, st)
  end.
Proof. destruct c; reflexivity. Qed.

(** Runs the first statement of a method body applied to a state. *)
Ltac step :=
  first [ rewrite bind_read | rewrite bind_write | rewrite bind_ret
        | rewrite bind_lift ];
  cbv beta.

(** *** Frames: the fields a method leaves alone *)

Lemma preserves_ret {A B : Type} (f : DemoComponent -> B) (a : A) :
  preserves f (ret a).
Proof. intros st; reflexivity. Qed.

Lemma preserves_lift {A B : Type} (f : DemoComponent -> B) (c : completion A) :
  preserves f (lift c).
Proof. intros st; reflexivity. Qed.

Lemma preserves_read {A B : Type} (f : DemoComponent -> B)
  (g : DemoComponent -> A) : preserves f (read g).
Proof. intros st; reflexivity. Qed.

Lemma preserves_write {B : Type} (f : DemoComponent -> B)
  (g : DemoComponent -> DemoComponent) :
  (forall st, f (g st) = f st) -> preserves f (write g).
Proof. intros E st; apply E. Qed.

Lemma preserves_bind {A B C : Type} (f : DemoComponent -> C)
  (m : M A) (k : A -> M B) :
  preserves f m -> (forall a, preserves f (k a)) -> preserves f (bind m k).
Proof.
  intros Hm Hk st. unfold bind. specialize (Hm st).
  destruct (m st) as [[a|e|] st1]; simpl in *; try assumption.
  now rewrite Hk.
Qed.

Lemma preserves_try_catch {B : Type} (f : DemoComponent -> B)
  (body handler : M unit) :
  preserves f body -> preserves f handler -> preserves f (try_catch body handler).
Proof.
  intros Hb Hh st. unfold try_catch. specialize (Hb st).
  destruct (body st) as [[a|e|] st1]; simpl in *; try assumption.
  now rewrite Hh.
Qed.

Section Frames.

Context `{Platform}.
Context {B : Type} (f : DemoComponent -> B).

(** [statistics] is the only field [updateStatistics] assigns. *)
Lemma preserves_updateStatistics :
  (forall s st, f (set_statistics s st) = f st) -> preserves f updateStatistics.
Proof.
  intros E. unfold updateStatistics.
  repeat (apply preserves_bind; [|intros ?]);
    try apply preserves_read; try apply preserves_lift.
  apply preserves_write. intros ?. apply E.
Qed.

End Frames.

(** Splits a method body along its binds, tests and matches. *)
Ltac frame :=
  repeat first
    [ apply preserves_ret
    | apply preserves_lift
    | apply preserves_read
    | apply preserves_write; intros ?; reflexivity
    | apply preserves_updateStatistics; intros ? ?; reflexivity
    | apply preserves_bind; [|intros ?]
    | apply preserves_try_catch
    | match goal with
      | |- preserves _ (if ?b then _ else _) => destruct b
      | |- preserves _ (match ?x with _ => _ end) => destruct x
      end
    | assumption ].

(** *** Methods that end by clearing the error *)




Section Properties.

Context `{Platform}.

(* ===================================================================== *)
(** ** addUser: validation *)
(* ===================================================================== *)

(** C4.  [addUser] rejects, and assigns nothing but [errorMessage]: with
    "Name and email are required" when the trimmed name or the trimmed
    email is empty, and otherwise with "Please enter a valid email address"
    when the email (or, what is weaker, its trimmed form) does not have the
    shape [local@domain.tld].  [users], [statistics] and [showUserForm] are
    as before in both cases. *)
Theorem addUser_rejects (name email : string) (st : DemoComponent) :
  (trim name = "" \/ trim email = "" ->
   addUser name email st =
     (Normal tt, set_errorMessage "Name and email are required" st)) /\
  (trim name <> "" -> trim email <> "" ->
   ~ emailShape email \/ ~ emailShape (trim email) ->
   addUser name email st =
     (Normal tt, set_errorMessage "Please enter a valid email address" st)) /\
  (forall msg,
     users (set_errorMessage msg st) = users st /\
     statistics (set_errorMessage msg st) = statistics st /\
     showUserForm (set_errorMessage msg st) = showUserForm st /\
     errorMessage (set_errorMessage msg st) = msg).
Proof.
  split; [|split].
  - intros E. unfold addUser.
    assert (T : isEmpty (trim name) || isEmpty (trim email) = true).
    { apply orb_true_iff. destruct E as [E|E]; rewrite E; auto. }
    now rewrite T.
  - intros Nn Ne S. unfold addUser.
    apply isEmpty_false in Nn, Ne. rewrite Nn, Ne. simpl.
    assert (V : isValidEmail email = false).
    { destruct (isValidEmail email) eqn:V; [|reflexivity].
      apply isValidEmail_shape in V.
      destruct S as [S|S]; [contradiction|].
      exfalso. apply S. now rewrite (emailShape_trim _ V). }
    now rewrite V.
  - intros msg. repeat split.
Qed.

(** C3.  The email is validated as typed, not as trimmed: a name and an
    email whose trimmed forms are non-empty and whose trimmed email has
    the shape [local@domain.tld] are rejected when the email carries
    surrounding blanks, and no user is appended. *)
Theorem addUser_padded_email (st : DemoComponent) :
  trim "  Test User  " = "Test User" /\
  trim "  test@example.com  " = "test@example.com" /\
  emailShape (trim "  test@example.com  ") /\
  addUser "  Test User  " "  test@example.com  " st =
    (Normal tt, set_errorMessage "Please enter a valid email address" st) /\
  users (snd (addUser "  Test User  " "  test@example.com  " st)) = users st.
Proof.
  repeat split. now apply isValidEmail_shape.
Qed.

(* ===================================================================== *)
(** ** resetAllData: what it leaves alone *)
(* ===================================================================== *)

(** C10.  [resetAllData] always returns, and [theme], [todoFilter],
    [selectedPriority], [showUserForm], [counter] and [currentTime] are
    afterwards what they were before; [resetToDefaults], when it returns,
    has reset the first three. *)
Theorem resetAllData_frame (st : DemoComponent) :
  fst (resetAllData st) = Normal tt /\
  theme (snd (resetAllData st)) = theme st /\
  todoFilter (snd (resetAllData st)) = todoFilter st /\
  selectedPriority (snd (resetAllData st)) = selectedPriority st /\
  showUserForm (snd (resetAllData st)) = showUserForm st /\
  counter (snd (resetAllData st)) = counter st /\
  currentTime (snd (resetAllData st)) = currentTime st /\
  (fst (resetToDefaults st) = Normal tt ->
   theme (snd (resetToDefaults st)) = VStr "light" /\
   todoFilter (snd (resetToDefaults st)) = FilterAll /\
   selectedPriority (snd (resetToDefaults st)) = Medium).
Proof.
  repeat split; try reflexivity.
  all: unfold resetToDefaults in *;
    destruct (loadInitialUsers st) as [[[]|e|] st1] eqn:E1;
    rewrite ?(bind_step _ _ _ _ _ E1) in *;
    try (unfold bind in *; rewrite E1 in *; simpl in *; discriminate);
    destruct (loadInitialTodos st1) as [[[]|e|] st2] eqn:E2;
    rewrite ?(bind_step _ _ _ _ _ E2) in *;
    try (unfold bind in *; rewrite E2 in *; simpl in *; discriminate);
    reflexivity.
Qed.

(* ===================================================================== *)
(** ** Statistics *)
(* ===================================================================== *)

Lemma get_field (v : value) (p : string) :
  isNullish v = false -> get v p = Normal (field p v).
Proof. destruct v; simpl; intros E; try discriminate; reflexivity. Qed.

Lemma get_nullish (v : value) (p : string) :
  isNullish v = true -> get v p = Throw TypeError.
Proof. destruct v; simpl; intros E; try discriminate; reflexivity. Qed.

(** A callback that reads a property filters like its total counterpart on
    an array without [null] and [undefined]. *)
Lemma Array_filter_total (f : value -> completion value) (g : value -> value)
  (arr : list value) :
  (forall v, isNullish v = false -> f v = Normal (g v)) ->
  Forall (fun v => isNullish v = false) arr ->
  Array_filter f arr = Normal (filter (fun v => truthy (g v)) arr).
Proof.
  intros Hf F. induction F as [|x rest Hx _ IH]; simpl; [reflexivity|].
  rewrite (Hf x Hx), IH. simpl. reflexivity.
Qed.

(** It throws as soon as one element is [null] or [undefined]. *)
Lemma Array_filter_throws (f : value -> completion value) (g : value -> value)
  (arr : list value) :
  (forall v, isNullish v = false -> f v = Normal (g v)) ->
  (forall v, isNullish v = true -> f v = Throw TypeError) ->
  Exists (fun v => isNullish v = true) arr ->
  Array_filter f arr = Throw TypeError.
Proof.
  intros Hf Ht E. induction arr as [|x rest IH]; [inversion E|].
  simpl. destruct (isNullish x) eqn:Nx.
  - now rewrite (Ht x Nx).
  - rewrite (Hf x Nx). simpl. inversion E as [? ? Hx|? ? Hr]; subst.
    + congruence.
    + now rewrite (IH Hr).
Qed.

Lemma highCallback_total (v : value) :
  isNullish v = false ->
  (p <~ get v "priority" ;; Normal (VBool (strictEqStr p "high"))) =
  Normal (VBool (strictEqStr (field "priority" v) "high")).
Proof. intros E. now rewrite (get_field _ _ E). Qed.

Lemma highCallback_throws (v : value) :
  isNullish v = true ->
  (p <~ get v "priority" ;; Normal (VBool (strictEqStr p "high"))) =
  Throw TypeError.
Proof. intros E. now rewrite (get_nullish _ _ E). Qed.

Lemma updateStatistics_total (st : DemoComponent) :
  Forall (fun v => isNullish v = false) (users st) ->
  Forall (fun v => isNullish v = false) (todos st) ->
  updateStatistics st =
    (Normal tt, set_statistics (recompute (users st) (todos st)) st).
Proof.
  intros Fu Ft. unfold updateStatistics, bind, read, lift, write, recompute.
  rewrite (Array_filter_total _ (field "isActive") _ (fun v => get_field v _) Fu).
  rewrite (Array_filter_total _ (field "completed") _ (fun v => get_field v _) Ft).
  rewrite (Array_filter_total _ _ _ highCallback_total Ft).
  simpl. reflexivity.
Qed.

Lemma updateStatistics_throws (st : DemoComponent) :
  Exists (fun v => isNullish v = true) (users st ++ todos st) ->
  updateStatistics st = (Throw TypeError, st).
Proof.
  intros E. unfold updateStatistics, bind, read, lift.
  apply Exists_app in E as [E|E].
  - rewrite (Array_filter_throws _ (field "isActive") _
               (fun v => get_field v _) (fun v => get_nullish v _) E).
    reflexivity.
  - destruct (Array_filter (fun u => get u "isActive") (users st)) as [a|e|] eqn:Ea.
    + rewrite (Array_filter_throws _ (field "completed") _
                 (fun v => get_field v _) (fun v => get_nullish v _) E).
      reflexivity.
    + assert (e = TypeError) as ->; [|reflexivity].
      clear -Ea. revert e Ea.
      induction (users st) as [|x rest IH]; simpl; intros e Ea; [discriminate|].
      destruct x; simpl in Ea; try (injection Ea as <-; reflexivity);
        destruct (Array_filter _ rest) eqn:Er; simpl in Ea; try discriminate;
        injection Ea as <-; eauto.
    + exfalso. clear -Ea.
      induction (users st) as [|x rest IH]; simpl in Ea; [discriminate|].
      destruct x; simpl in Ea; try discriminate;
        destruct (Array_filter _ rest) eqn:Er; simpl in Ea; try discriminate;
        auto.
Qed.

(** The recomputation returns exactly when no element of [users] or
    [todos] is [null] or [undefined], and throws a TypeError otherwise,
    assigning nothing.  No element is skipped: the two totals are the
    lengths of the arrays.  On empty arrays the five counts are zero. *)
Lemma updateStatistics_cases (st : DemoComponent) :
  (Forall (fun v => isNullish v = false) (users st ++ todos st) ->
   updateStatistics st =
     (Normal tt, set_statistics (recompute (users st) (todos st)) st) /\
   totalUsers (recompute (users st) (todos st)) = List.length (users st) /\
   totalTodos (recompute (users st) (todos st)) = List.length (todos st)) /\
  (Exists (fun v => isNullish v = true) (users st ++ todos st) ->
   updateStatistics st = (Throw TypeError, st)) /\
  (users st = [] -> todos st = [] ->
   updateStatistics st =
     (Normal tt,
      set_statistics {| totalUsers := 0; activeUsers := 0; totalTodos := 0;
                        completedTodos := 0; highPriorityTodos := 0 |} st)).
Proof.
  split; [|split].
  - intros F. apply Forall_app in F as [Fu Ft].
    split; [now apply updateStatistics_total | split; reflexivity].
  - apply updateStatistics_throws.
  - intros Eu Et. rewrite updateStatistics_total; rewrite ?Eu, ?Et; auto.
Qed.

(* ===================================================================== *)
(** ** Arrays of records *)
(* ===================================================================== *)

Section Keyed.

Context {A : Type} (key : A -> Z).

Lemma findIndex_None (k : Z) (l : list A) :
  findIndex (hasKey key k) l = None <-> ~ In k (map key l).
Proof.
  induction l as [|x rest IH]; simpl; [tauto|].
  unfold hasKey at 1. destruct (Z.eqb_spec (key x) k) as [E|N].
  - split; [discriminate | intros C; exfalso; apply C; auto].
  - destruct (findIndex (hasKey key k) rest); simpl.
    + split; [discriminate|]. intros C. exfalso. apply C. right.
      destruct (in_dec Z.eq_dec k (map key rest)) as [I|I]; [exact I|].
      apply IH in I. discriminate.
    + split; [|reflexivity]. intros _ [E|I]; [congruence|].
      now apply IH in I.
Qed.

Lemma findIndex_Some (k : Z) (l : list A) (i : nat) :
  findIndex (hasKey key k) l = Some i -> In k (map key l) /\ i < List.length l.
Proof.
  revert i. induction l as [|x rest IH]; simpl; intros i E; [discriminate|].
  unfold hasKey at 1 in E. destruct (Z.eqb_spec (key x) k) as [Ek|N].
  - injection E as <-. split; [auto | lia].
  - destruct (findIndex (hasKey key k) rest) as [j|]; simpl in E; [|discriminate].
    injection E as <-. destruct (IH j eq_refl). split; [auto | lia].
Qed.

Lemma filter_absent (k : Z) (l : list A) :
  ~ In k (map key l) -> filter (fun x => negb (hasKey key k x)) l = l.
Proof.
  induction l as [|x rest IH]; simpl; intros N; [reflexivity|].
  unfold hasKey at 1. destruct (Z.eqb_spec (key x) k) as [E|_]; simpl.
  - exfalso. auto.
  - rewrite IH; auto.
Qed.

(** With distinct keys, removing the first element with key [k] removes
    every element with key [k]. *)
Lemma splice1_unique (k : Z) (l : list A) (i : nat) :
  NoDup (map key l) -> findIndex (hasKey key k) l = Some i ->
  Array_splice1 i l = filter (fun x => negb (hasKey key k x)) l.
Proof.
  revert i. induction l as [|x rest IH]; simpl; intros i D E; [discriminate|].
  inversion D as [|? ? Nx Dr]; subst.
  unfold hasKey at 1 in E. unfold hasKey at 1.
  destruct (Z.eqb_spec (key x) k) as [Ek|N]; simpl.
  - injection E as <-. subst k. symmetry. now apply filter_absent.
  - destruct (findIndex (hasKey key k) rest) as [j|]; simpl in E; [|discriminate].
    injection E as <-. simpl. now rewrite (IH j Dr eq_refl).
Qed.

Lemma filter_keys_absent (k : Z) (l : list A) :
  ~ In k (map key (filter (fun x => negb (hasKey key k x)) l)).
Proof.
  intros I. apply in_map_iff in I as (x & E & I).
  apply filter_In in I as [_ N]. unfold hasKey in N.
  apply negb_true_iff, Z.eqb_neq in N. congruence.
Qed.

Lemma NoDup_filter_keys (f : A -> bool) (l : list A) :
  NoDup (map key l) -> NoDup (map key (filter f l)).
Proof.
  induction l as [|x rest IH]; simpl; intros D; [constructor|].
  inversion D as [|? ? Nx Dr]; subst.
  destruct (f x); simpl; auto.
  constructor; auto. intros I. apply Nx.
  apply in_map_iff in I as (y & E & I). apply filter_In in I as [I _].
  rewrite <- E. now apply in_map.
Qed.

Lemma splice1_length (l : list A) (i : nat) :
  i < List.length l -> S (List.length (Array_splice1 i l)) = List.length l.
Proof.
  revert i. induction l as [|x rest IH]; simpl; intros i L; [lia|].
  destruct i; simpl; [reflexivity|]. rewrite IH; lia.
Qed.

End Keyed.

Lemma Array_splice1_map {A B : Type} (f : A -> B) (i : nat) (l : list A) :
  Array_splice1 i (map f l) = map f (Array_splice1 i l).
Proof.
  revert i. induction l as [|x rest IH]; intros [|i]; simpl; try reflexivity.
  now rewrite IH.
Qed.

Lemma Forall_users (us : list User.t) :
  Forall (fun v => isNullish v = false) (map ofUser us).
Proof. apply Forall_forall. intros v I. apply in_map_iff in I as (u & <- & _). reflexivity. Qed.

Lemma Forall_todos (ts : list TodoItem.t) :
  Forall (fun v => isNullish v = false) (map ofTodo ts).
Proof. apply Forall_forall. intros v I. apply in_map_iff in I as (t & <- & _). reflexivity. Qed.

Lemma updateStatistics_wellFormed (st : DemoComponent) us ts :
  wellFormed st us ts ->
  updateStatistics st =
    (Normal tt, set_statistics (recompute (users st) (todos st)) st).
Proof.
  intros [Eu Et]. apply updateStatistics_total; rewrite ?Eu, ?Et;
    [apply Forall_users | apply Forall_todos].
Qed.

Lemma Array_findIndex_users (userId : Z) (us : list User.t) :
  Array_findIndex (hasId userId) (map ofUser us) =
  Normal (findIndex (hasKey User.id userId) us).
Proof.
  induction us as [|u rest IH]; simpl; [reflexivity|].
  rewrite IH. unfold hasKey. simpl.
  destruct (User.id u =? userId)%Z; reflexivity.
Qed.

Lemma Array_findIndex_todos (todoId : Z) (ts : list TodoItem.t) :
  Array_findIndex (hasId todoId) (map ofTodo ts) =
  Normal (findIndex (hasKey TodoItem.id todoId) ts).
Proof.
  induction ts as [|t rest IH]; simpl; [reflexivity|].
  rewrite IH. unfold hasKey. simpl.
  destruct (TodoItem.id t =? todoId)%Z; reflexivity.
Qed.

(* ===================================================================== *)
(** ** deleteUser *)
(* ===================================================================== *)

(** The selection after [deleteUser(userId)] removed a user. *)
Lemma deleteUser_wellFormed (st : DemoComponent) us ts (userId : Z) :
  wellFormed st us ts ->
  deleteUser userId st =
    match findIndex (hasKey User.id userId) us with
    | None => (Normal tt, st)
    | Some i =>
        let sel := selectedUser st in
        let us' := map ofUser (Array_splice1 i us) in
        (Normal tt,
         set_statistics (recompute us' (todos st))
           (set_selectedUser
              (if truthy sel && strictEqNum (field "id" sel) userId
               then VNull else sel)
              (set_users us' st)))
    end.
Proof.
  intros [Eu Et]. unfold deleteUser, bind at 1, read at 1.
  rewrite Eu. unfold bind at 1, lift at 1. rewrite Array_findIndex_users.
  destruct (findIndex (hasKey User.id userId) us) as [i|]; [|reflexivity].
  rewrite Array_splice1_map. cbv zeta.
  unfold bind at 1, write at 1. unfold bind at 1, read at 1.
  cbn [selectedUser set_users].
  assert (W : forall sel,
    wellFormed (set_selectedUser sel (set_users (map ofUser (Array_splice1 i us)) st))
      (Array_splice1 i us) ts).
  { intros sel. split; [reflexivity | exact Et]. }
  assert (W0 : wellFormed (set_users (map ofUser (Array_splice1 i us)) st)
                 (Array_splice1 i us) ts).
  { split; [reflexivity | exact Et]. }
  destruct (truthy (selectedUser st)) eqn:T; cbn [andb].
  - assert (N : isNullish (selectedUser st) = false)
      by (destruct (selectedUser st); simpl in *; congruence).
    unfold bind at 1. unfold bind at 1, lift at 1. rewrite (get_field _ _ N).
    destruct (strictEqNum (field "id" (selectedUser st)) userId).
    + unfold write at 1.
      rewrite (updateStatistics_wellFormed _ _ _ (W VNull)). reflexivity.
    + unfold ret at 1.
      rewrite (updateStatistics_wellFormed _ _ _ W0).
      reflexivity.
  - unfold bind at 1, ret at 1.
    rewrite (updateStatistics_wellFormed _ _ _ W0).
    reflexivity.
Qed.

(** C8.  In a well-formed state whose user ids are distinct,
    [deleteUser(userId)] returns; when no user has the id it assigns
    nothing (the statistics are not recomputed); when one has, that user and
    no other is removed, the statistics are recomputed, and a selection of
    the removed user is cleared; and a second call finds nothing to remove
    and assigns nothing. *)
Theorem deleteUser_spec (st : DemoComponent) (us : list User.t)
  (ts : list TodoItem.t) (userId : Z) :
  wellFormed st us ts -> NoDup (map User.id us) ->
  fst (deleteUser userId st) = Normal tt /\
  users (snd (deleteUser userId st)) =
    map ofUser (filter (fun u => negb (User.id u =? userId)%Z) us) /\
  (~ In userId (map User.id us) -> snd (deleteUser userId st) = st) /\
  (In userId (map User.id us) ->
   S (List.length (users (snd (deleteUser userId st)))) = List.length (users st) /\
   statistics (snd (deleteUser userId st)) =
     recompute (users (snd (deleteUser userId st))) (todos st) /\
   forall u, In u us -> User.id u = userId -> selectedUser st = ofUser u ->
             selectedUser (snd (deleteUser userId st)) = VNull) /\
  deleteUser userId (snd (deleteUser userId st)) =
    (Normal tt, snd (deleteUser userId st)).
Proof.
  intros W D. pose proof W as [Eu Et].
  rewrite (deleteUser_wellFormed _ _ _ _ W).
  destruct (findIndex (hasKey User.id userId) us) as [i|] eqn:F.
  - pose proof (findIndex_Some _ _ _ _ F) as [I L].
    pose proof (splice1_unique _ _ _ _ D F) as S1. cbv zeta. simpl fst. simpl snd.
    cbn [users selectedUser statistics set_statistics set_selectedUser set_users].
    split; [reflexivity|]. split; [now rewrite S1|].
    split; [intros N; contradiction|]. split.
    + intros _. split; [|split; [reflexivity|]].
      * rewrite Eu, !length_map. now apply splice1_length.
      * intros u _ Ei Es. rewrite Es. simpl. subst userId.
        now rewrite Z.eqb_refl.
    + match goal with |- deleteUser userId ?s = _ =>
        assert (W' : wellFormed s (Array_splice1 i us) ts)
          by (split; [reflexivity | exact Et]) end.
      rewrite (deleteUser_wellFormed _ _ _ _ W').
      assert (F' : findIndex (hasKey User.id userId) (Array_splice1 i us) = None).
      { apply findIndex_None. rewrite S1. apply filter_keys_absent. }
      now rewrite F'.
  - apply findIndex_None in F. simpl fst. simpl snd.
    split; [reflexivity|]. split.
    + rewrite Eu. f_equal. symmetry. now apply (filter_absent User.id).
    + split; [reflexivity|]. split; [intros I; contradiction|].
      rewrite (deleteUser_wellFormed _ _ _ _ W).
      apply findIndex_None in F. now rewrite F.
Qed.

(* ===================================================================== *)
(** ** Numbers *)
(* ===================================================================== *)

Lemma nearestDouble_exact (z : Z) :
  (- 2 ^ 53 <= z <= 2 ^ 53)%Z -> nearestDouble z = z.
Proof.
  intros B. unfold nearestDouble.
  destruct (Z.eq_dec (Z.abs z) (2 ^ 53)) as [E|N].
  - assert (C : z = (2 ^ 53)%Z \/ z = (- 2 ^ 53)%Z) by lia.
    destruct C as [-> | ->]; vm_compute; reflexivity.
  - assert (L : (Z.log2 (Z.abs z) < 53)%Z).
    { destruct (Z.eq_dec z 0) as [->|Nz]; [vm_compute; reflexivity|].
      apply Z.log2_lt_pow2; lia. }
    destruct (Z.leb_spec (Z.log2 (Z.abs z) - 52) 0); [reflexivity | lia].
Qed.

Lemma Number_add_one (n : Z) :
  (- 2 ^ 53 <= n < 2 ^ 53)%Z -> Number_add n 1 = (n + 1)%Z.
Proof. intros B. unfold Number_add. apply nearestDouble_exact. lia. Qed.

(** From 2^53 on the doubles are 2 apart: 2^53 + 1 is no number, and the
    sum is 2^53 again. *)
Lemma Number_add_one_stuck : Number_add (2 ^ 53) 1 = (2 ^ 53)%Z.
Proof. vm_compute. reflexivity. Qed.

(** Between 2^53 and 2^54 the doubles are the even integers, and an odd
    one goes to the neighbour whose significand is even; from 2^54 on they
    are 4 apart. *)
Example nearestDouble_above_2_53 :
  nearestDouble (2 ^ 53 + 1) = (2 ^ 53)%Z /\
  nearestDouble (2 ^ 53 + 2) = (2 ^ 53 + 2)%Z /\
  nearestDouble (2 ^ 53 + 3) = (2 ^ 53 + 4)%Z /\
  nearestDouble (- (2 ^ 53 + 1)) = (- 2 ^ 53)%Z /\
  nearestDouble (2 ^ 54 + 1) = (2 ^ 54)%Z /\
  nearestDouble (2 ^ 54 + 2) = (2 ^ 54)%Z /\
  nearestDouble (2 ^ 54 + 3) = (2 ^ 54 + 4)%Z.
Proof. repeat split. Qed.

(** Rounding keeps the sign. *)
Lemma nearestDouble_sign (z : Z) :
  (nearestDouble z <=? 0)%Z = (z <=? 0)%Z.
Proof.
  unfold nearestDouble.
  destruct (Z.leb_spec (Z.log2 (Z.abs z) - 52) 0) as [L|G]; [reflexivity|].
  assert (Pa : (0 < Z.abs z)%Z).
  { destruct (Z.eq_dec (Z.abs z) 0) as [E|N]; [|lia].
    rewrite E in G. simpl in G. lia. }
  assert (Pe : (0 < 2 ^ (Z.log2 (Z.abs z) - 52))%Z)
    by (apply Z.pow_pos_nonneg; lia).
  assert (Le : (2 ^ (Z.log2 (Z.abs z) - 52) <= Z.abs z)%Z).
  { transitivity (2 ^ Z.log2 (Z.abs z))%Z;
      [apply Z.pow_le_mono_r; lia | now apply Z.log2_spec]. }
  assert (Q : (1 <= Z.abs z / 2 ^ (Z.log2 (Z.abs z) - 52))%Z)
    by (apply Z.div_le_lower_bound; lia).
  match goal with
  | |- ((Z.sgn z * ((if ?up then _ else _) * _) <=? 0) = _)%Z =>
      assert (P : (0 < (if up
                        then Z.abs z / 2 ^ (Z.log2 (Z.abs z) - 52) + 1
                        else Z.abs z / 2 ^ (Z.log2 (Z.abs z) - 52)) *
                       2 ^ (Z.log2 (Z.abs z) - 52))%Z)
        by (destruct up; nia)
  end.
  destruct z as [|p|p]; [simpl in Pa; lia | |].
  - change (Z.sgn (Z.pos p)) with 1%Z. change (Z.pos p <=? 0)%Z with false.
    apply Z.leb_gt. lia.
  - change (Z.sgn (Z.neg p)) with (-1)%Z. change (Z.neg p <=? 0)%Z with true.
    apply Z.leb_le. lia.
Qed.

(* ===================================================================== *)
(** ** Sorting *)
(* ===================================================================== *)

Section Sorting.

Context {A : Type}.

Lemma insertBy_perm (cmp : A -> A -> Z) (x : A) (l : list A) :
  Permutation (x :: l) (insertBy cmp x l).
Proof.
  induction l as [|y rest IH]; simpl; [reflexivity|].
  destruct (cmp x y <=? 0)%Z; [reflexivity|].
  rewrite perm_swap. now constructor.
Qed.

Lemma sortBy_perm (cmp : A -> A -> Z) (l : list A) :
  Permutation l (sortBy cmp l).
Proof.
  induction l as [|x rest IH]; simpl; [constructor|].
  rewrite <- insertBy_perm. now constructor.
Qed.

(** A sort reads the sign of what the comparator returns, and nothing
    else. *)
Lemma insertBy_sign (c1 c2 : A -> A -> Z) (x : A) (l : list A) :
  (forall a b, (c1 a b <=? 0)%Z = (c2 a b <=? 0)%Z) ->
  insertBy c1 x l = insertBy c2 x l.
Proof.
  intros E. induction l as [|y rest IH]; simpl; [reflexivity|].
  now rewrite E, IH.
Qed.

Lemma sortBy_sign (c1 c2 : A -> A -> Z) (l : list A) :
  (forall a b, (c1 a b <=? 0)%Z = (c2 a b <=? 0)%Z) ->
  sortBy c1 l = sortBy c2 l.
Proof.
  intros E. induction l as [|x rest IH]; simpl; [reflexivity|].
  rewrite IH. now apply insertBy_sign.
Qed.

(** Sorting by descending key: [cmp(x, y) = key y - key x]. *)
Context (key : A -> Z).

Lemma insertBy_sorted (x : A) (l : list A) :
  StronglySorted (notBelow key) l -> StronglySorted (notBelow key) (insertBy (descending key) x l).
Proof.
  induction l as [|y rest IH]; simpl; intros S.
  - repeat constructor.
  - inversion S as [|? ? Sr Fy]; subst. unfold descending at 1.
    destruct (Z.leb_spec (key y - key x) 0) as [L|G].
    + constructor; [exact S|]. constructor; [unfold notBelow; lia|].
      eapply Forall_impl; [|exact Fy]. unfold notBelow. intros; lia.
    + constructor; [now apply IH|].
      apply Forall_forall. intros z Iz.
      apply (Permutation_in _ (Permutation_sym (insertBy_perm _ x rest))) in Iz.
      destruct Iz as [<-|Iz]; [unfold notBelow; lia|].
      rewrite Forall_forall in Fy. now apply Fy.
Qed.

Lemma sortBy_sorted (l : list A) :
  StronglySorted (notBelow key) (sortBy (descending key) l).
Proof.
  induction l as [|x rest IH]; simpl; [constructor | now apply insertBy_sorted].
Qed.

(** Insertion passes over elements of a larger key only, so the elements
    of one key keep their order. *)
Lemma insertBy_stable (k : Z) (x : A) (l : list A) :
  filter (fun y => (key y =? k)%Z) (insertBy (descending key) x l) =
  filter (fun y => (key y =? k)%Z) (x :: l).
Proof.
  induction l as [|y rest IH]; [reflexivity|].
  simpl insertBy. unfold descending at 1.
  destruct (Z.leb_spec (key y - key x) 0) as [L|G]; [reflexivity|].
  simpl in *. rewrite IH.
  destruct (Z.eqb_spec (key x) k) as [Ex|Nx]; [|reflexivity].
  destruct (Z.eqb_spec (key y) k) as [Ey|Ny]; [lia | reflexivity].
Qed.

Lemma sortBy_stable (k : Z) (l : list A) :
  filter (fun y => (key y =? k)%Z) (sortBy (descending key) l) =
  filter (fun y => (key y =? k)%Z) l.
Proof.
  induction l as [|x rest IH]; [reflexivity|].
  simpl sortBy. rewrite insertBy_stable. simpl. now rewrite IH.
Qed.

(** The sort of the array is the sort of the typed view when the comparator
    is total on the records. *)
Context (F : A -> value) (cmp : value -> value -> completion Z)
  (c : A -> A -> Z).

Hypothesis cmp_total : forall a b, cmp (F a) (F b) = Normal (c a b).

Lemma insert_typed (x : A) (l : list A) :
  insert cmp (F x) (map F l) = Normal (map F (insertBy c x l)).
Proof.
  induction l as [|y rest IH]; simpl; [reflexivity|].
  rewrite cmp_total. destruct (c x y <=? 0)%Z; [reflexivity|].
  now rewrite IH.
Qed.

Lemma Array_sort_typed (l : list A) :
  Array_sort cmp (map F l) = Normal (map F (sortBy c l)).
Proof.
  induction l as [|x rest IH]; simpl; [reflexivity|].
  rewrite IH. simpl. apply insert_typed.
Qed.

End Sorting.

Lemma byPriority_typed (a b : TodoItem.t) :
  byPriority (ofTodo a) (ofTodo b) =
  Normal (descending (fun t => rank (TodoItem.priority t)) a b).
Proof.
  unfold byPriority, descending. simpl.
  destruct (TodoItem.priority a), (TodoItem.priority b); reflexivity.
Qed.

Lemma rank_eqb (p q : Priority) :
  (rank p =? rank q)%Z = Priority_eqb p q.
Proof. destruct p, q; reflexivity. Qed.

(** C9.  In a well-formed state [sortTodosByPriority] returns and assigns
    [todos] only: a permutation of the todos it had, in which no todo comes
    before one of a higher rank (high = 3, medium = 2, low = 1), and in
    which the todos of each priority are in the order they had. *)
Theorem sortTodosByPriority_spec (st : DemoComponent) (us : list User.t)
  (ts : list TodoItem.t) :
  wellFormed st us ts ->
  exists ts' : list TodoItem.t,
    sortTodosByPriority st = (Normal tt, set_todos (map ofTodo ts') st) /\
    Permutation ts ts' /\
    StronglySorted
      (fun a b => (rank (TodoItem.priority b) <= rank (TodoItem.priority a))%Z) ts' /\
    forall p,
      filter (fun t => Priority_eqb (TodoItem.priority t) p) ts' =
      filter (fun t => Priority_eqb (TodoItem.priority t) p) ts.
Proof.
  intros [_ Et].
  exists (sortBy (descending (fun t => rank (TodoItem.priority t))) ts).
  split; [|split; [|split]].
  - unfold sortTodosByPriority, bind, read, lift, write. rewrite Et.
    now rewrite (Array_sort_typed ofTodo byPriority _ byPriority_typed).
  - apply sortBy_perm.
  - apply (sortBy_sorted (fun t => rank (TodoItem.priority t))).
  - intros p.
    rewrite !(filter_ext (fun t => Priority_eqb (TodoItem.priority t) p)
                (fun t => (rank (TodoItem.priority t) =? rank p)%Z))
      by (intros t; symmetry; apply rank_eqb).
    apply (sortBy_stable (fun t => rank (TodoItem.priority t))).
Qed.

(* ===================================================================== *)
(** ** importData and exportData *)
(* ===================================================================== *)

Lemma try_catch_no_throw (body : M unit) (msg : string) (st : DemoComponent) e :
  fst (try_catch body (write (set_errorMessage msg)) st) <> Throw e.
Proof.
  unfold try_catch. destruct (body st) as [[[]|e'|] st1]; simpl; discriminate.
Qed.

(** C2, as the code has it.  [importData] never throws; and when the text
    is not JSON it returns having assigned [errorMessage] the import
    message and nothing else, so [users], [todos] and [theme] are as they
    were. *)
Theorem importData_malformed (jsonData : string) (st : DemoComponent) :
  (forall e, fst (importData jsonData st) <> Throw e) /\
  (JSON_parse jsonData = None ->
   importData jsonData st =
     (Normal tt, set_errorMessage "Invalid JSON data for import" st) /\
   users (snd (importData jsonData st)) = users st /\
   todos (snd (importData jsonData st)) = todos st /\
   theme (snd (importData jsonData st)) = theme st).
Proof.
  split.
  - intros e. apply try_catch_no_throw.
  - intros E.
    assert (R : importData jsonData st =
                (Normal tt, set_errorMessage "Invalid JSON data for import" st)).
    { unfold importData, try_catch, bind at 1, lift at 1, parse. now rewrite E. }
    rewrite R. repeat split.
Qed.

Lemma toJSON_users (us : list User.t) :
  map (fun x => match x with VUndefined => VNull | _ => toJSON x end)
      (map ofUser us) = map ofUser us.
Proof. rewrite map_map. apply map_ext. intros u. reflexivity. Qed.

Lemma toJSON_todos (ts : list TodoItem.t) :
  map (fun x => match x with VUndefined => VNull | _ => toJSON x end)
      (map ofTodo ts) = map ofTodoJSON ts.
Proof. rewrite map_map. apply map_ext. intros t. reflexivity. Qed.

Lemma importTodo_typed (t : TodoItem.t) :
  Date_parse (Date_toISOString (TodoItem.createdAt t)) = Some (TodoItem.createdAt t) ->
  importTodo (ofTodoJSON t) = Normal (ofTodo t).
Proof.
  intros E. unfold importTodo, ofTodoJSON, ofTodo, todoLiteral. simpl.
  now rewrite E.
Qed.

Lemma Array_map_importTodo (ts : list TodoItem.t) :
  Forall (fun t => Date_parse (Date_toISOString (TodoItem.createdAt t)) =
                   Some (TodoItem.createdAt t)) ts ->
  Array_map importTodo (map ofTodoJSON ts) = Normal (map ofTodo ts).
Proof.
  induction 1 as [|t rest Et _ IH]; [reflexivity|].
  cbn [map Array_map]. rewrite (importTodo_typed _ Et), IH. reflexivity.
Qed.

(** C7.  For a well-formed state, on a platform whose [JSON.parse] reads
    back what [JSON.stringify] wrote of the exported object and whose
    [Date.parse] reads back the ISO strings of the todos' dates,
    [importData] of the text [exportData] returned, in any state of the
    component, returns with [users], [todos] (dates included) and [theme]
    equal to those exported. *)
Theorem export_import_roundtrip (st st0 : DemoComponent) (us : list User.t)
  (ts : list TodoItem.t) (now : Z) :
  wellFormed st us ts ->
  theme st = VStr "light" \/ theme st = VStr "dark" ->
  JSON_parse (JSON_stringify (exportPayload now st)) =
    Some (toJSON (exportPayload now st)) ->
  Forall (fun t => Date_parse (Date_toISOString (TodoItem.createdAt t)) =
                   Some (TodoItem.createdAt t)) ts ->
  exists text,
    exportData now st = (Normal text, st) /\
    fst (importData text st0) = Normal tt /\
    users (snd (importData text st0)) = users st /\
    todos (snd (importData text st0)) = todos st /\
    theme (snd (importData text st0)) = theme st /\
    errorMessage (snd (importData text st0)) = "".
Proof.
  intros [Eu Et] Th Law Dates.
  exists (JSON_stringify (exportPayload now st)).
  split; [reflexivity|].
  assert (Data : toJSON (exportPayload now st) =
                 VObj [("users", VArr (map ofUser us));
                       ("todos", VArr (map ofTodoJSON ts));
                       ("theme", theme st);
                       ("exportDate", VStr (Date_toISOString now))]).
  { unfold exportPayload. rewrite Eu, Et.
    cbn [toJSON]. rewrite toJSON_users, toJSON_todos.
    destruct Th as [-> | ->]; reflexivity. }
  set (st1 := set_users (map ofUser us) st0).
  set (st2 := set_todos (map ofTodo ts) st1).
  set (st3 := set_theme (theme st) st2).
  assert (W : wellFormed st3 us ts) by (split; reflexivity).
  assert (R : importData (JSON_stringify (exportPayload now st)) st0 =
              (Normal tt,
               set_errorMessage ""
                 (set_statistics (recompute (users st3) (todos st3)) st3))).
  { unfold importData, try_catch, parse.
    unfold bind at 1, lift at 1. rewrite Law, Data.
    unfold bind at 1, lift at 1. cbn [get lookup String.eqb Ascii.eqb Bool.eqb].
    unfold bind at 1. cbn [truthy isArray andb elements write]. fold st1.
    unfold bind at 1, lift at 1. cbn [get lookup String.eqb Ascii.eqb Bool.eqb].
    unfold bind at 1. cbn [truthy isArray andb elements].
    unfold bind at 1, lift at 1. rewrite (Array_map_importTodo _ Dates).
    unfold write at 1. fold st2.
    unfold bind at 1, lift at 1. cbn [get lookup String.eqb Ascii.eqb Bool.eqb].
    unfold bind at 1.
    assert (T : truthy (theme st) = true) by (destruct Th as [-> | ->]; reflexivity).
    rewrite T. unfold write at 1. fold st3.
    unfold bind at 1. rewrite (updateStatistics_wellFormed _ _ _ W).
    reflexivity. }
  rewrite R. simpl. rewrite Eu, Et. repeat split.
Qed.

(* ===================================================================== *)
(** ** errorMessage *)
(* ===================================================================== *)



Lemma addTodo_cases (now : Z) (st : DemoComponent) :
  addTodo now st =
  (if isEmpty (trim (newTodoTitle st)) then
     write (set_errorMessage "Todo title is required")
   else
     id <- getNextTodoId ;;
     priority <- read selectedPriority ;;
     ts <- read todos ;;
     write (set_todos
              (ts ++ [todoLiteral id (trim (newTodoTitle st)) false
                        (priorityName priority) (VDate (Some now))])) ;;
     write (set_newTodoTitle "") ;;
     updateStatistics ;;
     write (set_errorMessage "")) st.
Proof.
  unfold addTodo, bind at 1, read at 1.
  destruct (isEmpty (trim (newTodoTitle st))); reflexivity.
Qed.





(* ===================================================================== *)
(** ** Array methods on arrays of records *)
(* ===================================================================== *)

Section TypedArrays.

Context {A : Type} (F : A -> value).

Lemma Array_map_typed {B : Type} (f : value -> completion B) (g : A -> B)
  (l : list A) :
  (forall a, f (F a) = Normal (g a)) ->
  Array_map f (map F l) = Normal (map g l).
Proof.
  intros Hf. induction l as [|a rest IH]; simpl; [reflexivity|].
  now rewrite Hf, IH.
Qed.

Lemma Array_filter_typed (f : value -> completion value) (h : A -> bool)
  (l : list A) :
  (forall a, exists v, f (F a) = Normal v /\ truthy v = h a) ->
  Array_filter f (map F l) = Normal (map F (filter h l)).
Proof.
  intros Hf. induction l as [|a rest IH]; simpl; [reflexivity|].
  destruct (Hf a) as (v & -> & <-). rewrite IH. simpl.
  destruct (truthy v); reflexivity.
Qed.

Lemma Array_set_at_typed (p : string) (v : value) (g : A -> A) (l : list A)
  (i : nat) :
  (forall a, set (F a) p v = Normal (F (g a))) ->
  Array_set_at i p v (map F l) = Normal (map F (updateAt i g l)).
Proof.
  intros Hs. revert i. induction l as [|a rest IH]; intros [|i]; simpl;
    try reflexivity.
  - now rewrite Hs.
  - now rewrite IH.
Qed.

Lemma Array_forEach_set_typed (p : string) (v : value) (g : A -> A)
  (l : list A) :
  (forall a, set (F a) p v = Normal (F (g a))) ->
  Array_forEach_set p v (map F l) = (Normal tt, map F (map g l)).
Proof.
  intros Hs. induction l as [|a rest IH]; simpl; [reflexivity|].
  now rewrite Hs, IH.
Qed.

Lemma nth_typed (l : list A) (i : nat) (a : A) :
  nth_error l i = Some a -> nth i (map F l) VUndefined = F a.
Proof.
  revert i. induction l as [|x rest IH]; intros [|i]; simpl; try discriminate.
  - now intros [= ->].
  - apply IH.
Qed.

End TypedArrays.

Section KeyedUpdates.

Context {A : Type} (key : A -> Z).

Lemma findIndex_nth (k : Z) (l : list A) (i : nat) :
  findIndex (hasKey key k) l = Some i -> exists a, nth_error l i = Some a.
Proof.
  intros E. apply findIndex_Some in E as [_ L].
  destruct (nth_error l i) eqn:N; [eauto|].
  apply nth_error_None in N. lia.
Qed.

Lemma updateAt_keys (g : A -> A) (l : list A) (i : nat) :
  (forall a, key (g a) = key a) -> map key (updateAt i g l) = map key l.
Proof.
  intros Hg. revert i. induction l as [|a rest IH]; intros [|i]; simpl;
    try reflexivity.
  - now rewrite Hg.
  - now rewrite IH.
Qed.

Lemma map_keys (g : A -> A) (l : list A) :
  (forall a, key (g a) = key a) -> map key (map g l) = map key l.
Proof. intros Hg. rewrite map_map. now apply map_ext. Qed.

Lemma NoDup_splice1 (l : list A) (i : nat) :
  NoDup (map key l) -> NoDup (map key (Array_splice1 i l)).
Proof.
  revert i. induction l as [|a rest IH]; intros i D; simpl; [constructor|].
  inversion D as [|? ? Na Dr]; subst. destruct i; [exact Dr|].
  simpl. constructor; [|now apply IH].
  intros I. apply Na. clear -I. revert i I.
  induction rest as [|b rest IH]; intros i I; simpl in *; [destruct i; contradiction|].
  destruct i; simpl in I; [auto|]. destruct I as [E|I]; [auto|eauto].
Qed.

End KeyedUpdates.

Lemma fold_max_init (l : list Z) :
  forall x, (x <= fold_left Z.max l x)%Z.
Proof.
  induction l as [|z rest IH]; simpl; intros x; [lia|].
  specialize (IH (Z.max x z)). lia.
Qed.

Lemma fold_max_elem (l : list Z) :
  forall x y, In y l -> (y <= fold_left Z.max l x)%Z.
Proof.
  induction l as [|z rest IH]; simpl; intros x y I; [contradiction|].
  destruct I as [E|I]; [|now apply IH].
  subst z. pose proof (fold_max_init rest (Z.max x y)). lia.
Qed.

Lemma Math_max_upper (x : Z) (l : list Z) :
  forall y, In y (x :: l) -> (y <= Math_max (x :: l))%Z.
Proof.
  intros y [E|I]; simpl.
  - subst y. apply fold_max_init.
  - now apply fold_max_elem.
Qed.

(* ===================================================================== *)
(** ** The operations on a well-formed state *)
(* ===================================================================== *)

Lemma set_isActive_user (b : bool) (u : User.t) :
  set (ofUser u) "isActive" (VBool b) = Normal (ofUser (withActive b u)).
Proof. reflexivity. Qed.

Lemma set_completed_todo (b : bool) (t : TodoItem.t) :
  set (ofTodo t) "completed" (VBool b) = Normal (ofTodo (withCompleted b t)).
Proof. reflexivity. Qed.

Lemma set_priority_todo (p : Priority) (t : TodoItem.t) :
  set (ofTodo t) "priority" (VStr (priorityName p)) = Normal (ofTodo (withPriority p t)).
Proof. reflexivity. Qed.

Lemma reaches_updateStatistics st us ts :
  wellFormed st us ts -> reaches updateStatistics st us ts.
Proof.
  intros W. eexists. split; [now apply (updateStatistics_wellFormed _ us ts)|].
  exact W.
Qed.

Lemma reaches_bind (m : M unit) (k : M unit) st us1 ts1 us2 ts2 :
  reaches m st us1 ts1 ->
  (forall st1, wellFormed st1 us1 ts1 -> reaches k st1 us2 ts2) ->
  reaches (m ;; k) st us2 ts2.
Proof.
  intros (st1 & E1 & W1) Hk. destruct (Hk st1 W1) as (st2 & E2 & W2).
  exists st2. split; [|exact W2]. unfold bind. now rewrite E1.
Qed.

Lemma reaches_write (g : DemoComponent -> DemoComponent) st us ts :
  wellFormed (g st) us ts -> reaches (write g) st us ts.
Proof. intros W. exists (g st). split; [reflexivity | exact W]. Qed.

Lemma fold_max_In (l : list Z) :
  forall x, In (fold_left Z.max l x) (x :: l).
Proof.
  induction l as [|z rest IH]; simpl; intros x; [now left|].
  destruct (IH (Z.max x z)) as [E|I]; [|now right; right].
  destruct (Z.max_spec x z) as [[_ M]|[_ M]]; rewrite M in *; auto.
Qed.

Lemma Math_max_In (x : Z) (l : list Z) : In (Math_max (x :: l)) (x :: l).
Proof. apply fold_max_In. Qed.

(** With ids that are safe integers [nextId] is one more than the
    largest, hence above each of them. *)
Lemma nextId_exact (ids : list Z) :
  Forall isSafeInteger ids ->
  nextId ids = match ids with [] => 1%Z | _ => (Math_max ids + 1)%Z end.
Proof.
  intros F. destruct ids as [|x rest]; [reflexivity|].
  unfold nextId. apply Number_add_one.
  destruct (proj1 (Forall_forall _ _) F _ (Math_max_In x rest)) as [L U].
  lia.
Qed.

Lemma nextId_fresh (ids : list Z) :
  Forall isSafeInteger ids -> forall y, In y ids -> (y < nextId ids)%Z.
Proof.
  intros F y I. rewrite (nextId_exact _ F).
  destruct ids as [|x rest]; [contradiction|].
  pose proof (Math_max_upper x rest y I). lia.
Qed.

Lemma nextId_within (ids : list Z) (hi : Z) :
  (0 <= hi < 2 ^ 53)%Z ->
  Forall (fun n => (- 2 ^ 53 < n <= hi)%Z) ids ->
  (- 2 ^ 53 < nextId ids <= hi + 1)%Z /\
  forall y, In y ids -> (y < nextId ids)%Z.
Proof.
  intros B F.
  assert (S : Forall isSafeInteger ids).
  { apply (Forall_impl _ (P := fun n => (- 2 ^ 53 < n <= hi)%Z)); [|exact F].
    intros n [L U]. unfold isSafeInteger. lia. }
  split; [|now apply nextId_fresh].
  rewrite (nextId_exact _ S). destruct ids as [|x rest]; [lia|].
  destruct (proj1 (Forall_forall _ _) F _ (Math_max_In x rest)) as [L U]. lia.
Qed.

(** *** The arguments of a call *)

Lemma spreadArguments_within {A : Type} (l : list A) :
  spreadable l -> spreadArguments l = Normal l.
Proof.
  unfold spreadable, spreadArguments. intros S.
  destruct (Z.leb_spec (Z.of_nat (List.length l)) argumentsLimit); [reflexivity | lia].
Qed.

Lemma spreadArguments_beyond {A : Type} (l : list A) :
  ~ spreadable l -> spreadArguments l = Throw RangeError.
Proof.
  unfold spreadable, spreadArguments. intros S.
  destruct (Z.leb_spec (Z.of_nat (List.length l)) argumentsLimit); [contradiction | reflexivity].
Qed.

Lemma spreadable_map {A B : Type} (f : A -> B) (l : list A) :
  spreadable (map f l) <-> spreadable l.
Proof. unfold spreadable. now rewrite length_map. Qed.

Lemma spreadable_dec {A : Type} (l : list A) : spreadable l \/ ~ spreadable l.
Proof. unfold spreadable. lia. Qed.

(** *** The next id *)

(** In a well-formed state the next id is [nextId] of the ids in use,
    unless the collection is too long to be spread. *)
Lemma getNextUserId_value st us ts :
  wellFormed st us ts -> us = [] \/ spreadable us ->
  getNextUserId st = (Normal (nextId (map User.id us)), st).
Proof.
  intros [Eu _] S. unfold getNextUserId, bind at 1, read at 1. rewrite Eu.
  destruct us as [|u rest]; [reflexivity|].
  destruct S as [S|S]; [discriminate|].
  cbn [map]. unfold bind at 1, lift at 1.
  change (ofUser u :: map ofUser rest) with (map ofUser (u :: rest)).
  rewrite (Array_map_typed ofUser _ (fun u => VNum (User.id u)))
    by reflexivity.
  unfold bind at 1, lift at 1.
  rewrite spreadArguments_within by now apply spreadable_map.
  unfold bind at 1, lift at 1.
  rewrite <- (map_map User.id VNum).
  rewrite (Array_map_typed VNum _ (fun n => n)) by reflexivity.
  rewrite map_id. reflexivity.
Qed.

Lemma getNextUserId_beyond st us ts :
  wellFormed st us ts -> ~ spreadable us ->
  getNextUserId st =
    (match us with [] => Normal 1%Z | _ => Throw RangeError end, st).
Proof.
  intros [Eu _] S. unfold getNextUserId, bind at 1, read at 1. rewrite Eu.
  destruct us as [|u rest]; [reflexivity|].
  cbn [map]. unfold bind at 1, lift at 1.
  change (ofUser u :: map ofUser rest) with (map ofUser (u :: rest)).
  rewrite (Array_map_typed ofUser _ (fun u => VNum (User.id u)))
    by reflexivity.
  unfold bind at 1, lift at 1.
  rewrite spreadArguments_beyond; [reflexivity|].
  intros C. apply S. now apply spreadable_map in C.
Qed.

Lemma getNextTodoId_value st us ts :
  wellFormed st us ts -> ts = [] \/ spreadable ts ->
  getNextTodoId st = (Normal (nextId (map TodoItem.id ts)), st).
Proof.
  intros [_ Et] S. unfold getNextTodoId, bind at 1, read at 1. rewrite Et.
  destruct ts as [|t rest]; [reflexivity|].
  destruct S as [S|S]; [discriminate|].
  cbn [map]. unfold bind at 1, lift at 1.
  change (ofTodo t :: map ofTodo rest) with (map ofTodo (t :: rest)).
  rewrite (Array_map_typed ofTodo _ (fun t => VNum (TodoItem.id t)))
    by reflexivity.
  unfold bind at 1, lift at 1.
  rewrite spreadArguments_within by now apply spreadable_map.
  unfold bind at 1, lift at 1.
  rewrite <- (map_map TodoItem.id VNum).
  rewrite (Array_map_typed VNum _ (fun n => n)) by reflexivity.
  rewrite map_id. reflexivity.
Qed.

Lemma getNextTodoId_beyond st us ts :
  wellFormed st us ts -> ~ spreadable ts ->
  getNextTodoId st =
    (match ts with [] => Normal 1%Z | _ => Throw RangeError end, st).
Proof.
  intros [_ Et] S. unfold getNextTodoId, bind at 1, read at 1. rewrite Et.
  destruct ts as [|t rest]; [reflexivity|].
  cbn [map]. unfold bind at 1, lift at 1.
  change (ofTodo t :: map ofTodo rest) with (map ofTodo (t :: rest)).
  rewrite (Array_map_typed ofTodo _ (fun t => VNum (TodoItem.id t)))
    by reflexivity.
  unfold bind at 1, lift at 1.
  rewrite spreadArguments_beyond; [reflexivity|].
  intros C. apply S. now apply spreadable_map in C.
Qed.


Lemma wellFormed_statistics st us ts s :
  wellFormed st us ts -> wellFormed (set_statistics s st) us ts.
Proof. intros [Eu Et]. split; assumption. Qed.

(** A method that ends with [updateStatistics] after assigning arrays of
    records. *)
Lemma finish_updateStatistics st us ts :
  wellFormed st us ts ->
  exists st', updateStatistics st = (Normal tt, st') /\ wellFormed st' us ts.
Proof.
  intros W. eexists. split; [apply (updateStatistics_wellFormed _ us ts W)|].
  now apply wellFormed_statistics.
Qed.

(** *** Users *)

(** [addUser] on a name that is not blank and an address that
    [isValidEmail] accepts, when the users can be spread. *)
Lemma addUser_wellFormed st us ts (name email : string) :
  wellFormed st us ts -> trim name <> "" -> isValidEmail email = true ->
  us = [] \/ spreadable us ->
  addUser name email st =
    (Normal tt,
     set_showUserForm false
       (set_errorMessage ""
          (set_statistics
             (recompute (map ofUser (us ++ [newUser us name email])) (todos st))
             (set_users (map ofUser (us ++ [newUser us name email])) st)))).
Proof.
  intros W Nn V S. pose proof W as [Eu Et]. unfold addUser.
  apply isEmpty_false in Nn. rewrite Nn.
  assert (Ne : isEmpty (trim email) = false).
  { apply isValidEmail_shape in V. rewrite (emailShape_trim _ V).
    apply isEmpty_false.
    destruct V as (a & b & c & -> & [Na _] & _).
    destruct a; [congruence | discriminate]. }
  rewrite Ne, V. cbn [orb negb].
  unfold bind at 1. rewrite (getNextUserId_value _ _ _ W S). step. step.
  change (userLiteral (nextId (map User.id us)) (trim name) (trim email) true)
    with (ofUser (newUser us name email)).
  rewrite Eu.
  change (map ofUser us ++ [ofUser (newUser us name email)])
    with (map ofUser us ++ map ofUser [newUser us name email]).
  rewrite <- map_app.
  unfold bind at 1.
  rewrite (updateStatistics_wellFormed _ (us ++ [newUser us name email]) ts)
    by (split; [reflexivity | exact Et]).
  reflexivity.
Qed.

(** With more users than a call takes arguments, [Math.max(...)] fails and
    [addUser] has assigned nothing. *)
Lemma addUser_beyond st us ts (name email : string) :
  wellFormed st us ts -> trim name <> "" -> isValidEmail email = true ->
  us <> [] -> ~ spreadable us ->
  addUser name email st = (Throw RangeError, st).
Proof.
  intros W Nn V Nu S. unfold addUser.
  apply isEmpty_false in Nn. rewrite Nn.
  assert (Ne : isEmpty (trim email) = false).
  { apply isValidEmail_shape in V. rewrite (emailShape_trim _ V).
    apply isEmpty_false.
    destruct V as (a & b & c & -> & [Na _] & _).
    destruct a; [congruence | discriminate]. }
  rewrite Ne, V. cbn [orb negb].
  unfold bind at 1. rewrite (getNextUserId_beyond _ _ _ W S).
  destruct us; [congruence | reflexivity].
Qed.

Lemma NoDup_snoc (l : list Z) (x : Z) :
  NoDup l -> (forall y, In y l -> (y < x)%Z) -> NoDup (l ++ [x]).
Proof.
  intros D B. apply NoDup_app; [exact D | repeat constructor; intros [] |].
  intros y Iy [E|[]]. specialize (B y Iy). lia.
Qed.

(** [addUser] in a well-formed state: it rejects, appends, or fails for
    lack of stack. *)
Lemma step_addUser st us ts (name email : string) :
  wellFormed st us ts ->
  exists us', reachesOrFails (addUser name email) st us' ts /\
              (us' = us \/ us' = us ++ [newUser us name email]).
Proof.
  intros W.
  destruct (isEmpty (trim name) || isEmpty (trim email)) eqn:E1;
    [|destruct (isValidEmail email) eqn:E2].
  - exists us. split; [|now left]. left. unfold addUser. rewrite E1.
    apply reaches_write. exact W.
  - apply orb_false_iff in E1 as [E1 _]. apply isEmpty_false in E1.
    destruct us as [|u rest] eqn:Eus.
    + exists [newUser [] name email]. split; [|now right]. left.
      eexists. split; [apply (addUser_wellFormed _ [] ts _ _ W E1 E2); now left|].
      split; [reflexivity | exact (proj2 W)].
    + rewrite <- Eus in *.
      destruct (spreadable_dec us) as [S|S].
      * exists (us ++ [newUser us name email]). split; [|now right]. left.
        eexists.
        split; [apply (addUser_wellFormed _ us ts _ _ W E1 E2); now right|].
        split; [reflexivity | exact (proj2 W)].
      * exists us. split; [|now left]. right. split; [|exact W].
        apply (addUser_beyond _ us ts _ _ W E1 E2); [|exact S].
        rewrite Eus. discriminate.
  - exists us. split; [|now left]. left. unfold addUser. rewrite E1, E2.
    apply reaches_write. exact W.
Qed.

Lemma step_deleteUser st us ts (userId : Z) :
  wellFormed st us ts ->
  exists us', reaches (deleteUser userId) st us' ts /\
              (us' = us \/ exists i, us' = Array_splice1 i us).
Proof.
  intros W. unfold reaches. rewrite (deleteUser_wellFormed _ _ _ _ W).
  destruct (findIndex (hasKey User.id userId) us) as [i|].
  - exists (Array_splice1 i us). split; [|right; now exists i].
    eexists. split; [reflexivity|]. split; [reflexivity | exact (proj2 W)].
  - exists us. split; [|now left]. eexists. split; [reflexivity | exact W].
Qed.

(** A method that ends with [updateStatistics]. *)
Ltac finish us' ts' :=
  match goal with
  | |- context [updateStatistics ?s] =>
      let st' := fresh "st'" in
      let E' := fresh "E'" in
      let W' := fresh "W'" in
      destruct (finish_updateStatistics s us' ts') as (st' & E' & W');
      [ split; cbn [users todos set_users set_todos set_newTodoTitle];
        first [ reflexivity | assumption | idtac ]
      | exists st'; split; [exact E' | exact W'] ]
  end.

Lemma step_toggleUserStatus st us ts (userId : Z) :
  wellFormed st us ts ->
  exists us', reaches (toggleUserStatus userId) st us' ts /\
              map User.id us' = map User.id us.
Proof.
  intros W. pose proof W as [Eu Et]. unfold toggleUserStatus, reaches.
  step. rewrite Eu. step. rewrite Array_findIndex_users.
  destruct (findIndex (hasKey User.id userId) us) as [i|] eqn:Fi.
  - destruct (findIndex_nth _ _ _ _ Fi) as [u Nu].
    rewrite (nth_typed ofUser _ _ _ Nu).
    change (truthy (ofUser u)) with true. cbv iota.
    step. change (get (ofUser u) "isActive") with (Normal (VBool (User.isActive u))).
    cbv iota. step. rewrite (Array_set_at_typed ofUser _ _ _ _ _ (set_isActive_user _)).
    cbv iota. step.
    exists (updateAt i (withActive (negb (truthy (VBool (User.isActive u))))) us).
    split; [|now apply updateAt_keys]. finish
      (updateAt i (withActive (negb (truthy (VBool (User.isActive u))))) us) ts.
  - exists us. split; [exists st; split; [reflexivity | exact W] | reflexivity].
Qed.

Lemma step_activateAll st us ts (b : bool) :
  wellFormed st us ts ->
  reaches (if b then activateAllUsers else deactivateAllUsers) st
    (map (withActive b) us) ts.
Proof.
  intros W. pose proof W as [Eu Et]. unfold reaches.
  destruct b; unfold activateAllUsers, deactivateAllUsers; step; rewrite Eu;
    rewrite (Array_forEach_set_typed ofUser _ _ _ _ (set_isActive_user _));
    cbv iota; step; step;
    [finish (map (withActive true) us) ts | finish (map (withActive false) us) ts].
Qed.

Lemma compareBy_name (a b : User.t) :
  compareBy "name" (ofUser a) (ofUser b) =
  Normal (localeCompare (User.name a) (User.name b)).
Proof. reflexivity. Qed.

Lemma compareBy_email (a b : User.t) :
  compareBy "email" (ofUser a) (ofUser b) =
  Normal (localeCompare (User.email a) (User.email b)).
Proof. reflexivity. Qed.

Lemma step_sortUsers st us ts (byName : bool) :
  wellFormed st us ts ->
  exists us', reaches (if byName then sortUsersByName else sortUsersByEmail) st us' ts /\
              Permutation us us'.
Proof.
  intros W. pose proof W as [Eu Et]. unfold reaches.
  destruct byName; unfold sortUsersByName, sortUsersByEmail.
  - eexists. split; [|apply (sortBy_perm (fun a b => localeCompare (User.name a) (User.name b)))].
    step. rewrite Eu. step.
    rewrite (Array_sort_typed ofUser _ _ compareBy_name). cbv iota.
    eexists. split; [reflexivity|]. split; [reflexivity | exact Et].
  - eexists. split; [|apply (sortBy_perm (fun a b => localeCompare (User.email a) (User.email b)))].
    step. rewrite Eu. step.
    rewrite (Array_sort_typed ofUser _ _ compareBy_email). cbv iota.
    eexists. split; [reflexivity|]. split; [reflexivity | exact Et].
Qed.

(** *** Todos *)

(** [addTodo] with a title that is not blank, when the todos can be
    spread. *)
Lemma addTodo_wellFormed st us ts (now : Z) :
  wellFormed st us ts -> trim (newTodoTitle st) <> "" ->
  ts = [] \/ spreadable ts ->
  addTodo now st =
    (Normal tt,
     set_errorMessage ""
       (set_statistics
          (recompute (users st)
             (map ofTodo
                (ts ++ [newTodo ts (newTodoTitle st) (selectedPriority st) now])))
          (set_newTodoTitle ""
             (set_todos
                (map ofTodo
                   (ts ++ [newTodo ts (newTodoTitle st) (selectedPriority st) now]))
                st)))).
Proof.
  intros W Nt S. pose proof W as [Eu Et]. rewrite addTodo_cases.
  apply isEmpty_false in Nt. rewrite Nt.
  unfold bind at 1. rewrite (getNextTodoId_value _ _ _ W S). step. step. step. step.
  change (todoLiteral (nextId (map TodoItem.id ts)) (trim (newTodoTitle st)) false
            (priorityName (selectedPriority st)) (VDate (Some now)))
    with (ofTodo (newTodo ts (newTodoTitle st) (selectedPriority st) now)).
  rewrite Et.
  change (map ofTodo ts ++
          [ofTodo (newTodo ts (newTodoTitle st) (selectedPriority st) now)])
    with (map ofTodo ts ++
          map ofTodo [newTodo ts (newTodoTitle st) (selectedPriority st) now]).
  rewrite <- map_app.
  unfold bind at 1.
  rewrite (updateStatistics_wellFormed _ us
             (ts ++ [newTodo ts (newTodoTitle st) (selectedPriority st) now]))
    by (split; [exact Eu | reflexivity]).
  reflexivity.
Qed.

(** With more todos than a call takes arguments, [Math.max(...)] fails and
    [addTodo] has assigned nothing. *)
Lemma addTodo_beyond st us ts (now : Z) :
  wellFormed st us ts -> trim (newTodoTitle st) <> "" ->
  ts <> [] -> ~ spreadable ts ->
  addTodo now st = (Throw RangeError, st).
Proof.
  intros W Nt Ne S. rewrite addTodo_cases.
  apply isEmpty_false in Nt. rewrite Nt.
  unfold bind at 1. rewrite (getNextTodoId_beyond _ _ _ W S).
  destruct ts; [congruence | reflexivity].
Qed.

Lemma step_addTodo st us ts (now : Z) :
  wellFormed st us ts -> exists ts', reachesOrFails (addTodo now) st us ts'.
Proof.
  intros W.
  destruct (isEmpty (trim (newTodoTitle st))) eqn:E.
  - exists ts. left. exists (set_errorMessage "Todo title is required" st).
    split; [rewrite addTodo_cases; now rewrite E | exact W].
  - apply isEmpty_false in E.
    destruct ts as [|t rest] eqn:Ets.
    + eexists. left. eexists.
      split; [apply (addTodo_wellFormed _ us [] now W E); now left|].
      split; [exact (proj1 W) | reflexivity].
    + rewrite <- Ets in *. destruct (spreadable_dec ts) as [S|S].
      * eexists. left. eexists.
        split; [apply (addTodo_wellFormed _ us ts now W E); now right|].
        split; [exact (proj1 W) | reflexivity].
      * exists ts. right. split; [|exact W].
        apply (addTodo_beyond _ us ts now W E); [|exact S].
        rewrite Ets. discriminate.
Qed.

Lemma step_toggleTodo st us ts (todoId : Z) :
  wellFormed st us ts -> exists ts', reaches (toggleTodo todoId) st us ts'.
Proof.
  intros W. pose proof W as [Eu Et]. unfold toggleTodo, reaches.
  step. rewrite Et. step. rewrite Array_findIndex_todos.
  destruct (findIndex (hasKey TodoItem.id todoId) ts) as [i|] eqn:Fi.
  - destruct (findIndex_nth _ _ _ _ Fi) as [t Nt].
    rewrite (nth_typed ofTodo _ _ _ Nt).
    change (truthy (ofTodo t)) with true. cbv iota.
    step. change (get (ofTodo t) "completed") with (Normal (VBool (TodoItem.completed t))).
    cbv iota. step. rewrite (Array_set_at_typed ofTodo _ _ _ _ _ (set_completed_todo _)).
    cbv iota. step. eexists.
    finish us (updateAt i (withCompleted (negb (truthy (VBool (TodoItem.completed t))))) ts).
  - exists ts. exists st. split; [reflexivity | exact W].
Qed.

Lemma step_updateTodoPriority st us ts (todoId : Z) (p : Priority) :
  wellFormed st us ts -> exists ts', reaches (updateTodoPriority todoId p) st us ts'.
Proof.
  intros W. pose proof W as [Eu Et]. unfold updateTodoPriority, reaches.
  step. rewrite Et. step. rewrite Array_findIndex_todos.
  destruct (findIndex (hasKey TodoItem.id todoId) ts) as [i|] eqn:Fi.
  - destruct (findIndex_nth _ _ _ _ Fi) as [t Nt].
    rewrite (nth_typed ofTodo _ _ _ Nt).
    change (truthy (ofTodo t)) with true. cbv iota.
    step. rewrite (Array_set_at_typed ofTodo _ _ _ _ _ (set_priority_todo _)).
    cbv iota. step. eexists. finish us (updateAt i (withPriority p) ts).
  - exists ts. exists st. split; [reflexivity | exact W].
Qed.

Lemma step_deleteTodo st us ts (todoId : Z) :
  wellFormed st us ts -> exists ts', reaches (deleteTodo todoId) st us ts'.
Proof.
  intros W. pose proof W as [Eu Et]. unfold deleteTodo, reaches.
  step. rewrite Et. step. rewrite Array_findIndex_todos.
  destruct (findIndex (hasKey TodoItem.id todoId) ts) as [i|].
  - cbv iota. step. rewrite Array_splice1_map. eexists.
    finish us (Array_splice1 i ts).
  - exists ts. exists st. split; [reflexivity | exact W].
Qed.

Lemma step_clearCompletedTodos st us ts :
  wellFormed st us ts ->
  reaches clearCompletedTodos st us
    (filter (fun t => negb (TodoItem.completed t)) ts).
Proof.
  intros W. pose proof W as [Eu Et]. unfold clearCompletedTodos, reaches.
  step. rewrite Et. step.
  rewrite (Array_filter_typed ofTodo _ (fun t => negb (TodoItem.completed t))).
  2:{ intros t. eexists. split; [reflexivity|]. simpl. reflexivity. }
  cbv iota. step. finish us (filter (fun t => negb (TodoItem.completed t)) ts).
Qed.

Lemma step_markAll st us ts (b : bool) :
  wellFormed st us ts ->
  reaches (if b then markAllTodosComplete else markAllTodosIncomplete) st us
    (map (withCompleted b) ts).
Proof.
  intros W. pose proof W as [Eu Et]. unfold reaches.
  destruct b; unfold markAllTodosComplete, markAllTodosIncomplete; step; rewrite Et;
    rewrite (Array_forEach_set_typed ofTodo _ _ _ _ (set_completed_todo _));
    cbv iota; step; step;
    [finish us (map (withCompleted true) ts) | finish us (map (withCompleted false) ts)].
Qed.

Lemma byDate_typed (a b : TodoItem.t) :
  byDate (ofTodo a) (ofTodo b) =
  Normal (nearestDouble (descending TodoItem.createdAt a b)).
Proof. reflexivity. Qed.

(** The difference of two time values is rounded, which keeps its sign:
    the sort is the sort by the exact difference. *)
Lemma sortBy_date (ts : list TodoItem.t) :
  sortBy (fun a b => nearestDouble (descending TodoItem.createdAt a b)) ts =
  sortBy (descending TodoItem.createdAt) ts.
Proof. apply sortBy_sign. intros a b. apply nearestDouble_sign. Qed.

Lemma step_sortTodos st us ts (byRank : bool) :
  wellFormed st us ts ->
  exists ts', reaches (if byRank then sortTodosByPriority else sortTodosByDate) st us ts'.
Proof.
  intros W. pose proof W as [Eu Et]. unfold reaches.
  destruct byRank; unfold sortTodosByPriority, sortTodosByDate.
  - eexists. step. rewrite Et. step.
    rewrite (Array_sort_typed ofTodo _ _ byPriority_typed). cbv iota.
    eexists. split; [reflexivity|]. split; [exact Eu | reflexivity].
  - eexists. step. rewrite Et. step.
    rewrite (Array_sort_typed ofTodo _ _ byDate_typed). cbv iota.
    eexists. split; [reflexivity|]. split; [exact Eu | reflexivity].
Qed.

(** *** Seed data, resets and the operations that assign no array *)

Lemma step_loadInitialUsers st us ts :
  wellFormed st us ts -> reaches loadInitialUsers st seedUsers ts.
Proof.
  intros [Eu Et]. unfold loadInitialUsers, reaches. step.
  finish seedUsers ts.
Qed.

Lemma step_loadInitialTodos st us ts :
  seedDatesValid -> wellFormed st us ts ->
  exists ts', reaches loadInitialTodos st us ts'.
Proof.
  intros V [Eu Et]. unfold seedDatesValid, seedDates in V.
  repeat match goal with
         | V : Forall _ (_ :: _) |- _ =>
             let N := fresh "N" in
             apply Forall_cons_iff in V as [N V]
         end.
  destruct (Date_parse "2024-01-01") as [t1|] eqn:E1; [|congruence].
  destruct (Date_parse "2024-01-02") as [t2|] eqn:E2; [|congruence].
  destruct (Date_parse "2024-01-03") as [t3|] eqn:E3; [|congruence].
  destruct (Date_parse "2024-01-04") as [t4|] eqn:E4; [|congruence].
  destruct (Date_parse "2024-01-05") as [t5|] eqn:E5; [|congruence].
  exists [ {| TodoItem.id := 1; TodoItem.title := "Complete project setup";
              TodoItem.completed := true; TodoItem.priority := High;
              TodoItem.createdAt := t1 |};
           {| TodoItem.id := 2; TodoItem.title := "Write unit tests";
              TodoItem.completed := false; TodoItem.priority := High;
              TodoItem.createdAt := t2 |};
           {| TodoItem.id := 3; TodoItem.title := "Update documentation";
              TodoItem.completed := false; TodoItem.priority := Medium;
              TodoItem.createdAt := t3 |};
           {| TodoItem.id := 4; TodoItem.title := "Code review";
              TodoItem.completed := false; TodoItem.priority := Low;
              TodoItem.createdAt := t4 |};
           {| TodoItem.id := 5; TodoItem.title := "Deploy to staging";
              TodoItem.completed := true; TodoItem.priority := Medium;
              TodoItem.createdAt := t5 |} ].
  unfold loadInitialTodos, reaches, new_Date.
  rewrite E1, E2, E3, E4, E5. do 6 step.
  match goal with |- context [updateStatistics ?s] =>
    destruct (finish_updateStatistics s us
      [ {| TodoItem.id := 1; TodoItem.title := "Complete project setup";
           TodoItem.completed := true; TodoItem.priority := High;
           TodoItem.createdAt := t1 |};
        {| TodoItem.id := 2; TodoItem.title := "Write unit tests";
           TodoItem.completed := false; TodoItem.priority := High;
           TodoItem.createdAt := t2 |};
        {| TodoItem.id := 3; TodoItem.title := "Update documentation";
           TodoItem.completed := false; TodoItem.priority := Medium;
           TodoItem.createdAt := t3 |};
        {| TodoItem.id := 4; TodoItem.title := "Code review";
           TodoItem.completed := false; TodoItem.priority := Low;
           TodoItem.createdAt := t4 |};
        {| TodoItem.id := 5; TodoItem.title := "Deploy to staging";
           TodoItem.completed := true; TodoItem.priority := Medium;
           TodoItem.createdAt := t5 |} ]) as (st' & E' & W');
    [split; [exact Eu | reflexivity] | exists st'; split; [exact E' | exact W']]
  end.
Qed.

Lemma NoDup_seedUsers : NoDup (map User.id seedUsers).
Proof.
  simpl. repeat constructor; simpl; intros C;
    repeat (destruct C as [C|C]; [discriminate|]); exact C.
Qed.

Lemma step_loadTheme st us ts :
  wellFormed st us ts -> reaches loadTheme st us ts.
Proof.
  intros W. unfold loadTheme, reaches. step.
  destruct (getItem "demo-theme" (localStorage st)) as [saved|];
    [destruct (String.eqb saved "dark" || String.eqb saved "light")|];
    eexists; (split; [reflexivity | exact W]).
Qed.

Lemma step_ngOnInit st us ts :
  seedDatesValid -> wellFormed st us ts ->
  exists ts', reaches ngOnInit st seedUsers ts'.
Proof.
  intros V W. unfold ngOnInit, initializeData.
  destruct (step_loadTheme _ _ _ W) as (s1 & E1 & W1).
  destruct (finish_updateStatistics _ _ _ W1) as (s2 & E2 & W2).
  destruct (step_loadInitialUsers _ _ _ W2) as (s3 & E3 & W3).
  destruct (step_loadInitialTodos _ _ _ V W3) as (ts' & s4 & E4 & W4).
  exists ts', s4. split; [|exact W4].
  unfold bind. now rewrite E1, E2, E3, E4.
Qed.

Lemma step_resetToDefaults st us ts :
  seedDatesValid -> wellFormed st us ts ->
  exists ts', reaches resetToDefaults st seedUsers ts'.
Proof.
  intros V W. unfold resetToDefaults.
  destruct (step_loadInitialUsers _ _ _ W) as (s1 & E1 & W1).
  destruct (step_loadInitialTodos _ _ _ V W1) as (ts' & s2 & E2 & W2).
  exists ts'. unfold reaches, bind at 1. rewrite E1.
  unfold bind at 1. rewrite E2. eexists. split; [reflexivity|]. exact W2.
Qed.

Lemma step_resetAllData st : reaches resetAllData st [] [].
Proof. eexists. split; [reflexivity|]. split; reflexivity. Qed.

Lemma reaches_try_catch (body handler : M unit) st us ts :
  reaches body st us ts -> reaches (try_catch body handler) st us ts.
Proof.
  intros (st' & E & W). exists st'. split; [|exact W].
  unfold try_catch. now rewrite E.
Qed.

(** [importData] on a checked payload, in a well-formed state: the users
    stay, or they are the records of the payload. *)
Lemma step_importData st us ts (jsonData : string) :
  checkedImport jsonData -> wellFormed st us ts ->
  exists us' ts',
    reaches (importData jsonData) st us' ts' /\
    (us' = us \/
     exists data, JSON_parse jsonData = Some data /\
                  field "users" data = VArr (map ofUser us') /\
                  NoDup (map User.id us')).
Proof.
  intros C W. unfold checkedImport in C. unfold importData.
  destruct (JSON_parse jsonData) as [data|] eqn:P.
  2:{ exists us, ts. split; [|now left]. eexists. split.
      - unfold try_catch. rewrite bind_lift. unfold parse. rewrite P. reflexivity.
      - destruct W; split; assumption. }
  destruct C as [Cu Ct].
  destruct (isNullish data) eqn:N.
  { exists us, ts. split; [|now left]. eexists. split.
    - unfold try_catch. rewrite bind_lift. unfold parse. rewrite P. cbv iota.
      rewrite bind_lift, (get_nullish _ _ N). reflexivity.
    - destruct W; split; assumption. }
  assert (Hu : exists us1,
             (us1 = us \/
              field "users" data = VArr (map ofUser us1) /\
              NoDup (map User.id us1)) /\
             forall st0, wellFormed st0 us ts ->
               reaches (if truthy (field "users" data) && isArray (field "users" data)
                        then write (set_users (elements (field "users" data)))
                        else ret tt) st0 us1 ts).
  { destruct (truthy (field "users" data) && isArray (field "users" data)) eqn:Bu.
    - destruct (Cu Bu) as (us1 & E1 & D1). exists us1. split; [right; now split|].
      rewrite E1. intros st0 [_ Et0]. apply reaches_write.
      split; [reflexivity | exact Et0].
    - exists us. split; [now left|]. intros st0 W0. now exists st0. }
  destruct Hu as (us1 & D1 & Ru).
  assert (Ht : exists ts1,
             forall st0, wellFormed st0 us1 ts ->
               reaches (if truthy (field "todos" data) && isArray (field "todos" data)
                        then ts' <- lift (Array_map importTodo
                                            (elements (field "todos" data))) ;;
                             write (set_todos ts')
                        else ret tt) st0 us1 ts1).
  { destruct (truthy (field "todos" data) && isArray (field "todos" data)) eqn:Bt.
    - destruct (Ct Bt) as (ts1 & E1). exists ts1.
      intros st0 [Eu0 _]. unfold reaches. rewrite bind_lift, E1.
      eexists. split; [reflexivity|]. split; [exact Eu0 | reflexivity].
    - exists ts. intros st0 W0. now exists st0. }
  destruct Ht as (ts1 & Rt).
  exists us1, ts1.
  split; [|destruct D1 as [D1|[E1 D1]]; [now left | right; now exists data]].
  apply reaches_try_catch. unfold reaches.
  rewrite bind_lift. unfold parse. rewrite P. cbv iota.
  rewrite bind_lift, (get_field _ _ N). cbv iota.
  destruct (Ru st W) as (st1 & E1 & W1). unfold bind at 1. rewrite E1.
  rewrite bind_lift, (get_field _ _ N). cbv iota.
  destruct (Rt st1 W1) as (st2 & E2 & W2). unfold bind at 1. rewrite E2.
  rewrite bind_lift, (get_field _ _ N). cbv iota.
  assert (R3 : reaches (if truthy (field "theme" data)
                        then write (set_theme (field "theme" data)) else ret tt)
                 st2 us1 ts1).
  { destruct (truthy (field "theme" data)); [apply reaches_write|exists st2; split; auto].
    destruct W2; split; assumption. }
  destruct R3 as (st3 & E3 & W3). unfold bind at 1. rewrite E3.
  destruct (finish_updateStatistics _ _ _ W3) as (st4 & E4 & W4).
  unfold bind at 1. rewrite E4.
  eexists. split; [reflexivity|]. destruct W4; split; assumption.
Qed.

Ltac same_run :=
  cbv beta iota zeta delta
    [toggleTheme exportToConsole exportData tick selectUser ngOnDestroy
     bind read write ret lift];
  reflexivity.

(** *** Ids along a run *)

Lemma idsWithin_le (hi hi' : Z) (ids : list Z) :
  (hi <= hi')%Z -> idsWithin hi ids -> idsWithin hi' ids.
Proof.
  intros L. apply Forall_impl. intros n [A B]. lia.
Qed.

Lemma idsWithin_seedUsers (hi : Z) :
  (5 <= hi)%Z -> idsWithin hi (map User.id seedUsers).
Proof. intros L. repeat constructor; simpl; lia. Qed.

Lemma idsWithin_splice1 (hi : Z) (i : nat) (us : list User.t) :
  idsWithin hi (map User.id us) ->
  idsWithin hi (map User.id (Array_splice1 i us)).
Proof.
  unfold idsWithin. revert i. induction us as [|u rest IH]; intros i F;
    simpl; [constructor|].
  inversion F as [|? ? Fu Fr]; subst. destruct i; [exact Fr|].
  simpl. constructor; [exact Fu | now apply IH].
Qed.

Lemma idsWithin_typed (hi : Z) (us : list User.t) :
  Forall (idWithin hi) (map ofUser us) -> idsWithin hi (map User.id us).
Proof.
  unfold idsWithin. induction us as [|u rest IH]; simpl; intros F; [constructor|].
  inversion F as [|? ? (n & E & B) Fr]; subst.
  constructor; [|now apply IH]. simpl in E. now injection E as ->.
Qed.

Lemma adds_cons (o : operation) (rest : list operation) :
  adds (o :: rest) = (adds [o] + adds rest)%Z.
Proof. destruct o; cbn [adds]; lia. Qed.

Lemma adds_nonneg (ops : list operation) : (0 <= adds ops)%Z.
Proof.
  induction ops as [|o rest IH]; [simpl; lia|].
  destruct o; cbn [adds]; lia.
Qed.

(** One operation, an import being a checked one, from a well-formed
    state: it returns in a well-formed state, or it fails for lack of stack
    and nothing is assigned.  Distinct ids stay distinct as long as they
    stay below 2^53, where [getNextUserId] adds 1 exactly. *)
Lemma step_invariant (o : operation) st us ts :
  seedDatesValid -> checked o -> wellFormed st us ts ->
  exists us' ts',
    reachesOrFails (exec o) st us' ts' /\
    forall bound hi,
      importWithin bound o -> (5 <= bound <= hi)%Z ->
      (hi + adds [o] < 2 ^ 53)%Z ->
      NoDup (map User.id us) -> idsWithin hi (map User.id us) ->
      NoDup (map User.id us') /\ idsWithin (hi + adds [o]) (map User.id us').
Proof.
  intros V I W.
  assert (Kept : forall bound hi : Z,
            (5 <= bound <= hi)%Z -> (0 <= adds [o])%Z ->
            NoDup (map User.id us) -> idsWithin hi (map User.id us) ->
            NoDup (map User.id us) /\ idsWithin (hi + adds [o]) (map User.id us)).
  { intros bound hi B A D F. split; [exact D|].
    apply (idsWithin_le hi); [lia | exact F]. }
  assert (Same : forall (m : M unit) st',
            m st = (Normal tt, st') ->
            users st' = users st -> todos st' = todos st ->
            exists us' ts',
              reachesOrFails m st us' ts' /\
              forall bound hi,
                importWithin bound o -> (5 <= bound <= hi)%Z ->
                (hi + adds [o] < 2 ^ 53)%Z ->
                NoDup (map User.id us) -> idsWithin hi (map User.id us) ->
                NoDup (map User.id us') /\
                idsWithin (hi + adds [o]) (map User.id us')).
  { intros m st' E Gu Gt. exists us, ts. split.
    - left. exists st'. split; [exact E|]. destruct W as [Eu Et]. split; congruence.
    - intros bound hi _ B _. apply (Kept bound hi B). apply (adds_nonneg [o]). }
  assert (Todos : forall ts',
            reachesOrFails (exec o) st us ts' ->
            exists us' ts'',
              reachesOrFails (exec o) st us' ts'' /\
              forall bound hi,
                importWithin bound o -> (5 <= bound <= hi)%Z ->
                (hi + adds [o] < 2 ^ 53)%Z ->
                NoDup (map User.id us) -> idsWithin hi (map User.id us) ->
                NoDup (map User.id us') /\
                idsWithin (hi + adds [o]) (map User.id us')).
  { intros ts' R. exists us, ts'. split; [exact R|].
    intros bound hi _ B _. apply (Kept bound hi B). apply (adds_nonneg [o]). }
  destruct o; cbn [exec checked] in *.
  - (* ngOnInit *)
    destruct (step_ngOnInit _ _ _ V W) as (ts' & R).
    exists seedUsers, ts'. split; [now left|].
    intros bound hi _ B _ _ _. split; [apply NoDup_seedUsers|].
    apply idsWithin_seedUsers. simpl. lia.
  - (* ngOnDestroy *) eapply Same; [same_run | reflexivity | reflexivity].
  - (* tick *) eapply Same; [same_run | reflexivity | reflexivity].
  - (* addUser *)
    destruct (step_addUser _ _ _ name email W) as (us' & R & [->| ->]).
    + exists us, ts. split; [exact R|].
      intros bound hi _ B _. apply (Kept bound hi B). simpl. lia.
    + eexists _, ts. split; [exact R|].
      intros bound hi _ B A D F. cbn [adds] in *.
      destruct (nextId_within (map User.id us) hi) as [Bn Fn]; [lia | exact F|].
      rewrite map_app. cbn [map newUser User.id]. split.
      * now apply NoDup_snoc.
      * apply Forall_app. split.
        -- apply (idsWithin_le hi); [lia | exact F].
        -- repeat constructor; lia.
  - (* deleteUser *)
    destruct (step_deleteUser _ _ _ userId W) as (us' & R & [->|[i ->]]).
    + exists us, ts. split; [now left|].
      intros bound hi _ B _. apply (Kept bound hi B). simpl. lia.
    + eexists _, ts. split; [left; exact R|].
      intros bound hi _ B _ D F. split; [now apply NoDup_splice1|].
      apply idsWithin_splice1. apply (idsWithin_le hi); [simpl; lia | exact F].
  - (* toggleUserStatus *)
    destruct (step_toggleUserStatus _ _ _ userId W) as (us' & R & K).
    exists us', ts. split; [now left|]. rewrite K.
    intros bound hi _ B _. apply (Kept bound hi B). simpl. lia.
  - (* selectUser *) eapply Same; [same_run | reflexivity | reflexivity].
  - (* addTodo *)
    destruct (step_addTodo _ _ _ now W) as (ts' & R). now apply (Todos ts').
  - (* toggleTodo *)
    destruct (step_toggleTodo _ _ _ todoId W) as (ts' & R).
    apply (Todos ts'). now left.
  - (* deleteTodo *)
    destruct (step_deleteTodo _ _ _ todoId W) as (ts' & R).
    apply (Todos ts'). now left.
  - (* updateTodoPriority *)
    destruct (step_updateTodoPriority _ _ _ todoId priority W) as (ts' & R).
    apply (Todos ts'). now left.
  - (* clearCompletedTodos *)
    eapply Todos. left. apply (step_clearCompletedTodos _ _ _ W).
  - (* toggleTheme *) eapply Same; [same_run | reflexivity | reflexivity].
  - (* exportToConsole *) eapply Same; [same_run | reflexivity | reflexivity].
  - (* importData *)
    destruct (step_importData _ us ts jsonData I W) as (us' & ts' & R & Pu).
    exists us', ts'. split; [now left|].
    intros bound hi Ib B _ D F. rewrite Z.add_0_r.
    destruct Pu as [->|(data & P & E & D')]; [now split|].
    split; [exact D'|]. unfold importWithin in Ib. rewrite P, E in Ib.
    apply (idsWithin_le bound); [lia|]. now apply idsWithin_typed.
  - (* markAllTodosComplete *)
    eapply Todos. left. apply (step_markAll _ _ _ true W).
  - (* markAllTodosIncomplete *)
    eapply Todos. left. apply (step_markAll _ _ _ false W).
  - (* activateAllUsers *)
    eexists _, ts. split; [left; apply (step_activateAll _ _ _ true W)|].
    rewrite (map_keys User.id) by reflexivity.
    intros bound hi _ B _. apply (Kept bound hi B). simpl. lia.
  - (* deactivateAllUsers *)
    eexists _, ts. split; [left; apply (step_activateAll _ _ _ false W)|].
    rewrite (map_keys User.id) by reflexivity.
    intros bound hi _ B _. apply (Kept bound hi B). simpl. lia.
  - (* sortUsersByName *)
    destruct (step_sortUsers _ _ _ true W) as (us' & R & P).
    exists us', ts. split; [now left|].
    intros bound hi _ B _ D F. rewrite Z.add_0_r. split.
    + eapply Permutation_NoDup; [apply Permutation_map; exact P | exact D].
    + eapply Permutation_Forall; [apply Permutation_map; exact P | exact F].
  - (* sortUsersByEmail *)
    destruct (step_sortUsers _ _ _ false W) as (us' & R & P).
    exists us', ts. split; [now left|].
    intros bound hi _ B _ D F. rewrite Z.add_0_r. split.
    + eapply Permutation_NoDup; [apply Permutation_map; exact P | exact D].
    + eapply Permutation_Forall; [apply Permutation_map; exact P | exact F].
  - (* sortTodosByPriority *)
    destruct (step_sortTodos _ _ _ true W) as (ts' & R).
    apply (Todos ts'). now left.
  - (* sortTodosByDate *)
    destruct (step_sortTodos _ _ _ false W) as (ts' & R).
    apply (Todos ts'). now left.
  - (* resetAllData *)
    exists [], []. split; [left; apply step_resetAllData|].
    intros bound hi _ _ _ _ _. split; constructor.
  - (* resetToDefaults *)
    destruct (step_resetToDefaults _ _ _ V W) as (ts' & R).
    exists seedUsers, ts'. split; [now left|].
    intros bound hi _ B _ _ _. split; [apply NoDup_seedUsers|].
    apply idsWithin_seedUsers. simpl. lia.
  - eapply Same; [same_run | reflexivity | reflexivity].
  - eapply Same; [same_run | reflexivity | reflexivity].
  - eapply Same; [same_run | reflexivity | reflexivity].
  - eapply Same; [same_run | reflexivity | reflexivity].
  - eapply Same; [same_run | reflexivity | reflexivity].
Qed.

(** An operation that returns or fails for lack of stack ends in a state
    from which the run goes on. *)
Lemma reachesOrFails_run (o : operation) (rest : list operation) st us ts :
  reachesOrFails (exec o) st us ts ->
  exists st1, run (o :: rest) st = run rest st1 /\ wellFormed st1 us ts /\
              (exec o st = (Normal tt, st1) \/ st1 = st).
Proof.
  intros [(st1 & E & W)|[E W]].
  - exists st1. split; [simpl; now rewrite E|]. split; [exact W | now left].
  - exists st. split; [simpl; now rewrite E|]. split; [exact W | now right].
Qed.

Lemma uniqueIds_typed st us ts :
  wellFormed st us ts -> NoDup (map User.id us) -> uniqueIds st.
Proof.
  intros [Eu _] D. unfold uniqueIds. rewrite Eu, map_map.
  rewrite (map_ext _ (fun u => Normal (VNum (User.id u)))) by reflexivity.
  rewrite <- (map_map User.id (fun n => Normal (VNum n))).
  apply NoDup_map_NoDup_ForallPairs; [|exact D].
  intros x y _ _ E. now injection E.
Qed.

Lemma run_invariant (ops : list operation) : forall st us ts bound hi,
  seedDatesValid -> Forall checked ops -> Forall (importWithin bound) ops ->
  (5 <= bound <= hi)%Z -> (hi + adds ops < 2 ^ 53)%Z ->
  wellFormed st us ts -> NoDup (map User.id us) ->
  idsWithin hi (map User.id us) ->
  exists st' us' ts',
    run ops st = Some st' /\ wellFormed st' us' ts' /\ NoDup (map User.id us').
Proof.
  induction ops as [|o rest IH]; intros st us ts bound hi V F G B A W D K.
  - exists st, us, ts. auto.
  - inversion F as [|? ? Io Fr]; subst. inversion G as [|? ? Go Gr]; subst.
    rewrite adds_cons in A.
    pose proof (adds_nonneg [o]) as N0. pose proof (adds_nonneg rest) as N1.
    destruct (step_invariant o _ _ _ V Io W) as (us1 & ts1 & R & Inv).
    destruct (Inv bound hi Go B) as [D1 K1]; [lia | exact D | exact K|].
    destruct (reachesOrFails_run o rest _ _ _ R) as (st1 & E1 & W1 & _).
    destruct (IH st1 us1 ts1 bound (hi + adds [o])%Z V Fr Gr) as
      (st' & us' & ts' & R' & W' & D'); [lia | lia | exact W1 | exact D1 | exact K1|].
    exists st', us', ts'. split; [|auto]. now rewrite E1.
Qed.

(** C1, as the code has it.  [importData] checks nothing, and an id is one
    more than the largest only as long as that is a number.  When every
    text imported is not JSON at all, or JSON whose [users], if an array,
    are [User] records as the component writes them, with distinct ids
    above -2^53 and at most [bound], and whose [todos], if an array, are
    records with dates, and when [bound], at least 5 for the seed, and the
    calls of [addUser] together stay below 2^53, then on a platform that
    reads the seed dates as dates every sequence of operations from the
    initial state stays within the model and ends in a well-formed state in
    which no two users have the same id, whether each operation returned
    or failed for lack of stack. *)
Theorem uniqueIds_checked_imports (ops : list operation) (now : Z)
  (storage : Storage) (bound : Z) :
  seedDatesValid -> Forall checked ops -> Forall (importWithin bound) ops ->
  (5 <= bound)%Z -> (bound + adds ops < 2 ^ 53)%Z ->
  exists st,
    run ops (initial now storage) = Some st /\ uniqueIds st /\
    exists us ts, wellFormed st us ts /\ NoDup (map User.id us).
Proof.
  intros V F G B A.
  destruct (run_invariant ops (initial now storage) [] [] bound bound V F G)
    as (st & us & ts & R & W & D);
    [lia | exact A | split; reflexivity | constructor | constructor|].
  exists st. split; [exact R|]. split; [now apply (uniqueIds_typed _ us ts)|].
  exists us, ts. auto.
Qed.

(* ===================================================================== *)
(** ** isValidEmail: what an accepted address never has *)
(* ===================================================================== *)

Lemma occurrences_append (c : ascii) (s1 s2 : string) :
  occurrences c (s1 ++ s2) = occurrences c s1 + occurrences c s2.
Proof.
  unfold occurrences. rewrite list_ascii_of_append. apply count_occ_app.
Qed.

Lemma segment_no_at (s : string) : segment s -> occurrences "@" s = 0.
Proof.
  intros [_ F]. unfold occurrences. apply count_occ_not_In.
  intros I. rewrite Forall_forall in F. specialize (F _ I).
  unfold notSpaceAt in F. apply andb_true_iff in F as [_ F].
  now rewrite Ascii.eqb_refl in F.
Qed.

Lemma segment_length (s : string) : segment s -> 1 <= String.length s.
Proof. intros [N _]. destruct s; [congruence | simpl; lia]. Qed.

Lemma length_append (s1 s2 : string) :
  String.length (s1 ++ s2) = String.length s1 + String.length s2.
Proof. induction s1 as [|c s1 IH]; simpl; [reflexivity | now rewrite IH]. Qed.

Lemma emailShape_no_space (email : string) :
  emailShape email ->
  Forall (fun c => isWhiteSpace c = false) (list_ascii_of_string email).
Proof.
  intros (a & b & c & -> & Ha & Hb & Hc).
  repeat rewrite list_ascii_of_append. simpl.
  apply Forall_app; split; [now apply segment_no_space|].
  constructor; [reflexivity|].
  apply Forall_app; split; [now apply segment_no_space|].
  constructor; [reflexivity | now apply segment_no_space].
Qed.

(** X1.  An address that [isValidEmail] accepts holds no whitespace and
    exactly one [@], and is at least five characters long; so [trim] leaves
    it as it is, and the [email.trim()] that [addUser] stores is the address
    as typed. *)
Theorem isValidEmail_strict (email : string) :
  isValidEmail email = true ->
  Forall (fun c => isWhiteSpace c = false) (list_ascii_of_string email) /\
  occurrences "@" email = 1 /\
  5 <= String.length email /\
  trim email = email.
Proof.
  intros V. apply isValidEmail_shape in V.
  split; [now apply emailShape_no_space|].
  split; [|split; [|now apply emailShape_trim]];
    destruct V as (a & b & c & -> & Ha & Hb & Hc).
  - rewrite !occurrences_append, (segment_no_at _ Ha), (segment_no_at _ Hb),
      (segment_no_at _ Hc). reflexivity.
  - rewrite !length_append. simpl.
    apply segment_length in Ha, Hb, Hc. lia.
Qed.

(* ===================================================================== *)
(** ** Theme and local storage *)
(* ===================================================================== *)

Lemma getItem_setItem (key v : string) (s : Storage) :
  getItem key (setItem key v s) = Some v.
Proof. unfold setItem. simpl. now rewrite String.eqb_refl. Qed.

(** X2.  [toggleTheme] always returns; it makes the theme [dark] when it
    was [light] and [light] when it was anything else, and saves it: a
    component constructed later over the same local storage loads the theme
    that was set.  On a theme that is one of the two, toggling twice gives
    the theme back. *)
Theorem toggleTheme_persists (st : DemoComponent) (now : Z) :
  fst (toggleTheme st) = Normal tt /\
  theme (snd (toggleTheme st)) =
    VStr (if strictEqStr (theme st) "light" then "dark" else "light") /\
  getItem "demo-theme" (localStorage (snd (toggleTheme st))) =
    Some (if strictEqStr (theme st) "light" then "dark" else "light") /\
  theme (snd (loadTheme (initial now (localStorage (snd (toggleTheme st)))))) =
    theme (snd (toggleTheme st)) /\
  (theme st = VStr "light" \/ theme st = VStr "dark" ->
   theme (snd (toggleTheme (snd (toggleTheme st)))) = theme st).
Proof.
  split; [reflexivity|]. split; [reflexivity|].
  split; [apply getItem_setItem|]. split.
  - unfold loadTheme. rewrite bind_read. cbn [localStorage initial].
    unfold toggleTheme. repeat step. cbn [snd write localStorage set_localStorage].
    rewrite getItem_setItem.
    destruct (strictEqStr (theme st) "light"); reflexivity.
  - intros [E|E]; unfold toggleTheme; repeat step; cbn; rewrite E; reflexivity.
Qed.

Lemma preserves_localStorage (o : operation) :
  o <> ToggleTheme -> preserves localStorage (exec o).
Proof.
  destruct o; simpl; intros C; try congruence;
    unfold ngOnInit, initializeData, loadTheme, loadInitialUsers,
      loadInitialTodos, ngOnDestroy, tick, addUser, getNextUserId, deleteUser,
      toggleUserStatus, selectUser, addTodo, getNextTodoId, toggleTodo,
      deleteTodo, updateTodoPriority, clearCompletedTodos, exportToConsole,
      exportData, importData, markAllTodosComplete, markAllTodosIncomplete,
      activateAllUsers, deactivateAllUsers, sortUsersByName, sortUsersByEmail,
      sortTodosByPriority, sortTodosByDate, resetAllData, resetToDefaults;
    frame.
Qed.

Lemma resetToDefaults_theme (st : DemoComponent) :
  fst (resetToDefaults st) = Normal tt ->
  theme (snd (resetToDefaults st)) = VStr "light".
Proof.
  unfold resetToDefaults.
  destruct (loadInitialUsers st) as [[[]|e|] st1] eqn:E1;
    rewrite ?(bind_step _ _ _ _ _ E1);
    try (unfold bind; rewrite E1; simpl; discriminate).
  destruct (loadInitialTodos st1) as [[[]|e|] st2] eqn:E2;
    rewrite ?(bind_step _ _ _ _ _ E2);
    try (unfold bind; rewrite E2; simpl; discriminate).
  reflexivity.
Qed.

(** X3.  [toggleTheme] is the only operation that writes to local storage:
    every other one leaves it as it is, however it completes.  So the theme
    that [resetToDefaults] assigns is not saved: after [toggleTheme] made
    the theme [dark], a [resetToDefaults] that returns has made it [light],
    and a component constructed later over the same storage loads [dark]. *)
Theorem localStorage_only_toggleTheme (o : operation) (st : DemoComponent)
  (now : Z) :
  o <> ToggleTheme ->
  localStorage (snd (exec o st)) = localStorage st /\
  (theme st = VStr "light" ->
   fst (resetToDefaults (snd (toggleTheme st))) = Normal tt ->
   theme (snd (resetToDefaults (snd (toggleTheme st)))) = VStr "light" /\
   theme (snd (loadTheme
                 (initial now
                    (localStorage
                       (snd (resetToDefaults (snd (toggleTheme st)))))))) =
     VStr "dark").
Proof.
  intros N. split; [now apply preserves_localStorage|].
  intros E R.
  assert (L : localStorage (snd (resetToDefaults (snd (toggleTheme st)))) =
              localStorage (snd (toggleTheme st))).
  { apply (preserves_localStorage ResetToDefaults). discriminate. }
  split; [now apply resetToDefaults_theme|].
  rewrite L. unfold loadTheme. rewrite bind_read. cbn [localStorage initial].
  unfold toggleTheme. repeat step. cbn [snd write localStorage set_localStorage].
  rewrite getItem_setItem, E. reflexivity.
Qed.

(* ===================================================================== *)
(** ** The timer *)
(* ===================================================================== *)

Lemma preserves_clock (o : operation) :
  (forall now, o <> Tick now) ->
  preserves counter (exec o) /\ preserves currentTime (exec o).
Proof.
  destruct o; simpl; intros C; try (now exfalso; eapply C); split;
    unfold ngOnInit, initializeData, loadTheme, loadInitialUsers,
      loadInitialTodos, ngOnDestroy, addUser, getNextUserId, deleteUser,
      toggleUserStatus, selectUser, addTodo, getNextTodoId, toggleTodo,
      deleteTodo, updateTodoPriority, clearCompletedTodos, toggleTheme,
      exportToConsole,
      exportData, importData, markAllTodosComplete, markAllTodosIncomplete,
      activateAllUsers, deactivateAllUsers, sortUsersByName, sortUsersByEmail,
      sortTodosByPriority, sortTodosByDate, resetAllData, resetToDefaults;
    frame.
Qed.

Lemma ticks_nonneg (ops : list operation) : (0 <= ticks ops)%Z.
Proof.
  induction ops as [|o rest IH]; [simpl; lia|]. destruct o; cbn [ticks]; lia.
Qed.

(** X4.  [counter] counts the signals of the timer and nothing else, as
    far as a number can.  Over any run, whatever the other operations do
    and however they complete (neither reset touches it), [currentTime] is
    the time of the last tick; a [counter] that starts at -2^53 or above
    and whose ticks take it to 2^53 at most has grown by the number of
    ticks; and a [counter] that has reached 2^53 stays there, since
    [counter++] then rounds back to 2^53. *)
Theorem counter_counts_ticks (ops : list operation) :
  forall st st' : DemoComponent,
    run ops st = Some st' ->
    currentTime st' = lastTick ops (currentTime st) /\
    ((- 2 ^ 53 <= counter st)%Z -> (counter st + ticks ops <= 2 ^ 53)%Z ->
     counter st' = (counter st + ticks ops)%Z) /\
    (counter st = (2 ^ 53)%Z -> counter st' = (2 ^ 53)%Z).
Proof.
  induction ops as [|o rest IH]; intros st st' R; simpl in R.
  - injection R as <-. simpl. split; [reflexivity|]. split; [lia | auto].
  - destruct (exec o st) as [c st1] eqn:E.
    assert (R1 : run rest st1 = Some st') by (destruct c; [exact R | exact R | discriminate]).
    destruct (IH _ _ R1) as (It & Ic & Is). clear IH R R1.
    assert (S1 : st1 = snd (exec o st)) by now rewrite E.
    pose proof (ticks_nonneg rest) as T0.
    destruct o as [| |time| | | | | | | | | | | | | | | | | | | | | | | | | | |];
      try (match type of S1 with
           | _ = snd (exec ?op st) =>
               destruct (preserves_clock op) as [Pc Pt]; [intros ?; discriminate|]
           end;
           specialize (Pc st); specialize (Pt st);
           cbn [ticks lastTick]; rewrite <- S1 in Pc, Pt; rewrite <- Pc, <- Pt;
           split; [exact It | split; [exact Ic | exact Is]]).
    assert (C1 : counter st1 = Number_add (counter st) 1) by (rewrite S1; reflexivity).
    assert (T1 : currentTime st1 = time) by (rewrite S1; reflexivity).
    cbn [ticks lastTick]. rewrite <- T1. split; [exact It|]. split.
    + intros L U. rewrite Number_add_one in C1 by lia.
      rewrite Ic by lia. lia.
    + intros Eq. apply Is. rewrite C1, Eq. apply Number_add_one_stuck.
Qed.

(* ===================================================================== *)
(** ** Users and todos are handled apart *)
(* ===================================================================== *)

Lemma preserves_todos (o : operation) :
  userOperation o = true -> preserves todos (exec o).
Proof.
  destruct o; simpl; intros C; try discriminate;
    unfold addUser, getNextUserId, deleteUser, toggleUserStatus, selectUser,
      activateAllUsers, deactivateAllUsers, sortUsersByName, sortUsersByEmail;
    frame.
Qed.

Lemma preserves_users (o : operation) :
  todoOperation o = true ->
  preserves users (exec o) /\ preserves selectedUser (exec o).
Proof.
  destruct o; simpl; intros C; try discriminate; split;
    unfold addTodo, getNextTodoId, toggleTodo, deleteTodo, updateTodoPriority,
      clearCompletedTodos, markAllTodosComplete, markAllTodosIncomplete,
      sortTodosByPriority, sortTodosByDate;
    frame.
Qed.

(** X5.  No operation on users assigns [todos], and no operation on todos
    assigns [users] or the selection, in any state (records or not) and
    however the operation completes. *)
Theorem users_todos_apart (o : operation) (st : DemoComponent) :
  (userOperation o = true -> todos (snd (exec o st)) = todos st) /\
  (todoOperation o = true ->
   users (snd (exec o st)) = users st /\
   selectedUser (snd (exec o st)) = selectedUser st).
Proof.
  split.
  - intros C. now apply preserves_todos.
  - intros C. destruct (preserves_users o C) as [Pu Ps]. split; [apply Pu | apply Ps].
Qed.

(* ===================================================================== *)
(** ** The statistics are kept in step *)
(* ===================================================================== *)

(** When [updateStatistics] returns, it has assigned the counts. *)
Lemma updateStatistics_returns (st st' : DemoComponent) (a : unit) :
  updateStatistics st = (Normal a, st') ->
  st' = set_statistics (recompute (users st) (todos st)) st.
Proof.
  intros E.
  destruct (Forall_Exists_dec (fun v => isNullish v = false)
              (fun v => bool_dec (isNullish v) false) (users st ++ todos st))
    as [F|X].
  - apply Forall_app in F as [Fu Ft].
    rewrite (updateStatistics_total st Fu Ft) in E. now injection E.
  - rewrite updateStatistics_throws in E; [discriminate|].
    eapply Exists_impl; [|exact X]. intros v N. cbv beta in N. destruct (isNullish v); [reflexivity | now elim N].
Qed.

Lemma settles_updateStatistics : settles updateStatistics.
Proof.
  intros st a st' E. apply updateStatistics_returns in E. subst st'.
  reflexivity.
Qed.

Lemma settles_bind {A B : Type} (m : M A) (k : A -> M B) :
  (forall a, settles (k a)) -> settles (bind m k).
Proof.
  intros Hk st b st' E. apply bind_Normal in E as (a & st1 & _ & E).
  now apply (Hk a st1 b).
Qed.

Lemma settles_then {A B : Type} (m : M A) (k : A -> M B) :
  settles m -> (forall a, keepsSync (k a)) -> settles (bind m k).
Proof.
  intros Hm Hk st b st' E. apply bind_Normal in E as (a & st1 & E1 & E).
  apply (Hk a st1 b); [|exact E]. now apply (Hm st a).
Qed.

Lemma settles_keepsSync {A : Type} (m : M A) : settles m -> keepsSync m.
Proof. intros Hm st a st' _ E. now apply (Hm st a). Qed.

Lemma keepsSync_bind {A B : Type} (m : M A) (k : A -> M B) :
  keepsSync m -> (forall a, keepsSync (k a)) -> keepsSync (bind m k).
Proof.
  intros Hm Hk st b st' S E. apply bind_Normal in E as (a & st1 & E1 & E).
  apply (Hk a st1 b); [|exact E]. now apply (Hm st a).
Qed.

(** A method that assigns none of [users], [todos] and [statistics]. *)
Lemma keepsSync_frame {A : Type} (m : M A) :
  preserves users m -> preserves todos m -> preserves statistics m ->
  keepsSync m.
Proof.
  intros Pu Pt Ps st a st' S E. specialize (Pu st). specialize (Pt st).
  specialize (Ps st). rewrite E in Pu, Pt, Ps. simpl in Pu, Pt, Ps.
  unfold inSync in *. congruence.
Qed.

(** A method body that ends by recomputing the statistics, or recomputes
    them and then assigns other fields only. *)
Ltac settle :=
  cbv zeta;
  first
    [ apply settles_updateStatistics
    | apply settles_then;
      [ solve [settle] | intros ?; solve [apply keepsSync_frame; frame] ]
    | apply settles_bind; intros ?; settle
    | match goal with
      | |- settles (if ?b then _ else _) => destruct b; settle
      | |- settles (match ?x with _ => _ end) => destruct x; settle
      end ].

Ltac keep :=
  cbv zeta;
  first
    [ solve [apply keepsSync_frame; frame]
    | solve [apply settles_keepsSync; settle]
    | apply keepsSync_bind; [keep | intros ?; keep]
    | match goal with
      | |- keepsSync (if ?b then _ else _) => destruct b; keep
      | |- keepsSync (match ?x with _ => _ end) => destruct x; keep
      end ].

(** *** Sorting keeps the counts *)

Lemma insert_perm (cmp : value -> value -> completion Z) (x : value) :
  forall l l', insert cmp x l = Normal l' -> Permutation (x :: l) l'.
Proof.
  induction l as [|y rest IH]; simpl; intros l' E.
  - injection E as <-. reflexivity.
  - destruct (cmp x y) as [c|e|]; try discriminate.
    destruct (c <=? 0)%Z.
    + injection E as <-. reflexivity.
    + destruct (insert cmp x rest) as [rest'| |]; try discriminate.
      simpl in E. injection E as <-.
      rewrite perm_swap. constructor. now apply IH.
Qed.

Lemma Array_sort_perm (cmp : value -> value -> completion Z) :
  forall l l', Array_sort cmp l = Normal l' -> Permutation l l'.
Proof.
  induction l as [|x rest IH]; simpl; intros l' E.
  - injection E as <-. constructor.
  - destruct (Array_sort cmp rest) as [sorted| |]; try discriminate.
    simpl in E. apply insert_perm in E. rewrite <- E. constructor. now apply IH.
Qed.

Lemma filter_length_perm {A : Type} (f : A -> bool) (l l' : list A) :
  Permutation l l' -> List.length (filter f l) = List.length (filter f l').
Proof.
  induction 1 as [|x l l' _ IH|x y l|l l1 l2 _ IH1 _ IH2]; simpl.
  - reflexivity.
  - destruct (f x); simpl; now rewrite IH.
  - destruct (f x), (f y); reflexivity.
  - now rewrite IH1.
Qed.

Lemma recompute_perm (us us' ts ts' : list value) :
  Permutation us us' -> Permutation ts ts' ->
  recompute us ts = recompute us' ts'.
Proof.
  intros Pu Pt. unfold recompute.
  rewrite (Permutation_length Pu), (Permutation_length Pt).
  rewrite (filter_length_perm _ _ _ Pu).
  now rewrite !(filter_length_perm _ _ _ Pt).
Qed.

Lemma keepsSync_sortUsers (cmp : value -> value -> completion Z) :
  keepsSync (us <- read users ;;
             sorted <- lift (Array_sort cmp us) ;;
             write (set_users sorted)).
Proof.
  intros st a st' S E. rewrite bind_read, bind_lift in E.
  destruct (Array_sort cmp (users st)) as [sorted| |] eqn:Es; try discriminate.
  injection E as _ <-. unfold inSync in *. cbn [statistics users todos set_users].
  rewrite S. apply recompute_perm; [now apply (Array_sort_perm cmp) | reflexivity].
Qed.

Lemma keepsSync_sortTodos (cmp : value -> value -> completion Z) :
  keepsSync (ts <- read todos ;;
             sorted <- lift (Array_sort cmp ts) ;;
             write (set_todos sorted)).
Proof.
  intros st a st' S E. rewrite bind_read, bind_lift in E.
  destruct (Array_sort cmp (todos st)) as [sorted| |] eqn:Es; try discriminate.
  injection E as _ <-. unfold inSync in *. cbn [statistics users todos set_todos].
  rewrite S. apply recompute_perm; [reflexivity | now apply (Array_sort_perm cmp)].
Qed.

(** Every operation but [importData] keeps the statistics in step, in any
    state, whenever it returns. *)
Lemma keepsSync_exec (o : operation) :
  (forall jsonData, o <> ImportData jsonData) -> keepsSync (exec o).
Proof.
  destruct o; simpl; intros C; try (now exfalso; eapply C);
    try (match goal with
         | |- keepsSync sortUsersByName => exact (keepsSync_sortUsers _)
         | |- keepsSync sortUsersByEmail => exact (keepsSync_sortUsers _)
         | |- keepsSync sortTodosByPriority => exact (keepsSync_sortTodos _)
         | |- keepsSync sortTodosByDate => exact (keepsSync_sortTodos _)
         end);
    unfold ngOnInit, initializeData, loadTheme, loadInitialUsers,
      loadInitialTodos, ngOnDestroy, tick, addUser, getNextUserId, deleteUser,
      toggleUserStatus, selectUser, addTodo, getNextTodoId, toggleTodo,
      deleteTodo, updateTodoPriority, clearCompletedTodos, toggleTheme,
      exportToConsole, exportData, markAllTodosComplete,
      markAllTodosIncomplete, activateAllUsers, deactivateAllUsers,
      resetAllData, resetToDefaults;
    keep.
Qed.

(** [importData] on a checked payload, in a well-formed state: the body
    runs to its end. *)
Lemma importData_checked st us ts (jsonData : string) (data : value) :
  checkedImport jsonData -> wellFormed st us ts ->
  JSON_parse jsonData = Some data -> isNullish data = false ->
  exists st', importData jsonData st = (Normal tt, st') /\ inSync st' /\
              errorMessage st' = "".
Proof.
  intros C W P N. unfold checkedImport in C. rewrite P in C.
  destruct C as [Cu Ct].
  assert (Hu : exists us1,
             forall st0, wellFormed st0 us ts ->
               reaches (if truthy (field "users" data) && isArray (field "users" data)
                        then write (set_users (elements (field "users" data)))
                        else ret tt) st0 us1 ts).
  { destruct (truthy (field "users" data) && isArray (field "users" data)) eqn:Bu.
    - destruct (Cu Bu) as (us1 & -> & _). exists us1.
      intros st0 [_ Et0]. apply reaches_write. split; [reflexivity | exact Et0].
    - exists us. intros st0 W0. now exists st0. }
  destruct Hu as (us1 & Ru).
  assert (Ht : exists ts1,
             forall st0, wellFormed st0 us1 ts ->
               reaches (if truthy (field "todos" data) && isArray (field "todos" data)
                        then ts' <- lift (Array_map importTodo
                                            (elements (field "todos" data))) ;;
                             write (set_todos ts')
                        else ret tt) st0 us1 ts1).
  { destruct (truthy (field "todos" data) && isArray (field "todos" data)) eqn:Bt.
    - destruct (Ct Bt) as (ts1 & E1). exists ts1.
      intros st0 [Eu0 _]. unfold reaches. rewrite bind_lift, E1.
      eexists. split; [reflexivity|]. split; [exact Eu0 | reflexivity].
    - exists ts. intros st0 W0. now exists st0. }
  destruct Ht as (ts1 & Rt).
  unfold importData, try_catch.
  rewrite bind_lift. unfold parse. rewrite P. cbv iota.
  rewrite bind_lift, (get_field _ _ N). cbv iota.
  destruct (Ru st W) as (st1 & E1 & W1). unfold bind at 1. rewrite E1.
  rewrite bind_lift, (get_field _ _ N). cbv iota.
  destruct (Rt st1 W1) as (st2 & E2 & W2). unfold bind at 1. rewrite E2.
  rewrite bind_lift, (get_field _ _ N). cbv iota.
  assert (R3 : reaches (if truthy (field "theme" data)
                        then write (set_theme (field "theme" data)) else ret tt)
                 st2 us1 ts1).
  { destruct (truthy (field "theme" data)); [apply reaches_write|exists st2; split; auto].
    destruct W2; split; assumption. }
  destruct R3 as (st3 & E3 & W3). unfold bind at 1. rewrite E3.
  unfold bind at 1. rewrite (updateStatistics_wellFormed _ _ _ W3).
  eexists. split; [reflexivity|]. split; reflexivity.
Qed.

Lemma importData_keepsSync st us ts (jsonData : string) :
  checkedImport jsonData -> wellFormed st us ts -> inSync st ->
  inSync (snd (importData jsonData st)).
Proof.
  intros C W S.
  destruct (JSON_parse jsonData) as [data|] eqn:P;
    [destruct (isNullish data) eqn:N|].
  - unfold importData, try_catch. rewrite bind_lift. unfold parse. rewrite P.
    cbv iota. rewrite bind_lift, (get_nullish _ _ N). exact S.
  - destruct (importData_checked _ _ _ _ _ C W P N) as (st' & -> & S' & _).
    exact S'.
  - unfold importData, try_catch. rewrite bind_lift. unfold parse. rewrite P.
    exact S.
Qed.

Lemma filter_length_le {A : Type} (f : A -> bool) (l : list A) :
  List.length (filter f l) <= List.length l.
Proof.
  induction l as [|x rest IH]; simpl; [lia|]. destruct (f x); simpl; lia.
Qed.

Lemma filter_length_split {A : Type} (f : A -> bool) (l : list A) :
  List.length (filter f l) + List.length (filter (fun x => negb (f x)) l) =
  List.length l.
Proof.
  induction l as [|x rest IH]; simpl; [reflexivity|].
  destruct (f x); simpl; lia.
Qed.

Lemma activeCallback_total (v : value) :
  isNullish v = false ->
  (c <~ get v "completed" ;; Normal (VBool (negb (truthy c)))) =
  Normal (VBool (negb (truthy (field "completed" v)))).
Proof. intros E. now rewrite (get_field _ _ E). Qed.

(** The two counting queries on todos none of which is [null] or
    [undefined]. *)
Lemma getCompletedTodosCount_total (st : DemoComponent) :
  Forall (fun v => isNullish v = false) (todos st) ->
  getCompletedTodosCount st =
    (Normal (completedTodos (recompute (users st) (todos st))), st).
Proof.
  intros F. unfold getCompletedTodosCount. rewrite bind_read, bind_lift.
  now rewrite (Array_filter_total _ (field "completed") _ (fun v => get_field v _) F).
Qed.

Lemma getActiveTodosCount_total (st : DemoComponent) :
  Forall (fun v => isNullish v = false) (todos st) ->
  getActiveTodosCount st =
    (Normal (List.length
               (filter (fun t => negb (truthy (field "completed" t))) (todos st))),
     st).
Proof.
  intros F. unfold getActiveTodosCount. rewrite bind_read, bind_lift.
  rewrite (Array_filter_total _ (fun v => VBool (negb (truthy (field "completed" v))))
             _ activeCallback_total F).
  reflexivity.
Qed.

Lemma run_inSync (ops : list operation) : forall st us ts,
  seedDatesValid -> Forall checked ops ->
  wellFormed st us ts -> inSync st ->
  exists st' us' ts',
    run ops st = Some st' /\ wellFormed st' us' ts' /\ inSync st'.
Proof.
  induction ops as [|o rest IH]; intros st us ts V F W S.
  - exists st, us, ts. auto.
  - inversion F as [|? ? Io Fr]; subst.
    destruct (step_invariant o _ _ _ V Io W) as (us1 & ts1 & R & _).
    destruct (reachesOrFails_run o rest _ _ _ R) as (st1 & E1 & W1 & Q).
    assert (S1 : inSync st1).
    { destruct Q as [En| ->]; [|exact S].
      destruct o;
        try (match type of En with
             | exec ?op st = _ =>
                 apply (keepsSync_exec op) with (st := st) (a := tt);
                 [intros ?; discriminate | exact S | exact En]
             end).
      change st1 with (snd (Normal tt, st1)). rewrite <- En.
      now apply (importData_keepsSync _ us ts). }
    destruct (IH st1 us1 ts1 V Fr W1 S1) as (st' & us' & ts' & R' & W' & S').
    exists st', us', ts'. split; [|auto]. now rewrite E1.
Qed.

(** X6.  The statistics are never stale.  On a platform that reads the
    seed dates as dates, after any run from the initial state whose imports
    are checked ones, [statistics] holds the counts of [users] and [todos]
    as they are now (the sorts, which do not recompute them, keep them
    right); so no count exceeds its total, and the counting queries agree
    with the statistics: [getCompletedTodosCount()] returns
    [statistics.completedTodos], and it and [getActiveTodosCount()] add up
    to [statistics.totalTodos]. *)
Theorem statistics_in_step (ops : list operation) (now : Z)
  (storage : Storage) :
  seedDatesValid -> Forall checked ops ->
  exists st,
    run ops (initial now storage) = Some st /\
    statistics st = recompute (users st) (todos st) /\
    activeUsers (statistics st) <= totalUsers (statistics st) /\
    completedTodos (statistics st) <= totalTodos (statistics st) /\
    highPriorityTodos (statistics st) <= totalTodos (statistics st) /\
    exists active,
      getCompletedTodosCount st = (Normal (completedTodos (statistics st)), st) /\
      getActiveTodosCount st = (Normal active, st) /\
      completedTodos (statistics st) + active = totalTodos (statistics st).
Proof.
  intros V F.
  destruct (run_inSync ops (initial now storage) [] [] V F)
    as (st & us & ts & R & W & S);
    [split; reflexivity | reflexivity |].
  exists st. split; [exact R|]. split; [exact S|].
  unfold inSync in S. rewrite S. cbn [recompute activeUsers totalUsers
    completedTodos totalTodos highPriorityTodos].
  repeat (split; [apply filter_length_le|]).
  assert (Ft : Forall (fun v => isNullish v = false) (todos st)).
  { destruct W as [_ ->]. apply Forall_todos. }
  eexists. split; [now apply getCompletedTodosCount_total|].
  split; [now apply getActiveTodosCount_total|].
  apply filter_length_split.
Qed.

(* ===================================================================== *)
(** ** The first element with an id *)
(* ===================================================================== *)

Section FirstMatch.

Context {A : Type} (p : A -> bool).

Lemma updateAt_first (g : A -> A) (l : list A) (i : nat) :
  findIndex p l = Some i -> updateAt i g l = updateFirst p g l.
Proof.
  revert i. induction l as [|x rest IH]; simpl; intros i E; [discriminate|].
  destruct (p x); [injection E as <-; reflexivity|].
  destruct (findIndex p rest) as [j|]; simpl in E; [|discriminate].
  injection E as <-. simpl. now rewrite (IH j).
Qed.

Lemma updateFirst_absent (g : A -> A) (l : list A) :
  findIndex p l = None -> updateFirst p g l = l.
Proof.
  induction l as [|x rest IH]; simpl; intros E; [reflexivity|].
  destruct (p x); [discriminate|].
  destruct (findIndex p rest); [discriminate|]. now rewrite IH.
Qed.

Lemma splice1_first (l : list A) (i : nat) :
  findIndex p l = Some i -> Array_splice1 i l = removeFirst p l.
Proof.
  revert i. induction l as [|x rest IH]; simpl; intros i E; [discriminate|].
  destruct (p x); [injection E as <-; reflexivity|].
  destruct (findIndex p rest) as [j|]; simpl in E; [|discriminate].
  injection E as <-. simpl. now rewrite (IH j).
Qed.

Lemma removeFirst_absent (l : list A) :
  findIndex p l = None -> removeFirst p l = l.
Proof.
  induction l as [|x rest IH]; simpl; intros E; [reflexivity|].
  destruct (p x); [discriminate|].
  destruct (findIndex p rest); [discriminate|]. now rewrite IH.
Qed.

Lemma findIndex_updateFirst (g : A -> A) (l : list A) :
  (forall x, p (g x) = p x) ->
  findIndex p (updateFirst p g l) = findIndex p l.
Proof.
  intros Hg. induction l as [|x rest IH]; simpl; [reflexivity|].
  destruct (p x) eqn:Px; simpl; [now rewrite Hg, Px|].
  now rewrite Px, IH.
Qed.

Lemma updateFirst_twice (g g' : A -> A) (l : list A) :
  (forall x, p (g x) = p x) ->
  updateFirst p g' (updateFirst p g l) = updateFirst p (fun x => g' (g x)) l.
Proof.
  intros Hg. induction l as [|x rest IH]; simpl; [reflexivity|].
  destruct (p x) eqn:Px; simpl; [now rewrite Hg, Px|].
  now rewrite Px, IH.
Qed.

Lemma updateFirst_ext (g g' : A -> A) (l : list A) :
  (forall x, g x = g' x) -> updateFirst p g l = updateFirst p g' l.
Proof.
  intros E. induction l as [|x rest IH]; simpl; [reflexivity|].
  now rewrite E, IH.
Qed.

Lemma updateFirst_id (l : list A) : updateFirst p (fun x => x) l = l.
Proof.
  induction l as [|x rest IH]; simpl; [reflexivity|].
  destruct (p x); [reflexivity | now rewrite IH].
Qed.

Lemma updateAt_at (g g' : A -> A) (l : list A) (i : nat) (a : A) :
  nth_error l i = Some a -> g a = g' a -> updateAt i g l = updateAt i g' l.
Proof.
  revert i. induction l as [|x rest IH]; intros [|i]; simpl; intros N E;
    try discriminate.
  - injection N as ->. now rewrite E.
  - now rewrite (IH i N E).
Qed.

End FirstMatch.

(** The state after the collections and the statistics were put back. *)
Lemma users_restored (st : DemoComponent) (us us1 : list value)
  (s s1 : Statistics) :
  users st = us -> statistics st = s ->
  set_statistics s (set_users us (set_statistics s1 (set_users us1 st))) = st.
Proof. destruct st. simpl. intros -> ->. reflexivity. Qed.

Lemma todos_restored (st : DemoComponent) (ts ts1 : list value)
  (s s1 : Statistics) :
  todos st = ts -> statistics st = s ->
  set_statistics s (set_todos ts (set_statistics s1 (set_todos ts1 st))) = st.
Proof. destruct st. simpl. intros -> ->. reflexivity. Qed.

(* ===================================================================== *)
(** ** Users *)
(* ===================================================================== *)

(** X7.  In a state whose collections hold records, [addUser] with a name
    that is not blank and an address that [isValidEmail] accepts does one of
    two things.  When the users can be spread into the arguments of
    [Math.max], it returns, having appended one active user (the users it
    had stay as they are, in their order) whose name is the trimmed name,
    whose email is the address as typed and whose id is [nextId] of the ids
    in use; the statistics are recomputed (one more user, one more active
    user), [errorMessage] is empty and the user form is closed.  When there
    are more users than a call takes arguments, it throws a RangeError and
    has assigned nothing.  The id is 1 in an empty list and one more than
    the largest id, so above every id in use, as long as the ids are safe
    integers; with a largest id of 2^53 the sum rounds back to 2^53, an id
    that is in use. *)
Theorem addUser_appends (st : DemoComponent) (us : list User.t)
  (ts : list TodoItem.t) (name email : string) :
  wellFormed st us ts -> trim name <> "" -> isValidEmail email = true ->
  (spreadable us ->
   fst (addUser name email st) = Normal tt /\
   users (snd (addUser name email st)) =
     users st ++
     [userLiteral (nextId (map User.id us)) (trim name) email true] /\
   statistics (snd (addUser name email st)) =
     recompute (users (snd (addUser name email st))) (todos st) /\
   totalUsers (statistics (snd (addUser name email st))) =
     S (List.length (users st)) /\
   activeUsers (statistics (snd (addUser name email st))) =
     S (activeUsers (recompute (users st) (todos st))) /\
   todos (snd (addUser name email st)) = todos st /\
   errorMessage (snd (addUser name email st)) = "" /\
   showUserForm (snd (addUser name email st)) = false) /\
  (us <> [] -> ~ spreadable us ->
   addUser name email st = (Throw RangeError, st)) /\
  (Forall isSafeInteger (map User.id us) ->
   nextId (map User.id us) =
     match us with [] => 1%Z | _ => (Math_max (map User.id us) + 1)%Z end /\
   forall y, In y (map User.id us) -> (y < nextId (map User.id us))%Z) /\
  (us <> [] -> Math_max (map User.id us) = (2 ^ 53)%Z ->
   nextId (map User.id us) = (2 ^ 53)%Z /\
   In (nextId (map User.id us)) (map User.id us)).
Proof.
  intros W Nn V. pose proof W as [Eu Et].
  split; [|split; [|split]].
  - intros S. rewrite (addUser_wellFormed _ _ _ _ _ W Nn V (or_intror S)).
    cbn [fst snd users todos statistics errorMessage showUserForm
         set_showUserForm set_errorMessage set_statistics set_users].
    assert (T : trim email = email)
      by (apply emailShape_trim; now apply isValidEmail_shape).
    split; [reflexivity|]. split.
    { rewrite Eu, map_app. unfold newUser, ofUser. cbn [map User.id User.name
        User.email User.isActive]. now rewrite T. }
    split; [reflexivity|].
    cbn [recompute totalUsers activeUsers]. rewrite Eu, map_app.
    split; [rewrite length_app; simpl; lia|]. split; [|auto].
    rewrite filter_app, length_app. simpl. lia.
  - intros Ne S. now apply (addUser_beyond _ us ts).
  - intros F. split; [|now apply nextId_fresh].
    rewrite (nextId_exact _ F). now destruct us.
  - intros Ne M. destruct us as [|u rest]; [congruence|].
    assert (N : nextId (map User.id (u :: rest)) = (2 ^ 53)%Z).
    { unfold nextId. cbn [map] in *. rewrite M. apply Number_add_one_stuck. }
    split; [exact N|]. rewrite N, <- M. apply Math_max_In.
Qed.

Lemma findIndex_snoc_fresh {A : Type} (key : A -> Z) (l : list A) (x : A) :
  ~ In (key x) (map key l) ->
  findIndex (hasKey key (key x)) (l ++ [x]) = Some (List.length l).
Proof.
  induction l as [|y rest IH]; simpl; intros N.
  - unfold hasKey. now rewrite Z.eqb_refl.
  - unfold hasKey at 1. destruct (Z.eqb_spec (key y) (key x)) as [E|_].
    + exfalso. auto.
    + rewrite IH by auto. reflexivity.
Qed.

Lemma splice1_snoc {A : Type} (l : list A) (x : A) :
  Array_splice1 (List.length l) (l ++ [x]) = l.
Proof. induction l as [|y rest IH]; simpl; [reflexivity | now rewrite IH]. Qed.

(** X8.  Ids are handed out again.  In a state whose users can be spread
    and have safe integers as ids, after [addUser] appended a user,
    [deleteUser] with the id it got puts [users] and the statistics back
    to what they were, and the next user added gets that same id. *)
Theorem addUser_then_deleteUser (st : DemoComponent) (us : list User.t)
  (ts : list TodoItem.t) (name email : string) :
  wellFormed st us ts -> trim name <> "" -> isValidEmail email = true ->
  spreadable us -> Forall isSafeInteger (map User.id us) ->
  fst (deleteUser (nextId (map User.id us)) (snd (addUser name email st))) =
    Normal tt /\
  users (snd (deleteUser (nextId (map User.id us))
                (snd (addUser name email st)))) = users st /\
  statistics (snd (deleteUser (nextId (map User.id us))
                     (snd (addUser name email st)))) =
    recompute (users st) (todos st) /\
  getNextUserId (snd (deleteUser (nextId (map User.id us))
                        (snd (addUser name email st)))) =
    (Normal (nextId (map User.id us)),
     snd (deleteUser (nextId (map User.id us)) (snd (addUser name email st)))).
Proof.
  intros W Nn V S F. pose proof W as [Eu Et].
  rewrite (addUser_wellFormed _ _ _ _ _ W Nn V (or_intror S)). cbn [snd].
  match goal with |- context [deleteUser _ ?s] =>
    assert (W1 : wellFormed s (us ++ [newUser us name email]) ts)
      by (split; [reflexivity | exact Et]);
    rewrite (deleteUser_wellFormed s _ _ _ W1)
  end.
  assert (Fi : findIndex (hasKey User.id (nextId (map User.id us)))
                 (us ++ [newUser us name email]) = Some (List.length us)).
  { apply (findIndex_snoc_fresh User.id us (newUser us name email)).
    intros I. apply (nextId_fresh _ F) in I. simpl in I. lia. }
  rewrite Fi. rewrite splice1_snoc. cbv zeta.
  cbn [fst snd users todos statistics set_statistics set_selectedUser
       set_users set_showUserForm set_errorMessage].
  rewrite <- Eu. split; [reflexivity|]. split; [reflexivity|].
  split; [reflexivity|].
  apply (getNextUserId_value _ us ts); [|now right]. split; [exact Eu | exact Et].
Qed.

(** *** toggleUserStatus *)

Lemma toggleUserStatus_wellFormed st us ts (userId : Z) :
  wellFormed st us ts ->
  toggleUserStatus userId st =
    match findIndex (hasKey User.id userId) us with
    | None => (Normal tt, st)
    | Some _ =>
        let us' := map ofUser (updateFirst (hasKey User.id userId) flipActive us) in
        (Normal tt, set_statistics (recompute us' (todos st)) (set_users us' st))
    end.
Proof.
  intros W. pose proof W as [Eu Et]. unfold toggleUserStatus.
  step. rewrite Eu. step. rewrite Array_findIndex_users.
  destruct (findIndex (hasKey User.id userId) us) as [i|] eqn:Fi; [|reflexivity].
  destruct (findIndex_nth _ _ _ _ Fi) as [u Nu].
  cbv zeta. rewrite (nth_typed ofUser _ _ _ Nu).
  change (truthy (ofUser u)) with true. cbv iota.
  step. change (get (ofUser u) "isActive") with (Normal (VBool (User.isActive u))).
  cbv iota. step. rewrite (Array_set_at_typed ofUser _ _ _ _ _ (set_isActive_user _)).
  cbv iota. step.
  rewrite (updateAt_at _ flipActive _ _ _ Nu) by reflexivity.
  rewrite (updateAt_first _ _ _ _ Fi).
  rewrite (updateStatistics_wellFormed _
             (updateFirst (hasKey User.id userId) flipActive us) ts)
    by (split; [reflexivity | exact Et]).
  reflexivity.
Qed.

Lemma flipActive_twice (u : User.t) : flipActive (flipActive u) = u.
Proof. destruct u as [i n e a]. unfold flipActive, withActive. simpl. now rewrite negb_involutive. Qed.

Lemma hasKey_flipActive (k : Z) (u : User.t) :
  hasKey User.id k (flipActive u) = hasKey User.id k u.
Proof. reflexivity. Qed.

(** X9.  In a state whose collections hold records, [toggleUserStatus]
    returns; it inverts [isActive] of the first user with the id and
    assigns no other user (ids, names, emails and order are kept), and
    recomputes the statistics; with an id that no user has it assigns
    nothing.  Called twice it gives [users] back, and the whole state when
    the statistics were in step. *)
Theorem toggleUserStatus_spec (st : DemoComponent) (us : list User.t)
  (ts : list TodoItem.t) (userId : Z) :
  wellFormed st us ts ->
  fst (toggleUserStatus userId st) = Normal tt /\
  users (snd (toggleUserStatus userId st)) =
    map ofUser (updateFirst (hasKey User.id userId) flipActive us) /\
  (~ In userId (map User.id us) -> snd (toggleUserStatus userId st) = st) /\
  (In userId (map User.id us) ->
   statistics (snd (toggleUserStatus userId st)) =
     recompute (users (snd (toggleUserStatus userId st))) (todos st)) /\
  users (snd (toggleUserStatus userId (snd (toggleUserStatus userId st)))) =
    users st /\
  (inSync st ->
   snd (toggleUserStatus userId (snd (toggleUserStatus userId st))) = st).
Proof.
  intros W. pose proof W as [Eu Et].
  rewrite (toggleUserStatus_wellFormed _ _ _ _ W).
  destruct (findIndex (hasKey User.id userId) us) as [i|] eqn:F.
  - pose proof (findIndex_Some _ _ _ _ F) as [I _]. cbv zeta.
    cbn [fst snd users statistics set_statistics set_users].
    match goal with |- context [toggleUserStatus userId ?s] =>
      assert (W1 : wellFormed s
                     (updateFirst (hasKey User.id userId) flipActive us) ts)
        by (split; [reflexivity | exact Et]);
      rewrite (toggleUserStatus_wellFormed s _ _ _ W1)
    end.
    rewrite (findIndex_updateFirst _ _ _ (hasKey_flipActive userId)), F.
    rewrite (updateFirst_twice _ _ _ _ (hasKey_flipActive userId)).
    rewrite (updateFirst_ext _ _ (fun u => u) _ flipActive_twice), updateFirst_id.
    cbv zeta. cbn [snd users todos set_statistics set_users].
    split; [reflexivity|]. split; [reflexivity|].
    split; [intros N; contradiction|]. split; [reflexivity|].
    split; [now rewrite Eu|].
    intros S. rewrite <- Eu. now apply users_restored.
  - rewrite (updateFirst_absent _ _ _ F). apply findIndex_None in F.
    cbn [fst snd]. rewrite (toggleUserStatus_wellFormed _ _ _ _ W).
    apply findIndex_None in F. rewrite F. cbn [snd].
    split; [reflexivity|]. split; [exact Eu|]. split; [reflexivity|].
    split; [|split; reflexivity].
    intros I. apply findIndex_None in F. contradiction.
Qed.

(** *** activateAllUsers and deactivateAllUsers *)

Lemma setAllUsers_wellFormed st us ts (b : bool) :
  wellFormed st us ts ->
  (if b then activateAllUsers else deactivateAllUsers) st =
    (Normal tt,
     set_statistics (recompute (map ofUser (map (withActive b) us)) (todos st))
       (set_users (map ofUser (map (withActive b) us)) st)).
Proof.
  intros W. pose proof W as [Eu Et].
  destruct b; unfold activateAllUsers, deactivateAllUsers; step; rewrite Eu;
    rewrite (Array_forEach_set_typed ofUser _ _ _ _ (set_isActive_user _));
    cbv iota; step; step;
    [ rewrite (updateStatistics_wellFormed _ (map (withActive true) us) ts)
        by (split; [reflexivity | exact Et])
    | rewrite (updateStatistics_wellFormed _ (map (withActive false) us) ts)
        by (split; [reflexivity | exact Et]) ];
    reflexivity.
Qed.

Lemma activeUsers_all (b : bool) (us : list User.t) (ts : list value) :
  activeUsers (recompute (map ofUser (map (withActive b) us)) ts) =
  if b then List.length us else 0.
Proof.
  cbn [recompute activeUsers]. induction us as [|u rest IH]; [now destruct b|].
  destruct b; simpl in *; now rewrite IH.
Qed.

Lemma sameButSelection_refl (st : DemoComponent) : sameButSelection st st.
Proof. reflexivity. Qed.

(** X10.  In a state whose collections hold records, [activateAllUsers]
    and [deactivateAllUsers] return, having set [isActive] of every user
    (ids, names, emails, order and number are kept) and recomputed the
    statistics, which then count all users as active, or none; no other
    field is assigned, [selectedUser] left aside, whose object is one of
    the users when it was selected from them and then shows the new
    [isActive]; and the call made last decides, whatever was called
    before. *)
Theorem setAllUsers_spec (st : DemoComponent) (us : list User.t)
  (ts : list TodoItem.t) (b b0 : bool) :
  wellFormed st us ts ->
  fst ((if b then activateAllUsers else deactivateAllUsers) st) = Normal tt /\
  users (snd ((if b then activateAllUsers else deactivateAllUsers) st)) =
    map ofUser (map (withActive b) us) /\
  statistics (snd ((if b then activateAllUsers else deactivateAllUsers) st)) =
    recompute (map ofUser (map (withActive b) us)) (todos st) /\
  sameButSelection
    (snd ((if b then activateAllUsers else deactivateAllUsers) st))
    (set_statistics (recompute (map ofUser (map (withActive b) us)) (todos st))
       (set_users (map ofUser (map (withActive b) us)) st)) /\
  totalUsers (statistics
                (snd ((if b then activateAllUsers else deactivateAllUsers) st))) =
    List.length us /\
  activeUsers (statistics
                 (snd ((if b then activateAllUsers else deactivateAllUsers) st))) =
    (if b then List.length us else 0) /\
  sameButSelection
    (snd ((if b then activateAllUsers else deactivateAllUsers)
            (snd ((if b0 then activateAllUsers else deactivateAllUsers) st))))
    (snd ((if b then activateAllUsers else deactivateAllUsers) st)).
Proof.
  intros W. pose proof W as [Eu Et].
  rewrite (setAllUsers_wellFormed _ _ _ b W).
  rewrite (setAllUsers_wellFormed _ _ _ b0 W).
  cbn [fst snd statistics users set_users set_statistics].
  split; [reflexivity|]. split; [reflexivity|]. split; [reflexivity|].
  split; [apply sameButSelection_refl|].
  split; [|split; [apply activeUsers_all|]].
  - cbn [recompute totalUsers]. now rewrite !length_map.
  - match goal with |- context [_ ?s] =>
      match s with
      | set_statistics _ _ =>
          assert (W1 : wellFormed s (map (withActive b0) us) ts)
            by (split; [reflexivity | exact Et]);
          rewrite (setAllUsers_wellFormed s _ _ b W1)
      end
    end.
    rewrite (map_map (withActive b0) (withActive b)).
    cbn [snd todos set_statistics set_users]. apply sameButSelection_refl.
Qed.

(* ===================================================================== *)
(** ** Sorting by a comparator *)
(* ===================================================================== *)

Section Ordered.

Context {A : Type} (c : A -> A -> Z).

Hypothesis c_trans : forall x y z, (c x y <= 0 -> c y z <= 0 -> c x z <= 0)%Z.
Hypothesis c_total : forall x y, (0 < c x y -> c y x <= 0)%Z.

Lemma insertBy_ordered (x : A) (l : list A) :
  StronglySorted (fun a b => (c a b <= 0)%Z) l ->
  StronglySorted (fun a b => (c a b <= 0)%Z) (insertBy c x l).
Proof.
  induction l as [|y rest IH]; simpl; intros S.
  - repeat constructor.
  - inversion S as [|? ? Sr Fy]; subst.
    destruct (Z.leb_spec (c x y) 0) as [L|G].
    + constructor; [exact S|]. constructor; [exact L|].
      eapply Forall_impl; [|exact Fy]. intros z Hz. now apply (c_trans x y z).
    + constructor; [now apply IH|].
      apply Forall_forall. intros z Iz.
      apply (Permutation_in _ (Permutation_sym (insertBy_perm _ x rest))) in Iz.
      destruct Iz as [<-|Iz]; [now apply c_total|].
      rewrite Forall_forall in Fy. now apply Fy.
Qed.

Lemma sortBy_ordered (l : list A) :
  StronglySorted (fun a b => (c a b <= 0)%Z) (sortBy c l).
Proof.
  induction l as [|x rest IH]; simpl; [constructor | now apply insertBy_ordered].
Qed.

End Ordered.

(** Insertion passes over an element only when the comparator puts it
    first, so elements that the comparator does not tell apart keep their
    order. *)
Lemma insertBy_keeps {A : Type} (c : A -> A -> Z) (p : A -> bool) (x : A)
  (l : list A) :
  (forall y, p x = true -> p y = true -> (c x y <= 0)%Z) ->
  filter p (insertBy c x l) = filter p (x :: l).
Proof.
  intros Hp. induction l as [|y rest IH]; [reflexivity|].
  simpl insertBy. destruct (Z.leb_spec (c x y) 0) as [L|G]; [reflexivity|].
  simpl in *. rewrite IH.
  destruct (p x) eqn:Px; [|reflexivity].
  destruct (p y) eqn:Py; [|reflexivity].
  specialize (Hp y eq_refl Py). lia.
Qed.

Lemma sortBy_keeps {A : Type} (c : A -> A -> Z) (p : A -> bool) (l : list A) :
  (forall x y, p x = true -> p y = true -> (c x y <= 0)%Z) ->
  filter p (sortBy c l) = filter p l.
Proof.
  intros Hp. induction l as [|x rest IH]; [reflexivity|].
  simpl sortBy. rewrite insertBy_keeps by (apply Hp). simpl. now rewrite IH.
Qed.

(** [users.sort((a, b) => a.f.localeCompare(b.f))] for a field [f] that
    holds a string. *)
Lemma sortUsers_typed st us ts (field : string) (f : User.t -> string) :
  wellFormed st us ts ->
  (forall a b, compareBy field (ofUser a) (ofUser b) =
               Normal (localeCompare (f a) (f b))) ->
  (us0 <- read users ;;
   sorted <- lift (Array_sort (compareBy field) us0) ;;
   write (set_users sorted)) st =
  (Normal tt,
   set_users
     (map ofUser (sortBy (fun a b => localeCompare (f a) (f b)) us)) st).
Proof.
  intros [Eu _] Hc. step. rewrite Eu. step.
  now rewrite (Array_sort_typed ofUser _ _ Hc).
Qed.

(** X11.  In a state whose collections hold records, on a platform whose
    [localeCompare] is a total preorder (as ECMAScript asks of it),
    [sortUsersByName] and [sortUsersByEmail] return having assigned [users]
    only (the statistics are not recomputed and stay right): a permutation
    of the users, in which no user comes before one whose name (or email)
    compares smaller, and in which users of the same name (or email) keep
    the order they had. *)
Theorem sortUsers_spec (st : DemoComponent) (us : list User.t)
  (ts : list TodoItem.t) (byName : bool) :
  wellFormed st us ts ->
  (forall a b c, localeCompare a b <= 0 -> localeCompare b c <= 0 ->
                 localeCompare a c <= 0)%Z ->
  (forall a b, 0 < localeCompare a b -> localeCompare b a <= 0)%Z ->
  (forall a, localeCompare a a = 0%Z) ->
  exists us' : list User.t,
    (if byName then sortUsersByName else sortUsersByEmail) st =
      (Normal tt, set_users (map ofUser us') st) /\
    Permutation us us' /\
    StronglySorted
      (fun a b =>
         (localeCompare ((if byName then User.name else User.email) a)
                        ((if byName then User.name else User.email) b) <= 0)%Z)
      us' /\
    (forall s,
       filter (fun u => String.eqb ((if byName then User.name else User.email) u) s) us' =
       filter (fun u => String.eqb ((if byName then User.name else User.email) u) s) us) /\
    recompute (map ofUser us') (todos st) = recompute (users st) (todos st).
Proof.
  intros W Tr To Re. pose proof W as [Eu Et].
  set (f := if byName then User.name else User.email).
  exists (sortBy (fun a b => localeCompare (f a) (f b)) us).
  split; [|split; [apply sortBy_perm|split; [|split]]].
  - destruct byName; unfold sortUsersByName, sortUsersByEmail.
    + now apply (sortUsers_typed _ _ ts "name" User.name).
    + now apply (sortUsers_typed _ _ ts "email" User.email).
  - apply sortBy_ordered.
    + intros x y z. apply Tr.
    + intros x y. apply To.
  - intros s. apply sortBy_keeps. intros x y Ex Ey.
    apply String.eqb_eq in Ex, Ey. rewrite Ex, Ey, Re. lia.
  - rewrite Eu. apply recompute_perm; [|reflexivity].
    apply Permutation_map, Permutation_sym, sortBy_perm.
Qed.

(* ===================================================================== *)
(** ** Todos *)
(* ===================================================================== *)

(** *** addTodo *)

(** X12.  [addTodo] with a title that is blank returns, having assigned
    [errorMessage] "Todo title is required" and nothing else, in any state.
    With any other title, in a state whose collections hold records, it
    does one of two things.  When the todos can be spread into the
    arguments of [Math.max], it returns having appended one todo (trimmed
    title, not completed, the selected priority, created now, and [nextId]
    of the ids in use as its id), emptied [newTodoTitle] and [errorMessage]
    and recomputed the statistics; so [addTodo] called again at once is
    rejected.  When there are more todos than a call takes arguments, it
    throws a RangeError and has assigned nothing.  The id is above every id
    in use as long as these are safe integers. *)
Theorem addTodo_spec (st : DemoComponent) (us : list User.t)
  (ts : list TodoItem.t) (now : Z) :
  (trim (newTodoTitle st) = "" ->
   addTodo now st = (Normal tt, set_errorMessage "Todo title is required" st)) /\
  (wellFormed st us ts -> trim (newTodoTitle st) <> "" -> spreadable ts ->
   fst (addTodo now st) = Normal tt /\
   todos (snd (addTodo now st)) =
     todos st ++
     [todoLiteral (nextId (map TodoItem.id ts)) (trim (newTodoTitle st)) false
        (priorityName (selectedPriority st)) (VDate (Some now))] /\
   newTodoTitle (snd (addTodo now st)) = "" /\
   errorMessage (snd (addTodo now st)) = "" /\
   statistics (snd (addTodo now st)) =
     recompute (users st) (todos (snd (addTodo now st))) /\
   totalTodos (statistics (snd (addTodo now st))) = S (List.length (todos st)) /\
   users (snd (addTodo now st)) = users st /\
   forall later,
     addTodo later (snd (addTodo now st)) =
       (Normal tt,
        set_errorMessage "Todo title is required" (snd (addTodo now st)))) /\
  (wellFormed st us ts -> trim (newTodoTitle st) <> "" ->
   ts <> [] -> ~ spreadable ts ->
   addTodo now st = (Throw RangeError, st)) /\
  (Forall isSafeInteger (map TodoItem.id ts) ->
   nextId (map TodoItem.id ts) =
     match ts with [] => 1%Z | _ => (Math_max (map TodoItem.id ts) + 1)%Z end /\
   forall y, In y (map TodoItem.id ts) -> (y < nextId (map TodoItem.id ts))%Z).
Proof.
  split; [|split; [|split]].
  - intros E. rewrite addTodo_cases. now rewrite E.
  - intros W Nt S. pose proof W as [Eu Et].
    rewrite (addTodo_wellFormed _ _ _ now W Nt (or_intror S)).
    cbn [fst snd users todos statistics errorMessage newTodoTitle
         set_errorMessage set_statistics set_newTodoTitle set_todos].
    split; [reflexivity|]. split; [now rewrite Et, map_app|].
    split; [reflexivity|]. split; [reflexivity|].
    split; [reflexivity|].
    split; [cbn [recompute totalTodos]; rewrite Et, !length_map, length_app;
            simpl; lia|].
    split; [reflexivity|].
    intros later. rewrite addTodo_cases. reflexivity.
  - intros W Nt Ne S. now apply (addTodo_beyond _ us ts).
  - intros F. split; [|now apply nextId_fresh].
    rewrite (nextId_exact _ F). now destruct ts.
Qed.

(** *** toggleTodo *)

Lemma toggleTodo_wellFormed st us ts (todoId : Z) :
  wellFormed st us ts ->
  toggleTodo todoId st =
    match findIndex (hasKey TodoItem.id todoId) ts with
    | None => (Normal tt, st)
    | Some _ =>
        let ts' :=
          map ofTodo (updateFirst (hasKey TodoItem.id todoId) flipCompleted ts) in
        (Normal tt, set_statistics (recompute (users st) ts') (set_todos ts' st))
    end.
Proof.
  intros W. pose proof W as [Eu Et]. unfold toggleTodo.
  step. rewrite Et. step. rewrite Array_findIndex_todos.
  destruct (findIndex (hasKey TodoItem.id todoId) ts) as [i|] eqn:Fi; [|reflexivity].
  destruct (findIndex_nth _ _ _ _ Fi) as [t Nt].
  cbv zeta. rewrite (nth_typed ofTodo _ _ _ Nt).
  change (truthy (ofTodo t)) with true. cbv iota.
  step. change (get (ofTodo t) "completed") with (Normal (VBool (TodoItem.completed t))).
  cbv iota. step. rewrite (Array_set_at_typed ofTodo _ _ _ _ _ (set_completed_todo _)).
  cbv iota. step.
  rewrite (updateAt_at _ flipCompleted _ _ _ Nt) by reflexivity.
  rewrite (updateAt_first _ _ _ _ Fi).
  rewrite (updateStatistics_wellFormed _ us
             (updateFirst (hasKey TodoItem.id todoId) flipCompleted ts))
    by (split; [exact Eu | reflexivity]).
  reflexivity.
Qed.

Lemma flipCompleted_twice (t : TodoItem.t) : flipCompleted (flipCompleted t) = t.
Proof.
  destruct t. unfold flipCompleted, withCompleted. simpl.
  now rewrite negb_involutive.
Qed.

Lemma hasKey_flipCompleted (k : Z) (t : TodoItem.t) :
  hasKey TodoItem.id k (flipCompleted t) = hasKey TodoItem.id k t.
Proof. reflexivity. Qed.

(** X13.  In a state whose collections hold records, [toggleTodo] returns;
    it inverts [completed] of the first todo with the id and assigns no
    other todo, and recomputes the statistics; with an id that no todo has
    it assigns nothing.  Called twice it gives [todos] back, and the whole
    state when the statistics were in step. *)
Theorem toggleTodo_spec (st : DemoComponent) (us : list User.t)
  (ts : list TodoItem.t) (todoId : Z) :
  wellFormed st us ts ->
  fst (toggleTodo todoId st) = Normal tt /\
  todos (snd (toggleTodo todoId st)) =
    map ofTodo (updateFirst (hasKey TodoItem.id todoId) flipCompleted ts) /\
  (~ In todoId (map TodoItem.id ts) -> snd (toggleTodo todoId st) = st) /\
  (In todoId (map TodoItem.id ts) ->
   statistics (snd (toggleTodo todoId st)) =
     recompute (users st) (todos (snd (toggleTodo todoId st)))) /\
  todos (snd (toggleTodo todoId (snd (toggleTodo todoId st)))) = todos st /\
  (inSync st -> snd (toggleTodo todoId (snd (toggleTodo todoId st))) = st).
Proof.
  intros W. pose proof W as [Eu Et].
  rewrite (toggleTodo_wellFormed _ _ _ _ W).
  destruct (findIndex (hasKey TodoItem.id todoId) ts) as [i|] eqn:F.
  - pose proof (findIndex_Some _ _ _ _ F) as [I _]. cbv zeta.
    cbn [fst snd todos statistics set_statistics set_todos].
    match goal with |- context [toggleTodo todoId ?s] =>
      assert (W1 : wellFormed s us
                     (updateFirst (hasKey TodoItem.id todoId) flipCompleted ts))
        by (split; [exact Eu | reflexivity]);
      rewrite (toggleTodo_wellFormed s _ _ _ W1)
    end.
    rewrite (findIndex_updateFirst _ _ _ (hasKey_flipCompleted todoId)), F.
    rewrite (updateFirst_twice _ _ _ _ (hasKey_flipCompleted todoId)).
    rewrite (updateFirst_ext _ _ (fun t => t) _ flipCompleted_twice), updateFirst_id.
    cbv zeta. cbn [snd users todos set_statistics set_todos].
    split; [reflexivity|]. split; [reflexivity|].
    split; [intros N; contradiction|]. split; [reflexivity|].
    split; [now rewrite Et|].
    intros S. rewrite <- Et. now apply todos_restored.
  - rewrite (updateFirst_absent _ _ _ F).
    cbn [fst snd]. rewrite (toggleTodo_wellFormed _ _ _ _ W), F. cbn [snd].
    split; [reflexivity|]. split; [exact Et|]. split; [reflexivity|].
    split; [|split; reflexivity].
    intros I. apply findIndex_None in F. contradiction.
Qed.

(** *** deleteTodo *)

Lemma deleteTodo_wellFormed st us ts (todoId : Z) :
  wellFormed st us ts ->
  deleteTodo todoId st =
    match findIndex (hasKey TodoItem.id todoId) ts with
    | None => (Normal tt, st)
    | Some _ =>
        let ts' := map ofTodo (removeFirst (hasKey TodoItem.id todoId) ts) in
        (Normal tt, set_statistics (recompute (users st) ts') (set_todos ts' st))
    end.
Proof.
  intros W. pose proof W as [Eu Et]. unfold deleteTodo.
  step. rewrite Et. step. rewrite Array_findIndex_todos.
  destruct (findIndex (hasKey TodoItem.id todoId) ts) as [i|] eqn:Fi; [|reflexivity].
  cbv iota. step. rewrite Array_splice1_map, (splice1_first _ _ _ Fi).
  rewrite (updateStatistics_wellFormed _ us
             (removeFirst (hasKey TodoItem.id todoId) ts))
    by (split; [exact Eu | reflexivity]).
  reflexivity.
Qed.

(** X14.  In a state whose collections hold records, [deleteTodo] returns;
    it removes the first todo with the id and no other (also when several
    todos have the id), and recomputes the statistics; with an id that no
    todo has it assigns nothing.  When the ids are distinct, no todo has the
    id afterwards and a second call assigns nothing. *)
Theorem deleteTodo_spec (st : DemoComponent) (us : list User.t)
  (ts : list TodoItem.t) (todoId : Z) :
  wellFormed st us ts ->
  fst (deleteTodo todoId st) = Normal tt /\
  todos (snd (deleteTodo todoId st)) =
    map ofTodo (removeFirst (hasKey TodoItem.id todoId) ts) /\
  users (snd (deleteTodo todoId st)) = users st /\
  (~ In todoId (map TodoItem.id ts) -> snd (deleteTodo todoId st) = st) /\
  (In todoId (map TodoItem.id ts) ->
   S (List.length (todos (snd (deleteTodo todoId st)))) = List.length (todos st) /\
   statistics (snd (deleteTodo todoId st)) =
     recompute (users st) (todos (snd (deleteTodo todoId st)))) /\
  (NoDup (map TodoItem.id ts) ->
   removeFirst (hasKey TodoItem.id todoId) ts =
     filter (fun t => negb (TodoItem.id t =? todoId)%Z) ts /\
   deleteTodo todoId (snd (deleteTodo todoId st)) =
     (Normal tt, snd (deleteTodo todoId st))).
Proof.
  intros W. pose proof W as [Eu Et].
  rewrite (deleteTodo_wellFormed _ _ _ _ W).
  destruct (findIndex (hasKey TodoItem.id todoId) ts) as [i|] eqn:F.
  - pose proof (findIndex_Some _ _ _ _ F) as [I L]. cbv zeta.
    cbn [fst snd users todos statistics set_statistics set_todos].
    split; [reflexivity|]. split; [reflexivity|]. split; [reflexivity|].
    split; [intros N; contradiction|]. split.
    + intros _. split; [|reflexivity].
      rewrite Et, !length_map, <- (splice1_first _ _ _ F).
      now apply splice1_length.
    + intros D.
      pose proof (splice1_unique _ _ _ _ D F) as S1.
      rewrite (splice1_first _ _ _ F) in S1. split; [exact S1|].
      match goal with |- deleteTodo todoId ?s = _ =>
        assert (W1 : wellFormed s us (removeFirst (hasKey TodoItem.id todoId) ts))
          by (split; [exact Eu | reflexivity]);
        rewrite (deleteTodo_wellFormed s _ _ _ W1)
      end.
      assert (F' : findIndex (hasKey TodoItem.id todoId)
                     (removeFirst (hasKey TodoItem.id todoId) ts) = None).
      { apply findIndex_None. rewrite S1. apply filter_keys_absent. }
      now rewrite F'.
  - rewrite (removeFirst_absent _ _ F). cbn [fst snd].
    split; [reflexivity|]. split; [exact Et|]. split; [reflexivity|].
    split; [reflexivity|]. split.
    + intros I. apply findIndex_None in F. contradiction.
    + intros D. split.
      * symmetry. apply (filter_absent TodoItem.id). now apply findIndex_None.
      * rewrite (deleteTodo_wellFormed _ _ _ _ W). now rewrite F.
Qed.

(** *** updateTodoPriority *)

Lemma updateTodoPriority_wellFormed st us ts (todoId : Z) (p : Priority) :
  wellFormed st us ts ->
  updateTodoPriority todoId p st =
    match findIndex (hasKey TodoItem.id todoId) ts with
    | None => (Normal tt, st)
    | Some _ =>
        let ts' :=
          map ofTodo (updateFirst (hasKey TodoItem.id todoId) (withPriority p) ts) in
        (Normal tt, set_statistics (recompute (users st) ts') (set_todos ts' st))
    end.
Proof.
  intros W. pose proof W as [Eu Et]. unfold updateTodoPriority.
  step. rewrite Et. step. rewrite Array_findIndex_todos.
  destruct (findIndex (hasKey TodoItem.id todoId) ts) as [i|] eqn:Fi; [|reflexivity].
  destruct (findIndex_nth _ _ _ _ Fi) as [t Nt].
  cbv zeta. rewrite (nth_typed ofTodo _ _ _ Nt).
  change (truthy (ofTodo t)) with true. cbv iota.
  step. rewrite (Array_set_at_typed ofTodo _ _ _ _ _ (set_priority_todo _)).
  cbv iota. step.
  rewrite (updateAt_first _ _ _ _ Fi).
  rewrite (updateStatistics_wellFormed _ us
             (updateFirst (hasKey TodoItem.id todoId) (withPriority p) ts))
    by (split; [exact Eu | reflexivity]).
  reflexivity.
Qed.

Lemma hasKey_withPriority (p : Priority) (k : Z) (t : TodoItem.t) :
  hasKey TodoItem.id k (withPriority p t) = hasKey TodoItem.id k t.
Proof. reflexivity. Qed.

(** X15.  In a state whose collections hold records, [updateTodoPriority]
    returns; it assigns the priority to the first todo with the id and to no
    other, and recomputes the statistics; with an id that no todo has it
    assigns nothing.  The priority assigned last is the one that stays:
    a call after another one, with the same id, leaves the state that it
    alone would have left, so a repeated call changes nothing. *)
Theorem updateTodoPriority_spec (st : DemoComponent) (us : list User.t)
  (ts : list TodoItem.t) (todoId : Z) (p q : Priority) :
  wellFormed st us ts ->
  fst (updateTodoPriority todoId p st) = Normal tt /\
  todos (snd (updateTodoPriority todoId p st)) =
    map ofTodo (updateFirst (hasKey TodoItem.id todoId) (withPriority p) ts) /\
  (~ In todoId (map TodoItem.id ts) -> snd (updateTodoPriority todoId p st) = st) /\
  (In todoId (map TodoItem.id ts) ->
   statistics (snd (updateTodoPriority todoId p st)) =
     recompute (users st) (todos (snd (updateTodoPriority todoId p st)))) /\
  snd (updateTodoPriority todoId p (snd (updateTodoPriority todoId q st))) =
    snd (updateTodoPriority todoId p st).
Proof.
  intros W. pose proof W as [Eu Et].
  rewrite (updateTodoPriority_wellFormed _ _ _ _ p W).
  rewrite (updateTodoPriority_wellFormed _ _ _ _ q W).
  destruct (findIndex (hasKey TodoItem.id todoId) ts) as [i|] eqn:F.
  - pose proof (findIndex_Some _ _ _ _ F) as [I _]. cbv zeta.
    cbn [fst snd todos statistics set_statistics set_todos].
    split; [reflexivity|]. split; [reflexivity|].
    split; [intros N; contradiction|]. split; [reflexivity|].
    match goal with |- context [updateTodoPriority todoId p ?s] =>
      assert (W1 : wellFormed s us
                     (updateFirst (hasKey TodoItem.id todoId) (withPriority q) ts))
        by (split; [exact Eu | reflexivity]);
      rewrite (updateTodoPriority_wellFormed s _ _ _ p W1)
    end.
    rewrite (findIndex_updateFirst _ _ _ (hasKey_withPriority q todoId)), F.
    rewrite (updateFirst_twice _ _ _ _ (hasKey_withPriority q todoId)).
    rewrite (updateFirst_ext _ _ (withPriority p) ts) by reflexivity.
    reflexivity.
  - rewrite (updateFirst_absent _ _ _ F). cbn [fst snd].
    rewrite (updateTodoPriority_wellFormed _ _ _ _ p W), F. cbn [snd].
    split; [reflexivity|]. split; [exact Et|]. split; [reflexivity|].
    split; [|reflexivity].
    intros I. apply findIndex_None in F. contradiction.
Qed.

(** *** clearCompletedTodos and the bulk operations on todos *)

Lemma clearCompletedTodos_wellFormed st us ts :
  wellFormed st us ts ->
  clearCompletedTodos st =
    (Normal tt,
     set_statistics
       (recompute (users st)
          (map ofTodo (filter (fun t => negb (TodoItem.completed t)) ts)))
       (set_todos
          (map ofTodo (filter (fun t => negb (TodoItem.completed t)) ts)) st)).
Proof.
  intros W. pose proof W as [Eu Et]. unfold clearCompletedTodos.
  step. rewrite Et. step.
  rewrite (Array_filter_typed ofTodo _ (fun t => negb (TodoItem.completed t))).
  2:{ intros t. eexists. split; [reflexivity|]. simpl. reflexivity. }
  cbv iota. step.
  rewrite (updateStatistics_wellFormed _ us
             (filter (fun t => negb (TodoItem.completed t)) ts))
    by (split; [exact Eu | reflexivity]).
  reflexivity.
Qed.

Lemma filter_idem {A : Type} (f : A -> bool) (l : list A) :
  filter f (filter f l) = filter f l.
Proof.
  induction l as [|x rest IH]; simpl; [reflexivity|].
  destruct (f x) eqn:Fx; simpl; [now rewrite Fx, IH | exact IH].
Qed.

Lemma filter_none {A : Type} (f g : A -> bool) (l : list A) :
  (forall x, g x = true -> f x = false) -> filter f (filter g l) = [].
Proof.
  intros E. induction l as [|x rest IH]; simpl; [reflexivity|].
  destruct (g x) eqn:Gx; simpl; [now rewrite (E x Gx) | exact IH].
Qed.

Lemma completed_typed (ts : list TodoItem.t) :
  filter (fun t => truthy (field "completed" t)) (map ofTodo ts) =
  map ofTodo (filter TodoItem.completed ts).
Proof.
  induction ts as [|t rest IH]; simpl; [reflexivity|].
  destruct (TodoItem.completed t); simpl; now rewrite IH.
Qed.

(** X16.  In a state whose collections hold records, [clearCompletedTodos]
    returns having kept the todos that are not completed, in their order,
    and recomputed the statistics, which count no completed todo; [users]
    is as before; and a second call changes nothing. *)
Theorem clearCompletedTodos_spec (st : DemoComponent) (us : list User.t)
  (ts : list TodoItem.t) :
  wellFormed st us ts ->
  fst (clearCompletedTodos st) = Normal tt /\
  todos (snd (clearCompletedTodos st)) =
    map ofTodo (filter (fun t => negb (TodoItem.completed t)) ts) /\
  users (snd (clearCompletedTodos st)) = users st /\
  statistics (snd (clearCompletedTodos st)) =
    recompute (users st) (todos (snd (clearCompletedTodos st))) /\
  completedTodos (statistics (snd (clearCompletedTodos st))) = 0 /\
  totalTodos (statistics (snd (clearCompletedTodos st))) +
    List.length (filter TodoItem.completed ts) = List.length ts /\
  clearCompletedTodos (snd (clearCompletedTodos st)) =
    (Normal tt, snd (clearCompletedTodos st)).
Proof.
  intros W. pose proof W as [Eu Et].
  rewrite (clearCompletedTodos_wellFormed _ _ _ W).
  cbn [fst snd users todos statistics set_statistics set_todos].
  split; [reflexivity|]. split; [reflexivity|]. split; [reflexivity|].
  split; [reflexivity|]. split; [|split].
  - cbn [recompute completedTodos]. rewrite completed_typed.
    rewrite filter_none; [reflexivity|].
    intros t E. now apply negb_true_iff in E.
  - cbn [recompute totalTodos]. rewrite length_map.
    pose proof (filter_length_split TodoItem.completed ts). lia.
  - match goal with |- clearCompletedTodos ?s = _ =>
      assert (W1 : wellFormed s us
                     (filter (fun t => negb (TodoItem.completed t)) ts))
        by (split; [exact Eu | reflexivity]);
      rewrite (clearCompletedTodos_wellFormed s _ _ W1)
    end.
    rewrite filter_idem. reflexivity.
Qed.

Lemma markAll_wellFormed st us ts (b : bool) :
  wellFormed st us ts ->
  (if b then markAllTodosComplete else markAllTodosIncomplete) st =
    (Normal tt,
     set_statistics
       (recompute (users st) (map ofTodo (map (withCompleted b) ts)))
       (set_todos (map ofTodo (map (withCompleted b) ts)) st)).
Proof.
  intros W. pose proof W as [Eu Et].
  destruct b; unfold markAllTodosComplete, markAllTodosIncomplete; step;
    rewrite Et;
    rewrite (Array_forEach_set_typed ofTodo _ _ _ _ (set_completed_todo _));
    cbv iota; step; step;
    [ rewrite (updateStatistics_wellFormed _ us (map (withCompleted true) ts))
        by (split; [exact Eu | reflexivity])
    | rewrite (updateStatistics_wellFormed _ us (map (withCompleted false) ts))
        by (split; [exact Eu | reflexivity]) ];
    reflexivity.
Qed.

Lemma completedTodos_all (b : bool) (us : list value) (ts : list TodoItem.t) :
  completedTodos (recompute us (map ofTodo (map (withCompleted b) ts))) =
  if b then List.length ts else 0.
Proof.
  cbn [recompute completedTodos]. induction ts as [|t rest IH]; [now destruct b|].
  destruct b; simpl in *; now rewrite IH.
Qed.

Lemma filter_map_all {A : Type} (f : A -> bool) (g : A -> A) (l : list A) :
  (forall x, f (g x) = true) -> filter f (map g l) = map g l.
Proof.
  intros E. induction l as [|x rest IH]; simpl; [reflexivity|].
  now rewrite E, IH.
Qed.

Lemma filter_map_nothing {A : Type} (f : A -> bool) (g : A -> A) (l : list A) :
  (forall x, f (g x) = false) -> filter f (map g l) = [].
Proof.
  intros E. induction l as [|x rest IH]; simpl; [reflexivity|].
  now rewrite E, IH.
Qed.

(** X17.  In a state whose collections hold records,
    [markAllTodosComplete] and [markAllTodosIncomplete] return, having set
    [completed] of every todo and nothing else (ids, titles, priorities,
    dates, order and number are kept); the statistics then count every todo
    as completed, or none.  So [clearCompletedTodos] after
    [markAllTodosComplete] leaves no todo, and after
    [markAllTodosIncomplete] it removes none. *)
Theorem markAllTodos_spec (st : DemoComponent) (us : list User.t)
  (ts : list TodoItem.t) (b : bool) :
  wellFormed st us ts ->
  (if b then markAllTodosComplete else markAllTodosIncomplete) st =
    (Normal tt,
     set_statistics
       (recompute (users st) (map ofTodo (map (withCompleted b) ts)))
       (set_todos (map ofTodo (map (withCompleted b) ts)) st)) /\
  totalTodos (statistics
                (snd ((if b then markAllTodosComplete
                       else markAllTodosIncomplete) st))) = List.length ts /\
  completedTodos (statistics
                    (snd ((if b then markAllTodosComplete
                           else markAllTodosIncomplete) st))) =
    (if b then List.length ts else 0) /\
  fst (clearCompletedTodos
         (snd ((if b then markAllTodosComplete
                else markAllTodosIncomplete) st))) = Normal tt /\
  todos (snd (clearCompletedTodos
                (snd ((if b then markAllTodosComplete
                       else markAllTodosIncomplete) st)))) =
    (if b then [] else map ofTodo (map (withCompleted false) ts)).
Proof.
  intros W. pose proof W as [Eu Et].
  rewrite (markAll_wellFormed _ _ _ b W).
  cbn [fst snd statistics set_statistics].
  split; [reflexivity|]. split; [|split; [apply completedTodos_all|]].
  - cbn [recompute totalTodos]. now rewrite !length_map.
  - match goal with |- context [clearCompletedTodos ?s] =>
      assert (W1 : wellFormed s us (map (withCompleted b) ts))
        by (split; [exact Eu | reflexivity]);
      rewrite (clearCompletedTodos_wellFormed s _ _ W1)
    end.
    cbn [fst snd todos set_statistics set_todos]. split; [reflexivity|].
    destruct b.
    + rewrite filter_map_nothing; [reflexivity|]. intros t. reflexivity.
    + rewrite filter_map_all; [reflexivity|]. intros t. reflexivity.
Qed.

(** *** sortTodosByDate *)

(** X18.  In a state whose collections hold records, [sortTodosByDate]
    returns having assigned [todos] only (the statistics are not recomputed
    and stay right): a permutation of the todos, the newest first, in
    which todos created at the same time keep the order they had. *)
Theorem sortTodosByDate_spec (st : DemoComponent) (us : list User.t)
  (ts : list TodoItem.t) :
  wellFormed st us ts ->
  exists ts' : list TodoItem.t,
    sortTodosByDate st = (Normal tt, set_todos (map ofTodo ts') st) /\
    Permutation ts ts' /\
    StronglySorted
      (fun a b => (TodoItem.createdAt b <= TodoItem.createdAt a)%Z) ts' /\
    (forall time,
       filter (fun t => (TodoItem.createdAt t =? time)%Z) ts' =
       filter (fun t => (TodoItem.createdAt t =? time)%Z) ts) /\
    recompute (users st) (map ofTodo ts') = recompute (users st) (todos st).
Proof.
  intros [Eu Et].
  exists (sortBy (descending TodoItem.createdAt) ts).
  split; [|split; [|split; [|split]]].
  - unfold sortTodosByDate. step. rewrite Et. step.
    rewrite (Array_sort_typed ofTodo byDate _ byDate_typed).
    now rewrite sortBy_date.
  - apply sortBy_perm.
  - apply (sortBy_sorted TodoItem.createdAt).
  - intros time. apply (sortBy_stable TodoItem.createdAt).
  - rewrite Et. apply recompute_perm; [reflexivity|].
    apply Permutation_map, Permutation_sym, sortBy_perm.
Qed.

(** *** The queries on todos *)

Lemma filter_partition {A : Type} (f : A -> bool) (l : list A) :
  Permutation (filter (fun x => negb (f x)) l ++ filter f l) l.
Proof.
  induction l as [|x rest IH]; simpl; [constructor|].
  destruct (f x); simpl.
  - rewrite <- Permutation_middle. now constructor.
  - now constructor.
Qed.

Lemma activeCallback_throws (v : value) :
  isNullish v = true ->
  (c <~ get v "completed" ;; Normal (VBool (negb (truthy c)))) = Throw TypeError.
Proof. intros E. now rewrite (get_nullish _ _ E). Qed.

(** X19.  The queries on todos assign nothing.  Under the filter [all],
    [getFilteredTodos] returns [todos] as it is, whatever it holds.  When no
    todo is [null] or [undefined], the filters [active] and [completed]
    return the todos whose [completed] is falsy and truthy, in their order,
    each todo in exactly one of the two, and the two counts are the lengths
    of these; with a [null] or [undefined] entry, both filters and both
    counts throw a TypeError. *)
Theorem todoQueries_spec (st : DemoComponent) :
  (todoFilter st = FilterAll -> getFilteredTodos st = (Normal (todos st), st)) /\
  (Forall (fun v => isNullish v = false) (todos st) ->
   exists active completed,
     active = filter (fun t => negb (truthy (field "completed" t))) (todos st) /\
     completed = filter (fun t => truthy (field "completed" t)) (todos st) /\
     (todoFilter st = FilterActive ->
      getFilteredTodos st = (Normal active, st)) /\
     (todoFilter st = FilterCompleted ->
      getFilteredTodos st = (Normal completed, st)) /\
     getActiveTodosCount st = (Normal (List.length active), st) /\
     getCompletedTodosCount st = (Normal (List.length completed), st) /\
     Permutation (active ++ completed) (todos st)) /\
  (Exists (fun v => isNullish v = true) (todos st) ->
   (todoFilter st <> FilterAll -> getFilteredTodos st = (Throw TypeError, st)) /\
   getActiveTodosCount st = (Throw TypeError, st) /\
   getCompletedTodosCount st = (Throw TypeError, st)).
Proof.
  split; [|split].
  - intros E. unfold getFilteredTodos. rewrite bind_read, E. reflexivity.
  - intros F.
    pose proof (Array_filter_total _ (fun v => VBool (negb (truthy (field "completed" v))))
                  _ activeCallback_total F) as Ea.
    pose proof (Array_filter_total _ (field "completed") _
                  (fun v => get_field v _) F) as Ec.
    cbn [truthy] in Ea.
    do 2 eexists. split; [reflexivity|]. split; [reflexivity|].
    split; [|split; [|split; [|split]]].
    + intros E. unfold getFilteredTodos. rewrite bind_read, E.
      rewrite bind_read, Ea. reflexivity.
    + intros E. unfold getFilteredTodos. rewrite bind_read, E.
      rewrite bind_read, Ec. reflexivity.
    + unfold getActiveTodosCount. rewrite bind_read, bind_lift, Ea. reflexivity.
    + unfold getCompletedTodosCount. rewrite bind_read, bind_lift, Ec. reflexivity.
    + apply (filter_partition (fun t => truthy (field "completed" t))).
  - intros X.
    pose proof (Array_filter_throws _
                  (fun v => VBool (negb (truthy (field "completed" v))))
                  _ activeCallback_total activeCallback_throws X) as Ea.
    pose proof (Array_filter_throws _ (field "completed") _
                  (fun v => get_field v _) (fun v => get_nullish v _) X) as Ec.
    split; [|split].
    + intros N. unfold getFilteredTodos. rewrite bind_read.
      destruct (todoFilter st); [congruence| |]; rewrite bind_read.
      * unfold lift. now rewrite Ea.
      * unfold lift. now rewrite Ec.
    + unfold getActiveTodosCount. rewrite bind_read, bind_lift, Ea. reflexivity.
    + unfold getCompletedTodosCount. rewrite bind_read, bind_lift, Ec. reflexivity.
Qed.

(* ===================================================================== *)
(** ** searchUsers *)
(* ===================================================================== *)

Lemma matchesSearch_typed (term : string) (u : User.t) :
  exists v, matchesSearch term (ofUser u) = Normal v /\
            truthy v = matchesTerm term u.
Proof.
  unfold matchesSearch, matchesTerm. simpl.
  destruct (includes (toLowerCase (User.name u)) (toLowerCase term)).
  - eexists. split; reflexivity.
  - eexists. split; reflexivity.
Qed.

Lemma searchUsers_wellFormed st us ts :
  wellFormed st us ts -> trim (userSearchTerm st) <> "" ->
  searchUsers st =
    (Normal (map ofUser (filter (matchesTerm (userSearchTerm st)) us)), st).
Proof.
  intros [Eu _] N. unfold searchUsers. rewrite bind_read.
  apply isEmpty_false in N. rewrite N. rewrite bind_read, Eu.
  unfold lift.
  now rewrite (Array_filter_typed ofUser _ (matchesTerm (userSearchTerm st))
                 us (matchesSearch_typed _)).
Qed.

Lemma prefix_refl (s : string) : String.prefix s s = true.
Proof.
  induction s as [|c s IH]; simpl; [reflexivity|].
  destruct (ascii_dec c c); [exact IH | congruence].
Qed.

Lemma includes_refl (s : string) : includes s s = true.
Proof. destruct s; cbn [includes]; now rewrite prefix_refl. Qed.

Lemma lowerChar_idem (c : ascii) : lowerChar (lowerChar c) = lowerChar c.
Proof. destruct c as [[] [] [] [] [] [] [] []]; reflexivity. Qed.

Lemma lowerChar_space (c : ascii) : isWhiteSpace (lowerChar c) = isWhiteSpace c.
Proof. destruct c as [[] [] [] [] [] [] [] []]; reflexivity. Qed.

Lemma toLowerCase_idem (s : string) : toLowerCase (toLowerCase s) = toLowerCase s.
Proof.
  induction s as [|c s IH]; simpl; [reflexivity|].
  now rewrite lowerChar_idem, IH.
Qed.

Lemma trimStart_lower (s : string) :
  trimStart (toLowerCase s) = toLowerCase (trimStart s).
Proof.
  induction s as [|c s IH]; simpl; [reflexivity|].
  rewrite lowerChar_space. destruct (isWhiteSpace c); [exact IH | reflexivity].
Qed.

Lemma trimEnd_lower (s : string) :
  trimEnd (toLowerCase s) = toLowerCase (trimEnd s).
Proof.
  induction s as [|c s IH]; simpl; [reflexivity|].
  rewrite IH, lowerChar_space.
  destruct (trimEnd s); simpl; [destruct (isWhiteSpace c)|]; reflexivity.
Qed.

Lemma trim_lower (s : string) : trim (toLowerCase s) = toLowerCase (trim s).
Proof. unfold trim. now rewrite trimStart_lower, trimEnd_lower. Qed.

Lemma toLowerCase_blank (s : string) : toLowerCase s = "" <-> s = "".
Proof. destruct s; simpl; split; congruence. Qed.

(** X20.  [searchUsers] assigns nothing.  With a search term that is
    blank it returns [users] as it is, whatever it holds.  With any other
    term, in a state whose collections hold records, it returns, in their
    order, the users whose name or email contains the term, letter case
    apart; the term is matched as typed, blanks included. *)
Theorem searchUsers_spec (st : DemoComponent) (us : list User.t)
  (ts : list TodoItem.t) :
  (trim (userSearchTerm st) = "" -> searchUsers st = (Normal (users st), st)) /\
  (wellFormed st us ts -> trim (userSearchTerm st) <> "" ->
   searchUsers st =
     (Normal (map ofUser (filter (matchesTerm (userSearchTerm st)) us)), st) /\
   forall u, In u us ->
     (In (ofUser u) (map ofUser (filter (matchesTerm (userSearchTerm st)) us)) <->
      includes (toLowerCase (User.name u)) (toLowerCase (userSearchTerm st)) = true \/
      includes (toLowerCase (User.email u)) (toLowerCase (userSearchTerm st)) = true)).
Proof.
  split.
  - intros E. unfold searchUsers. rewrite bind_read, E. reflexivity.
  - intros W N. split; [now apply (searchUsers_wellFormed _ _ ts)|].
    intros u I. rewrite <- orb_true_iff. fold (matchesTerm (userSearchTerm st) u).
    split.
    + intros Im. apply in_map_iff in Im as (u' & E & Iu').
      apply filter_In in Iu' as [_ M].
      assert (u' = u) as <-; [|exact M].
      destruct u', u. unfold ofUser, userLiteral in E. simpl in E. congruence.
    + intros M. apply in_map, filter_In. auto.
Qed.

(** X21.  The search ignores letter case.  In a state whose collections
    hold records, a term and its lower-case form find the same users, and a
    user whose name or email is the term, letter case apart, is found. *)
Theorem searchUsers_letter_case (st : DemoComponent) (us : list User.t)
  (ts : list TodoItem.t) (term : string) :
  wellFormed st us ts -> trim term <> "" ->
  fst (searchUsers (set_userSearchTerm (toLowerCase term) st)) =
  fst (searchUsers (set_userSearchTerm term st)) /\
  forall u, In u us ->
    toLowerCase (User.name u) = toLowerCase term \/
    toLowerCase (User.email u) = toLowerCase term ->
    exists found,
      fst (searchUsers (set_userSearchTerm term st)) = Normal found /\
      In (ofUser u) found.
Proof.
  intros W N.
  assert (Nl : trim (toLowerCase term) <> "").
  { rewrite trim_lower. intros E. apply N.
    exact (proj1 (toLowerCase_blank (trim term)) E). }
  assert (W1 : forall t, wellFormed (set_userSearchTerm t st) us ts)
    by (intros t; destruct W; split; assumption).
  rewrite (searchUsers_wellFormed _ _ _ (W1 term)) by exact N.
  rewrite (searchUsers_wellFormed _ _ _ (W1 (toLowerCase term))) by exact Nl.
  cbn [fst userSearchTerm set_userSearchTerm]. split.
  - do 2 f_equal. apply filter_ext. intros u. unfold matchesTerm.
    now rewrite toLowerCase_idem.
  - intros u I E. eexists. split; [reflexivity|].
    apply in_map, filter_In. split; [exact I|]. unfold matchesTerm.
    apply orb_true_iff. destruct E as [<-|<-]; [left | right]; apply includes_refl.
Qed.

(* ===================================================================== *)
(** ** The resets *)
(* ===================================================================== *)

Lemma loadInitialUsers_total (st : DemoComponent) :
  Forall (fun v => isNullish v = false) (todos st) ->
  loadInitialUsers st =
    (Normal tt,
     set_statistics (recompute (map ofUser seedUsers) (todos st))
       (set_users (map ofUser seedUsers) st)).
Proof.
  intros F. unfold loadInitialUsers. step.
  rewrite updateStatistics_total;
    [reflexivity | exact (Forall_users seedUsers) | exact F].
Qed.

Lemma loadInitialUsers_throws (st : DemoComponent) :
  Exists (fun v => isNullish v = true) (todos st) ->
  loadInitialUsers st = (Throw TypeError, set_users (map ofUser seedUsers) st).
Proof.
  intros X. unfold loadInitialUsers. step.
  rewrite updateStatistics_throws; [reflexivity|].
  apply Exists_app. right. exact X.
Qed.

(** With the seed users in place, [loadInitialTodos] computes by itself. *)
Lemma loadInitialTodos_seeded (st : DemoComponent) :
  users st = map ofUser seedUsers ->
  fst (loadInitialTodos st) = Normal tt /\
  users (snd (loadInitialTodos st)) = map ofUser seedUsers /\
  todos (snd (loadInitialTodos st)) =
    todos (snd (loadInitialTodos (initial 0 []))) /\
  statistics (snd (loadInitialTodos st)) = seedStatistics.
Proof.
  intros Eu. unfold loadInitialTodos, new_Date. do 6 step.
  rewrite updateStatistics_total.
  - cbn [fst snd users todos statistics set_statistics set_todos].
    rewrite Eu. repeat split.
  - cbn [users set_todos]. rewrite Eu. apply Forall_users.
  - repeat constructor.
Qed.

Lemma ngOnInit_initial (now : Z) (storage : Storage) :
  fst (ngOnInit (initial now storage)) = Normal tt /\
  users (snd (ngOnInit (initial now storage))) = map ofUser seedUsers /\
  todos (snd (ngOnInit (initial now storage))) =
    todos (snd (loadInitialTodos (initial 0 []))) /\
  statistics (snd (ngOnInit (initial now storage))) = seedStatistics.
Proof.
  destruct (step_loadTheme (initial now storage) [] [] (conj eq_refl eq_refl))
    as (s1 & E1 & W1).
  destruct (finish_updateStatistics s1 [] [] W1) as (s2 & E2 & [Eu2 Et2]).
  assert (F2 : Forall (fun v => isNullish v = false) (todos s2))
    by (rewrite Et2; constructor).
  unfold ngOnInit, initializeData, bind.
  rewrite E1, E2, (loadInitialUsers_total _ F2).
  match goal with |- context [loadInitialTodos ?s] =>
    destruct (loadInitialTodos_seeded s eq_refl) as (L0 & L1 & L2 & L3);
    destruct (loadInitialTodos s) as [c s3]
  end.
  cbn [fst snd] in L0, L1, L2, L3. subst c. cbn [fst snd]. auto.
Qed.

(** X22.  [resetToDefaults] in a state none of whose todos is [null] or
    [undefined] returns, and [users], [todos] and [statistics] are then
    exactly what [ngOnInit] gives a component just constructed: the five
    seed users and todos and their counts; the selection, the two inputs and
    [errorMessage] are empty.  With a [null] or [undefined] todo it throws
    a TypeError after replacing [users], and resets nothing else. *)
Theorem resetToDefaults_spec (st : DemoComponent) (now : Z)
  (storage : Storage) :
  (Forall (fun v => isNullish v = false) (todos st) ->
   fst (resetToDefaults st) = Normal tt /\
   fst (ngOnInit (initial now storage)) = Normal tt /\
   users (snd (resetToDefaults st)) = users (snd (ngOnInit (initial now storage))) /\
   todos (snd (resetToDefaults st)) = todos (snd (ngOnInit (initial now storage))) /\
   statistics (snd (resetToDefaults st)) =
     statistics (snd (ngOnInit (initial now storage))) /\
   users (snd (resetToDefaults st)) = map ofUser seedUsers /\
   List.length (todos (snd (resetToDefaults st))) = 5 /\
   statistics (snd (resetToDefaults st)) = seedStatistics /\
   selectedUser (snd (resetToDefaults st)) = VNull /\
   userSearchTerm (snd (resetToDefaults st)) = "" /\
   newTodoTitle (snd (resetToDefaults st)) = "" /\
   errorMessage (snd (resetToDefaults st)) = "") /\
  (Exists (fun v => isNullish v = true) (todos st) ->
   resetToDefaults st = (Throw TypeError, set_users (map ofUser seedUsers) st)).
Proof.
  split.
  - intros F.
    destruct (ngOnInit_initial now storage) as (I0 & I1 & I2 & I3).
    rewrite I0, I1, I2, I3.
    unfold resetToDefaults.
    rewrite (bind_step _ _ _ _ _ (loadInitialUsers_total _ F)).
    match goal with |- context [bind loadInitialTodos _ ?s] =>
      destruct (loadInitialTodos_seeded s eq_refl) as (L0 & L1 & L2 & L3);
      destruct (loadInitialTodos s) as [c s2] eqn:E
    end.
    cbn [fst snd] in L0, L1, L2, L3. subst c.
    rewrite (bind_step _ _ _ _ _ E).
    cbn [fst snd bind write users todos statistics selectedUser userSearchTerm
         newTodoTitle errorMessage set_selectedUser set_userSearchTerm
         set_newTodoTitle set_errorMessage set_theme set_todoFilter
         set_selectedPriority].
    rewrite L1, L2, L3. repeat split.
  - intros X. unfold resetToDefaults. unfold bind at 1.
    now rewrite (loadInitialUsers_throws _ X).
Qed.

Lemma resetAllData_value (st : DemoComponent) :
  resetAllData st =
    (Normal tt,
     set_statistics
       {| totalUsers := 0; activeUsers := 0; totalTodos := 0;
          completedTodos := 0; highPriorityTodos := 0 |}
       (set_errorMessage ""
          (set_newTodoTitle ""
             (set_userSearchTerm ""
                (set_selectedUser VNull (set_todos [] (set_users [] st))))))).
Proof.
  unfold resetAllData. do 6 step.
  rewrite updateStatistics_total; [reflexivity | constructor | constructor].
Qed.

(** X23.  [resetAllData] returns in every state, whatever the collections
    hold: both are empty afterwards, the five counts are zero and nothing
    is selected; a second call changes nothing.  The ids start again: the
    next user added and the next todo added get the id 1. *)
Theorem resetAllData_restart (st : DemoComponent) (name email title : string)
  (now : Z) :
  fst (resetAllData st) = Normal tt /\
  users (snd (resetAllData st)) = [] /\
  todos (snd (resetAllData st)) = [] /\
  statistics (snd (resetAllData st)) =
    {| totalUsers := 0; activeUsers := 0; totalTodos := 0;
       completedTodos := 0; highPriorityTodos := 0 |} /\
  selectedUser (snd (resetAllData st)) = VNull /\
  resetAllData (snd (resetAllData st)) = (Normal tt, snd (resetAllData st)) /\
  (trim name <> "" -> isValidEmail email = true ->
   users (snd (addUser name email (snd (resetAllData st)))) =
     [userLiteral 1 (trim name) email true]) /\
  (trim title <> "" ->
   todos (snd (addTodo now (set_newTodoTitle title (snd (resetAllData st))))) =
     [todoLiteral 1 (trim title) false (priorityName (selectedPriority st))
        (VDate (Some now))]).
Proof.
  rewrite !resetAllData_value.
  cbn [fst snd users todos statistics selectedUser set_statistics
       set_errorMessage set_newTodoTitle set_userSearchTerm set_selectedUser
       set_todos set_users].
  do 5 (split; [reflexivity|]). split; [destruct st; vm_compute; reflexivity|]. split.
  - intros Nn V.
    match goal with |- context [addUser name email ?s] =>
      rewrite (addUser_wellFormed s [] [] _ _ (conj eq_refl eq_refl) Nn V
                 (or_introl eq_refl))
    end.
    cbn [snd users set_showUserForm set_errorMessage set_statistics set_users].
    unfold newUser, ofUser. cbn [map app nextId User.id User.name User.email
      User.isActive].
    now rewrite (emailShape_trim _ (proj1 (isValidEmail_shape _) V)).
  - intros Nt.
    match goal with |- context [addTodo now ?s] =>
      rewrite (addTodo_wellFormed s [] [] now (conj eq_refl eq_refl) Nt
                 (or_introl eq_refl))
    end.
    reflexivity.
Qed.

(* ===================================================================== *)
(** ** importData: payloads with parts missing *)
(* ===================================================================== *)

(** What a field holds after a [try] whose handler only reports. *)
Lemma try_catch_reads {B : Type} (f : DemoComponent -> B) (body : M unit)
  (msg : string) (st : DemoComponent) (x : B) :
  f (snd (body st)) = x ->
  (forall s, f (set_errorMessage msg s) = f s) ->
  f (snd (try_catch body (write (set_errorMessage msg)) st)) = x.
Proof.
  intros Eb Eh. unfold try_catch.
  destruct (body st) as [[[]|e|] st1]; simpl in *; try exact Eb.
  now rewrite Eh.
Qed.

(** X24.  A payload that parses to a value other than [null] replaces
    only the parts it has.  [users] is as before unless the payload's
    [users] is an array, [todos] is as before unless its [todos] is an
    array, and [theme] is as before unless its [theme] is truthy, however
    the import completes.  With none of the three, in a state none of whose
    entries is [null] or [undefined], the import returns having recomputed
    the statistics and emptied [errorMessage], and nothing else. *)
Theorem importData_missing_parts (jsonData : string) (data : value)
  (st : DemoComponent) :
  JSON_parse jsonData = Some data -> isNullish data = false ->
  (isArray (field "users" data) = false ->
   users (snd (importData jsonData st)) = users st) /\
  (isArray (field "todos" data) = false ->
   todos (snd (importData jsonData st)) = todos st) /\
  (truthy (field "theme" data) = false ->
   theme (snd (importData jsonData st)) = theme st) /\
  (isArray (field "users" data) = false ->
   isArray (field "todos" data) = false ->
   truthy (field "theme" data) = false ->
   Forall (fun v => isNullish v = false) (users st ++ todos st) ->
   importData jsonData st =
     (Normal tt,
      set_errorMessage "" (set_statistics (recompute (users st) (todos st)) st))).
Proof.
  intros P N.
  assert (Start : forall k : value -> value -> M unit,
            bind (lift (parse jsonData))
              (fun d => bind (lift (get d "users")) (k d)) st =
            k data (field "users" data) st).
  { intros k. rewrite bind_lift. unfold parse. rewrite P. cbv iota.
    now rewrite bind_lift, (get_field _ _ N). }
  split; [|split; [|split]].
  - intros Au. unfold importData. apply try_catch_reads; [|reflexivity].
    rewrite Start, Au, andb_false_r. rewrite bind_ret.
    match goal with |- users (snd (?m st)) = _ =>
      assert (Pm : preserves users m) by frame;
      unfold preserves in Pm; rewrite Pm; reflexivity
    end.
  - intros At. unfold importData. apply try_catch_reads; [|reflexivity].
    rewrite Start.
    destruct (truthy (field "users" data) && isArray (field "users" data));
      step; rewrite bind_lift, (get_field _ _ N); cbv iota;
      rewrite At, andb_false_r, bind_ret;
      match goal with |- todos (snd (?m ?s)) = _ =>
        assert (Pm : preserves todos m) by frame;
        unfold preserves in Pm; rewrite Pm; reflexivity
      end.
  - intros Th. unfold importData. apply try_catch_reads; [|reflexivity].
    rewrite Start.
    assert (Rest : forall s,
              theme (snd ((dataTheme <- lift (get data "theme") ;;
                           (if truthy dataTheme then write (set_theme dataTheme)
                            else ret tt) ;;
                           updateStatistics ;;
                           write (set_errorMessage "")) s)) = theme s).
    { intros s. rewrite bind_lift, (get_field _ _ N). cbv iota.
      rewrite Th, bind_ret.
      match goal with |- theme (snd (?m s)) = _ =>
        assert (Pm : preserves theme m) by frame;
        unfold preserves in Pm; rewrite Pm; reflexivity
      end. }
    destruct (truthy (field "users" data) && isArray (field "users" data));
      step; rewrite bind_lift, (get_field _ _ N); cbv iota;
      destruct (truthy (field "todos" data) && isArray (field "todos" data));
      try (rewrite bind_ret; now rewrite Rest).
    all: unfold bind at 1; rewrite bind_lift;
      destruct (Array_map importTodo (elements (field "todos" data)));
      try unfold write at 1; cbv beta iota; try reflexivity; now rewrite Rest.
  - intros Au At Th F. apply Forall_app in F as [Fu Ft].
    unfold importData, try_catch. rewrite Start, Au, andb_false_r, bind_ret.
    rewrite bind_lift, (get_field _ _ N). cbv iota.
    rewrite At, andb_false_r, bind_ret.
    rewrite bind_lift, (get_field _ _ N). cbv iota.
    rewrite Th, bind_ret.
    unfold bind at 1. rewrite (updateStatistics_total _ Fu Ft). reflexivity.
Qed.

(** X25.  A text that parses to [null] is reported as invalid JSON:
    [importData] assigns [errorMessage] the import message and nothing
    else.  A text that parses to a number, a string, a truth value or an
    array is taken as a payload without parts: in a state none of whose
    entries is [null] or [undefined], [errorMessage] is emptied, the
    statistics are recomputed and nothing else is assigned. *)
Theorem importData_not_an_object (jsonData : string) (data : value)
  (st : DemoComponent) :
  JSON_parse jsonData = Some data ->
  (data = VNull ->
   importData jsonData st =
     (Normal tt, set_errorMessage "Invalid JSON data for import" st)) /\
  ((exists b, data = VBool b) \/ (exists n, data = VNum n) \/
   (exists s, data = VStr s) \/ (exists elems, data = VArr elems) ->
   Forall (fun v => isNullish v = false) (users st ++ todos st) ->
   importData jsonData st =
     (Normal tt,
      set_errorMessage "" (set_statistics (recompute (users st) (todos st)) st))).
Proof.
  intros P. split.
  - intros ->. unfold importData, try_catch. rewrite bind_lift. unfold parse.
    rewrite P. reflexivity.
  - intros Shape F. apply Forall_app in F as [Fu Ft].
    unfold importData, try_catch. rewrite bind_lift. unfold parse. rewrite P.
    cbv iota.
    destruct Shape as [[b ->]|[[n ->]|[[s ->]|[elems ->]]]];
      cbn [get lift bind truthy isArray andb ret];
      unfold bind at 1; rewrite (updateStatistics_total _ Fu Ft); reflexivity.
Qed.

(* ===================================================================== *)
(** ** deleteUser and the selection *)
(* ===================================================================== *)

(** X26.  In a state whose collections hold records, [deleteUser] clears
    the selection only when it removes a user and the selected user has the
    id it was given: with nothing selected nothing is selected afterwards,
    a selected user of another id stays selected, and so does a selected
    user of that id when no user of the list has it. *)
Theorem deleteUser_selection (st : DemoComponent) (us : list User.t)
  (ts : list TodoItem.t) (userId : Z) :
  wellFormed st us ts ->
  (selectedUser st = VNull ->
   selectedUser (snd (deleteUser userId st)) = VNull) /\
  (forall u, selectedUser st = ofUser u -> User.id u <> userId ->
             selectedUser (snd (deleteUser userId st)) = ofUser u) /\
  (forall u, selectedUser st = ofUser u -> ~ In userId (map User.id us) ->
             selectedUser (snd (deleteUser userId st)) = ofUser u).
Proof.
  intros W. rewrite (deleteUser_wellFormed _ _ _ _ W).
  destruct (findIndex (hasKey User.id userId) us) as [i|] eqn:F.
  - cbv zeta. cbn [snd selectedUser set_statistics set_selectedUser].
    split; [intros ->; reflexivity|]. split.
    + intros u -> N. simpl. apply Z.eqb_neq in N. now rewrite N.
    + intros u _ N. apply findIndex_Some in F as [I _]. contradiction.
  - cbn [snd]. split; [auto|]. split; intros u E _; exact E.
Qed.

(* ===================================================================== *)
(** ** The theme stays one of the two *)
(* ===================================================================== *)

(** The theme after [importData] is the one before or the payload's. *)
Lemma importData_theme (jsonData : string) (st : DemoComponent) :
  theme (snd (importData jsonData st)) = theme st \/
  exists data, JSON_parse jsonData = Some data /\
               truthy (field "theme" data) = true /\
               theme (snd (importData jsonData st)) = field "theme" data.
Proof.
  destruct (JSON_parse jsonData) as [data|] eqn:P.
  2:{ left. unfold importData, try_catch. rewrite bind_lift. unfold parse.
      now rewrite P. }
  destruct (isNullish data) eqn:N.
  { left. unfold importData, try_catch. rewrite bind_lift. unfold parse.
    rewrite P. cbv iota. now rewrite bind_lift, (get_nullish _ _ N). }
  assert (Rest : forall s,
            theme (snd ((dataTheme <- lift (get data "theme") ;;
                         (if truthy dataTheme then write (set_theme dataTheme)
                          else ret tt) ;;
                         updateStatistics ;;
                         write (set_errorMessage "")) s)) =
            if truthy (field "theme" data) then field "theme" data else theme s).
  { intros s. rewrite bind_lift, (get_field _ _ N). cbv iota.
    destruct (truthy (field "theme" data)); step;
      match goal with |- theme (snd (?m ?s0)) = _ =>
        assert (Pm : preserves theme m) by frame;
        unfold preserves in Pm; rewrite Pm; reflexivity
      end. }
  assert (Th : theme (snd (importData jsonData st)) =
               match (if truthy (field "todos" data) && isArray (field "todos" data)
                      then Array_map importTodo (elements (field "todos" data))
                      else Normal []) with
               | Normal _ =>
                   if truthy (field "theme" data) then field "theme" data
                   else theme st
               | _ => theme st
               end).
  { unfold importData. apply try_catch_reads; [|reflexivity].
    rewrite bind_lift. unfold parse. rewrite P. cbv iota.
    rewrite bind_lift, (get_field _ _ N). cbv iota.
    destruct (truthy (field "users" data) && isArray (field "users" data));
      step; rewrite bind_lift, (get_field _ _ N); cbv iota;
      (destruct (truthy (field "todos" data) && isArray (field "todos" data));
       [ unfold bind at 1; rewrite bind_lift;
         destruct (Array_map importTodo (elements (field "todos" data)));
         try unfold write at 1; cbv beta iota; try reflexivity;
         rewrite Rest; reflexivity
       | rewrite bind_ret, Rest; reflexivity ]). }
  rewrite Th.
  destruct (if truthy (field "todos" data) && isArray (field "todos" data)
            then Array_map importTodo (elements (field "todos" data))
            else Normal []); try (now left).
  destruct (truthy (field "theme" data)) eqn:T; [|now left].
  right. exists data. repeat split; auto.
Qed.

Lemma loadTheme_valid (st : DemoComponent) :
  themeValid (theme st) -> themeValid (theme (snd (loadTheme st))).
Proof.
  intros V. unfold loadTheme. rewrite bind_read.
  destruct (getItem "demo-theme" (localStorage st)) as [saved|]; [|exact V].
  destruct (String.eqb_spec saved "dark") as [->|_]; [now right|].
  destruct (String.eqb_spec saved "light") as [->|_]; [now left | exact V].
Qed.

(** *** Properties that a method keeps *)

Lemma keeps_frame {A B : Type} (f : DemoComponent -> B) (Q : B -> Prop)
  (m : M A) :
  preserves f m -> keeps (fun st => Q (f st)) m.
Proof. intros Pm st V. now rewrite Pm. Qed.

Lemma keeps_bind {A B : Type} (P : DemoComponent -> Prop) (m : M A)
  (k : A -> M B) :
  keeps P m -> (forall a, keeps P (k a)) -> keeps P (bind m k).
Proof.
  intros Hm Hk st V. unfold bind. specialize (Hm st V).
  destruct (m st) as [[a|e|] st1]; cbn [snd] in *; try exact Hm.
  now apply Hk.
Qed.

Lemma keeps_try_catch (P : DemoComponent -> Prop) (body handler : M unit) :
  keeps P body -> keeps P handler -> keeps P (try_catch body handler).
Proof.
  intros Hb Hh st V. unfold try_catch. specialize (Hb st V).
  destruct (body st) as [[a|e|] st1]; cbn [snd] in *; try exact Hb.
  now apply Hh.
Qed.

Lemma keeps_write (P : DemoComponent -> Prop)
  (g : DemoComponent -> DemoComponent) :
  (forall st, P (g st)) -> keeps P (write g).
Proof. intros Hg st _. apply Hg. Qed.

Lemma keeps_loadTheme : keeps (fun st => themeValid (theme st)) loadTheme.
Proof. intros st V. now apply loadTheme_valid. Qed.

(** Splits a method body into the statements that assign the theme and
    those that do not. *)
Ltac theme_kept :=
  repeat first
    [ solve [apply (keeps_frame theme themeValid); frame]
    | apply keeps_loadTheme
    | apply keeps_write; intros ?; solve [now left | now right]
    | apply keeps_bind; [|intros ?] ].

Lemma exec_theme (o : operation) (st : DemoComponent) :
  themeChecked o -> themeValid (theme st) ->
  themeValid (theme (snd (exec o st))).
Proof.
  intros C V.
  assert (Keep : forall m : M unit,
            keeps (fun st => themeValid (theme st)) m ->
            themeValid (theme (snd (m st))))
    by (intros m Km; now apply Km).
  destruct o; cbn [exec];
    try (apply Keep;
         unfold ngOnInit, initializeData, loadInitialUsers, loadInitialTodos,
           ngOnDestroy, tick, addUser, getNextUserId, deleteUser,
           toggleUserStatus, selectUser, addTodo, getNextTodoId, toggleTodo,
           deleteTodo, updateTodoPriority, clearCompletedTodos, exportToConsole,
           exportData, markAllTodosComplete, markAllTodosIncomplete,
           activateAllUsers, deactivateAllUsers, sortUsersByName,
           sortUsersByEmail, sortTodosByPriority, sortTodosByDate, resetAllData,
           resetToDefaults;
         solve [theme_kept]).
  - (* toggleTheme *)
    unfold toggleTheme. repeat step. cbn [snd write theme set_localStorage set_theme].
    destruct (strictEqStr (theme st) "light"); [now right | now left].
  - (* importData *)
    destruct (importData_theme jsonData st) as [E|(data & P & T & E)];
      rewrite E; [exact V|].
    cbn [themeChecked] in C. rewrite P in C. now apply C.
Qed.

Lemma run_theme (ops : list operation) : forall st st' : DemoComponent,
  Forall themeChecked ops -> themeValid (theme st) ->
  run ops st = Some st' -> themeValid (theme st').
Proof.
  induction ops as [|o rest IH]; intros st st' F V R; simpl in R.
  - now injection R as <-.
  - inversion F as [|? ? Co Fr]; subst.
    pose proof (exec_theme o st Co V) as V1.
    destruct (exec o st) as [c st1]. cbn [snd] in V1.
    apply (IH st1 st' Fr V1). destruct c; [exact R | exact R | discriminate].
Qed.

(** X27.  [theme] stays ['light'] or ['dark'], the two values of its
    type: starting from a state in which it is one of them (the initial
    state is one), it is one of them after any run in which every payload
    imported has no theme or one of the two, however the operations
    complete; [importData] itself checks nothing, and assigns whatever
    truthy theme the payload has. *)
Theorem theme_stays_valid (ops : list operation) (st st' : DemoComponent)
  (now : Z) (storage : Storage) :
  Forall themeChecked ops -> themeValid (theme st) ->
  run ops st = Some st' ->
  themeValid (theme st') /\
  themeValid (theme (initial now storage)) /\
  forall jsonData data s,
    JSON_parse jsonData = Some data ->
    fst (importData jsonData s) = Normal tt ->
    errorMessage (snd (importData jsonData s)) = "" ->
    truthy (field "theme" data) = true ->
    theme (snd (importData jsonData s)) = field "theme" data.
Proof.
  intros F V R. split; [now apply (run_theme ops st)|]. split; [now left|].
  intros jsonData data s P Rn Em T.
  destruct (isNullish data) eqn:N.
  { exfalso. revert Em. unfold importData, try_catch. rewrite bind_lift.
    unfold parse. rewrite P. cbv iota. rewrite bind_lift, (get_nullish _ _ N).
    discriminate. }
  revert Rn Em. unfold importData, try_catch.
  match goal with |- context [match ?body s with _ => _ end] =>
    destruct (body s) as [[[]|e|] s1] eqn:Eb
  end; cbn [fst snd]; try discriminate.
  intros _ _. revert Eb.
  rewrite bind_lift. unfold parse. rewrite P. cbv iota.
  rewrite bind_lift, (get_field _ _ N). cbv iota.
  intros Eb. apply bind_Normal in Eb as (a1 & t1 & _ & Eb).
  rewrite bind_lift, (get_field _ _ N) in Eb. cbv iota in Eb.
  apply bind_Normal in Eb as (a2 & t2 & _ & Eb).
  rewrite bind_lift, (get_field _ _ N) in Eb. cbv iota in Eb.
  rewrite T, bind_write in Eb.
  apply bind_Normal in Eb as (a3 & t3 & Eu & Eb).
  apply updateStatistics_returns in Eu. subst t3.
  injection Eb as <-. reflexivity.
Qed.

(* ===================================================================== *)
(** ** importData replaces, and not all at once *)
(* ===================================================================== *)

(** X28.  [importData] replaces a collection by the payload's, it does not
    merge: when the payload's [users] is an array, [users] is that array
    afterwards, as it is, however the import completes; when its [todos]
    is an array whose elements convert, [todos] is the converted array.
    The parts are assigned one after the other: when the conversion of the
    todos throws (a [null] element), the handler reports invalid JSON with
    [users] already replaced and [todos] as before. *)
Theorem importData_replaces (jsonData : string) (data : value)
  (st : DemoComponent) :
  JSON_parse jsonData = Some data -> isNullish data = false ->
  (isArray (field "users" data) = true ->
   users (snd (importData jsonData st)) = elements (field "users" data)) /\
  (isArray (field "todos" data) = true ->
   forall ts,
     Array_map importTodo (elements (field "todos" data)) = Normal ts ->
     todos (snd (importData jsonData st)) = ts) /\
  (isArray (field "users" data) = true ->
   isArray (field "todos" data) = true ->
   forall e,
     Array_map importTodo (elements (field "todos" data)) = Throw e ->
     importData jsonData st =
       (Normal tt,
        set_errorMessage "Invalid JSON data for import"
          (set_users (elements (field "users" data)) st))).
Proof.
  intros P N.
  assert (Start : forall k : value -> value -> M unit,
            bind (lift (parse jsonData))
              (fun d => bind (lift (get d "users")) (k d)) st =
            k data (field "users" data) st).
  { intros k. rewrite bind_lift. unfold parse. rewrite P. cbv iota.
    now rewrite bind_lift, (get_field _ _ N). }
  assert (Arr : forall v, isArray v = true -> truthy v && isArray v = true)
    by (intros [] A; try discriminate; reflexivity).
  split; [|split].
  - intros Au. unfold importData. apply try_catch_reads; [|reflexivity].
    rewrite Start, (Arr _ Au). step.
    match goal with |- users (snd (?m ?s)) = _ =>
      assert (Pm : preserves users m) by frame;
      unfold preserves in Pm; rewrite Pm; reflexivity
    end.
  - intros At ts Em. unfold importData. apply try_catch_reads; [|reflexivity].
    rewrite Start.
    destruct (truthy (field "users" data) && isArray (field "users" data));
      step; rewrite bind_lift, (get_field _ _ N); cbv iota;
      rewrite (Arr _ At); unfold bind at 1; rewrite bind_lift, Em;
      unfold write at 1; cbv beta iota;
      match goal with |- todos (snd (?m ?s)) = _ =>
        assert (Pm : preserves todos m) by frame;
        unfold preserves in Pm; rewrite Pm; reflexivity
      end.
  - intros Au At e Em. unfold importData, try_catch.
    rewrite Start, (Arr _ Au). step.
    rewrite bind_lift, (get_field _ _ N). cbv iota.
    rewrite (Arr _ At). unfold bind at 1. rewrite bind_lift, Em. reflexivity.
Qed.

(* ===================================================================== *)
(** ** deleteUser when ids are not distinct *)
(* ===================================================================== *)

Lemma removeFirst_count {A : Type} (key : A -> Z) (k : Z) (l : list A) :
  In k (map key l) ->
  S (count_occ Z.eq_dec (map key (removeFirst (hasKey key k) l)) k) =
  count_occ Z.eq_dec (map key l) k.
Proof.
  induction l as [|x rest IH]; simpl; intros I; [contradiction|].
  unfold hasKey at 1. destruct (Z.eqb_spec (key x) k) as [E|N].
  - destruct (Z.eq_dec (key x) k); [reflexivity | contradiction].
  - simpl. destruct (Z.eq_dec (key x) k); [contradiction|].
    apply IH. destruct I as [I|I]; [contradiction | exact I].
Qed.

Lemma removeFirst_others {A : Type} (key : A -> Z) (k k' : Z) (l : list A) :
  k' <> k ->
  count_occ Z.eq_dec (map key (removeFirst (hasKey key k) l)) k' =
  count_occ Z.eq_dec (map key l) k'.
Proof.
  intros N. induction l as [|x rest IH]; simpl; [reflexivity|].
  unfold hasKey at 1. destruct (Z.eqb_spec (key x) k) as [E|Nx].
  - destruct (Z.eq_dec (key x) k'); [congruence | reflexivity].
  - simpl. now rewrite IH.
Qed.

(** X29.  In a state whose collections hold records, also when several
    users have the same id (an import can bring that about), [deleteUser]
    removes the first user with the id and no other: the number of users
    with that id drops by one, and for every other id it stays what it
    was. *)
Theorem deleteUser_first_match (st : DemoComponent) (us : list User.t)
  (ts : list TodoItem.t) (userId : Z) :
  wellFormed st us ts ->
  fst (deleteUser userId st) = Normal tt /\
  users (snd (deleteUser userId st)) =
    map ofUser (removeFirst (hasKey User.id userId) us) /\
  (In userId (map User.id us) ->
   S (count_occ Z.eq_dec
        (map User.id (removeFirst (hasKey User.id userId) us)) userId) =
   count_occ Z.eq_dec (map User.id us) userId) /\
  (forall k, k <> userId ->
   count_occ Z.eq_dec (map User.id (removeFirst (hasKey User.id userId) us)) k =
   count_occ Z.eq_dec (map User.id us) k).
Proof.
  intros W. pose proof W as [Eu Et].
  rewrite (deleteUser_wellFormed _ _ _ _ W).
  split; [|split; [|split]].
  - destruct (findIndex (hasKey User.id userId) us); reflexivity.
  - destruct (findIndex (hasKey User.id userId) us) as [i|] eqn:F.
    + cbv zeta. cbn [snd users set_statistics set_selectedUser set_users].
      now rewrite (splice1_first _ _ _ F).
    + cbn [snd]. now rewrite (removeFirst_absent _ _ F).
  - apply removeFirst_count.
  - intros k N. now apply removeFirst_others.
Qed.

(* ===================================================================== *)
(** ** The messages *)
(* ===================================================================== *)

(** Splits a method body into the statements that assign [errorMessage]
    and those that do not. *)
Ltac message_kept :=
  repeat first
    [ solve [apply (keeps_frame errorMessage (fun s => In s messages)); frame]
    | apply keeps_write; intros ?; solve [simpl; auto 10]
    | apply keeps_bind; [|intros ?]
    | apply keeps_try_catch
    | match goal with
      | |- keeps _ (if ?b then _ else _) => destruct b
      | |- keeps _ (match ?x with _ => _ end) => destruct x
      end ].

Lemma exec_message (o : operation) :
  keeps (fun st => In (errorMessage st) messages) (exec o).
Proof.
  destruct o; cbn [exec];
    unfold ngOnInit, initializeData, loadTheme, loadInitialUsers,
      loadInitialTodos, ngOnDestroy, tick, addUser, getNextUserId, deleteUser,
      toggleUserStatus, selectUser, addTodo, getNextTodoId, toggleTodo,
      deleteTodo, updateTodoPriority, clearCompletedTodos, toggleTheme,
      exportToConsole, exportData, importData, markAllTodosComplete,
      markAllTodosIncomplete, activateAllUsers, deactivateAllUsers,
      sortUsersByName, sortUsersByEmail, sortTodosByPriority, sortTodosByDate,
      resetAllData, resetToDefaults;
    solve [message_kept].
Qed.

(** X30.  [errorMessage] only ever holds the empty string or one of the
    four messages of [addUser], [addTodo] and [importData]: when it is one
    of the five (it is empty in the initial state), it is one of them after
    any run, in any state and however the operations complete. *)
Theorem errorMessage_vocabulary (ops : list operation) :
  forall st st' : DemoComponent,
    In (errorMessage st) messages -> run ops st = Some st' ->
    In (errorMessage st') messages.
Proof.
  induction ops as [|o rest IH]; intros st st' V R; simpl in R.
  - now injection R as <-.
  - pose proof (exec_message o st V) as V1.
    destruct (exec o st) as [c st1]. cbn [snd] in V1.
    apply (IH st1 st' V1). destruct c; [exact R | exact R | discriminate].
Qed.

End Properties.

(* ===================================================================== *)
(** ** Runs on the reference platform *)
(* ===================================================================== *)

Lemma seeded_wellFormed : wellFormed seeded seedUsers seedTodos.
Proof. split; reflexivity. Qed.

Lemma reference_seedDatesValid : seedDatesValid.
Proof. repeat constructor; discriminate. Qed.

(** C1 fails on the code: [importData] stores the array of the payload as
    it is, here two users with the id 1, and returns without an error. *)
Lemma importData_duplicate_ids :
  JSON_parse twinUsersText = Some (VObj [("users", VArr twinUsers)]) /\
  importData twinUsersText seeded =
    (Normal tt,
     set_errorMessage ""
       (set_statistics (recompute twinUsers (todos seeded))
          (set_users twinUsers seeded))) /\
  map (fun u => get u "id") (users (snd (importData twinUsersText seeded))) =
    [Normal (VNum 1); Normal (VNum 1)] /\
  ~ uniqueIds (snd (importData twinUsersText seeded)).
Proof.
  split; [reflexivity|]. split; [reflexivity|]. split; [reflexivity|].
  unfold uniqueIds. intros D.
  change (NoDup [Normal (VNum 1); Normal (VNum 1)]) in D.
  inversion D as [|? ? N _]; subst. apply N. now left.
Qed.

(** Ids stay distinct only while they are below 2^53.  A payload with one
    user whose id is 2^53 is a checked one; [getNextUserId] then computes
    2^53 + 1, which is no number and rounds to 2^53, and [addUser] appends
    a second user with the id 2^53. *)
Lemma addUser_repeats_id :
  JSON_parse bigUserText = Some (VObj [("users", VArr [bigUser])]) /\
  checkedImport bigUserText /\
  fst (addUser "Ann" "ann@example.com" (snd (importData bigUserText seeded))) =
    Normal tt /\
  map (fun u => get u "id")
    (users (snd (addUser "Ann" "ann@example.com"
                   (snd (importData bigUserText seeded))))) =
    [Normal (VNum (2 ^ 53)); Normal (VNum (2 ^ 53))] /\
  ~ uniqueIds (snd (addUser "Ann" "ann@example.com"
                      (snd (importData bigUserText seeded)))).
Proof.
  assert (P : JSON_parse bigUserText = Some (VObj [("users", VArr [bigUser])]))
    by (vm_compute; reflexivity).
  assert (R : map (fun u => get u "id")
                (users (snd (addUser "Ann" "ann@example.com"
                               (snd (importData bigUserText seeded))))) =
              [Normal (VNum (2 ^ 53)); Normal (VNum (2 ^ 53))])
    by (vm_compute; reflexivity).
  split; [exact P|]. split.
  { unfold checkedImport. rewrite P. split.
    - intros _.
      exists [ {| User.id := 9007199254740992; User.name := "Big";
                  User.email := "big@example.com"; User.isActive := true |} ].
      split; [reflexivity|]. repeat constructor. intros [].
    - intros C. discriminate C. }
  split; [vm_compute; reflexivity|]. split; [exact R|].
  unfold uniqueIds. rewrite R. intros D.
  inversion D as [|? ? N _]; subst. apply N. now left.
Qed.

Lemma checkedImport_not_json : checkedImport "not json".
Proof. exact I. Qed.

Lemma checkedImport_seededExport : checkedImport seededExport.
Proof.
  unfold checkedImport.
  change (JSON_parse seededExport) with (Reference.JSON_parse seededExport).
  assert (P : Reference.JSON_parse seededExport =
              Some (toJSON (exportPayload 1704067200000 seeded)))
    by (vm_compute; reflexivity).
  rewrite P. split.
  - intros _. exists seedUsers.
    split; [vm_compute; reflexivity | exact NoDup_seedUsers].
  - intros _. exists seedTodos. vm_compute. reflexivity.
Qed.

Lemma importWithin_seededExport : importWithin 5 (ImportData seededExport).
Proof.
  unfold importWithin.
  change (JSON_parse seededExport) with (Reference.JSON_parse seededExport).
  assert (P : Reference.JSON_parse seededExport =
              Some (toJSON (exportPayload 1704067200000 seeded)))
    by (vm_compute; reflexivity).
  rewrite P.
  change (elements (field "users" (toJSON (exportPayload 1704067200000 seeded))))
    with (map ofUser seedUsers).
  cbn [map seedUsers].
  repeat (apply Forall_cons; [eexists; split; [reflexivity | cbn [User.id]; lia]|]).
  apply Forall_nil.
Qed.

Lemma uniqueIds_checked_imports_witness :
  seedDatesValid /\
  exists st,
    run [NgOnInit; AddUser "New User" "new@example.com"; DeleteUser 2;
         ImportData "not json"; SortUsersByName;
         AddUser "Test User" "test@example.com"; ToggleUserStatus 1;
         ImportData seededExport; AddUser "  Sam  " "sam@example.com";
         DeactivateAllUsers; ResetAllData; AddUser "Zoe" "zoe@example.com";
         ResetToDefaults; SortTodosByDate]
      (initial 0 []) = Some st /\
    uniqueIds st /\
    exists us ts, wellFormed st us ts /\ NoDup (map User.id us).
Proof.
  split; [exact reference_seedDatesValid|].
  apply (@uniqueIds_checked_imports reference _ 0 [] 5).
  - exact reference_seedDatesValid.
  - repeat match goal with
           | |- Forall _ [] => apply Forall_nil
           | |- Forall _ (ImportData "not json" :: _) =>
               apply Forall_cons; [exact checkedImport_not_json|]
           | |- Forall _ (ImportData seededExport :: _) =>
               apply Forall_cons; [exact checkedImport_seededExport|]
           | |- Forall _ (_ :: _) => apply Forall_cons; [exact I|]
           end.
  - repeat match goal with
           | |- Forall _ [] => apply Forall_nil
           | |- Forall _ (ImportData "not json" :: _) =>
               apply Forall_cons; [exact I|]
           | |- Forall _ (ImportData seededExport :: _) =>
               apply Forall_cons; [exact importWithin_seededExport|]
           | |- Forall _ (_ :: _) => apply Forall_cons; [exact I|]
           end.
  - lia.
  - vm_compute. reflexivity.
Defined.

(** C2 fails on the code: the text parses, [users] is assigned, and then
    the statistics throw on the [null] entry; the handler reports invalid
    JSON and [users] stays replaced. *)
Lemma importData_partial_mutation :
  JSON_parse nullUserText = Some (VObj [("users", VArr [VNull])]) /\
  importData nullUserText seeded =
    (Normal tt,
     set_errorMessage "Invalid JSON data for import"
       (set_users [VNull] seeded)) /\
  users seeded = map ofUser seedUsers /\
  users (snd (importData nullUserText seeded)) <> users seeded.
Proof.
  split; [reflexivity|]. split; [reflexivity|]. split; [reflexivity|].
  discriminate.
Qed.

Lemma importData_malformed_witness :
  JSON_parse "not json" = None /\
  importData "not json" seeded =
    (Normal tt, set_errorMessage "Invalid JSON data for import" seeded) /\
  users (snd (importData "not json" seeded)) = users seeded /\
  todos (snd (importData "not json" seeded)) = todos seeded /\
  theme (snd (importData "not json" seeded)) = theme seeded.
Proof.
  split; [reflexivity|].
  apply (proj2 (@importData_malformed reference "not json" seeded)).
  reflexivity.
Defined.

Lemma addUser_rejects_witness :
  addUser "   " "email@example.com" seeded =
    (Normal tt, set_errorMessage "Name and email are required" seeded) /\
  addUser "Name" "user@com" seeded =
    (Normal tt, set_errorMessage "Please enter a valid email address" seeded).
Proof.
  split.
  - apply (proj1 (addUser_rejects "   " "email@example.com" seeded)).
    left. reflexivity.
  - apply (proj1 (proj2 (addUser_rejects "Name" "user@com" seeded))).
    + discriminate.
    + discriminate.
    + left. intros S. apply isValidEmail_shape in S. discriminate.
Defined.

(** C5, a defect of the code.  The text [{"users":[null]}] parses, so
    [importData] assigns [users] the array with the one entry [null]; the
    recomputation then reads [isActive] of [null] and throws a TypeError,
    where the specification has it skip the entry and count no user.
    [importData] reports the TypeError as invalid JSON and leaves the
    statistics stale (five users counted, one held); from then on the
    recomputation throws whenever it is called, and a method that ends with
    it, such as [markAllTodosComplete], lets the TypeError escape to its
    caller.  An entry that is no record but not [null] either, such as 7,
    is counted instead of skipped. *)
Lemma updateStatistics_null_entry :
  JSON_parse nullUserText = Some (VObj [("users", VArr [VNull])]) /\
  users (snd (importData nullUserText seeded)) = [VNull] /\
  statistics (snd (importData nullUserText seeded)) = seedStatistics /\
  updateStatistics (snd (importData nullUserText seeded)) =
    (Throw TypeError, snd (importData nullUserText seeded)) /\
  fst (markAllTodosComplete (snd (importData nullUserText seeded))) =
    Throw TypeError /\
  updateStatistics (set_users [VNull] seeded) =
    (Throw TypeError, set_users [VNull] seeded) /\
  totalUsers (statistics (snd (updateStatistics (set_users [VNum 7] seeded)))) = 1.
Proof. repeat split. Qed.



Lemma export_import_roundtrip_witness :
  exists text,
    exportData 1704067200000 seeded = (Normal text, seeded) /\
    fst (importData text (initial 0 [])) = Normal tt /\
    users (snd (importData text (initial 0 []))) = users seeded /\
    todos (snd (importData text (initial 0 []))) = todos seeded /\
    theme (snd (importData text (initial 0 []))) = theme seeded /\
    errorMessage (snd (importData text (initial 0 []))) = "".
Proof.
  apply (@export_import_roundtrip reference seeded (initial 0 [])
           seedUsers seedTodos 1704067200000).
  - exact seeded_wellFormed.
  - left. reflexivity.
  - vm_compute. reflexivity.
  - repeat constructor.
Defined.

Lemma deleteUser_spec_witness :
  fst (deleteUser 1 seeded) = Normal tt /\
  users (snd (deleteUser 1 seeded)) =
    map ofUser (filter (fun u => negb (User.id u =? 1)%Z) seedUsers) /\
  (~ In 1%Z (map User.id seedUsers) -> snd (deleteUser 1 seeded) = seeded) /\
  (In 1%Z (map User.id seedUsers) ->
   S (List.length (users (snd (deleteUser 1 seeded)))) = List.length (users seeded) /\
   statistics (snd (deleteUser 1 seeded)) =
     recompute (users (snd (deleteUser 1 seeded))) (todos seeded) /\
   forall u, In u seedUsers -> User.id u = 1%Z -> selectedUser seeded = ofUser u ->
             selectedUser (snd (deleteUser 1 seeded)) = VNull) /\
  deleteUser 1 (snd (deleteUser 1 seeded)) = (Normal tt, snd (deleteUser 1 seeded)).
Proof.
  apply (deleteUser_spec seeded seedUsers seedTodos 1).
  - exact seeded_wellFormed.
  - exact NoDup_seedUsers.
Defined.

Lemma sortTodosByPriority_spec_witness :
  exists ts' : list TodoItem.t,
    sortTodosByPriority seeded = (Normal tt, set_todos (map ofTodo ts') seeded) /\
    Permutation seedTodos ts' /\
    StronglySorted
      (fun a b => (rank (TodoItem.priority b) <= rank (TodoItem.priority a))%Z) ts' /\
    forall p,
      filter (fun t => Priority_eqb (TodoItem.priority t) p) ts' =
      filter (fun t => Priority_eqb (TodoItem.priority t) p) seedTodos.
Proof.
  apply (sortTodosByPriority_spec seeded seedUsers seedTodos).
  exact seeded_wellFormed.
Defined.

(* ===================================================================== *)
(** ** Further runs on the reference platform *)
(* ===================================================================== *)

Lemma isValidEmail_strict_witness :
  Forall (fun c => isWhiteSpace c = false)
    (list_ascii_of_string "john@example.com") /\
  occurrences "@" "john@example.com" = 1 /\
  5 <= String.length "john@example.com" /\
  trim "john@example.com" = "john@example.com".
Proof. apply isValidEmail_strict. reflexivity. Defined.

Lemma localStorage_only_toggleTheme_witness :
  localStorage (snd (exec ResetToDefaults seeded)) = localStorage seeded /\
  theme (snd (resetToDefaults (snd (toggleTheme seeded)))) = VStr "light" /\
  theme (snd (loadTheme
                (initial 0
                   (localStorage
                      (snd (resetToDefaults (snd (toggleTheme seeded)))))))) =
    VStr "dark".
Proof.
  assert (N : ResetToDefaults <> ToggleTheme) by discriminate.
  destruct (localStorage_only_toggleTheme ResetToDefaults seeded 0 N) as [L Q].
  split; [exact L|]. apply Q; [reflexivity | vm_compute; reflexivity].
Defined.

Lemma counter_counts_ticks_witness :
  exists st',
    run [Tick 1000; AddUser "Ann" "ann@example.com"; Tick 2000; ResetAllData;
         Tick 3000] (initial 0 []) = Some st' /\
    currentTime st' =
      lastTick [Tick 1000; AddUser "Ann" "ann@example.com"; Tick 2000;
                ResetAllData; Tick 3000] (currentTime (initial 0 [])) /\
    counter st' =
      (counter (initial 0 []) +
       ticks [Tick 1000; AddUser "Ann" "ann@example.com"; Tick 2000;
              ResetAllData; Tick 3000])%Z.
Proof.
  eexists. split; [vm_compute; reflexivity|].
  match goal with
  | |- currentTime ?X = _ /\ _ =>
      destruct (counter_counts_ticks
                  [Tick 1000; AddUser "Ann" "ann@example.com"; Tick 2000;
                   ResetAllData; Tick 3000] (initial 0 []) X)
        as (T & C & _); [vm_compute; reflexivity|]
  end.
  split; [exact T|]. apply C; vm_compute; discriminate.
Defined.

Lemma statistics_in_step_witness :
  exists st,
    run [NgOnInit; AddUser "New User" "new@example.com"; DeleteUser 2;
         ImportData "not json"; SortUsersByName; AddTodo 5;
         InputNewTodoTitle "Buy milk"; AddTodo 7; ToggleTodo 6;
         ImportData seededExport; DeactivateAllUsers; SortTodosByDate;
         ClearCompletedTodos; ToggleUserStatus 3]
      (initial 0 []) = Some st /\
    statistics st = recompute (users st) (todos st) /\
    activeUsers (statistics st) <= totalUsers (statistics st) /\
    completedTodos (statistics st) <= totalTodos (statistics st) /\
    highPriorityTodos (statistics st) <= totalTodos (statistics st) /\
    exists active,
      getCompletedTodosCount st = (Normal (completedTodos (statistics st)), st) /\
      getActiveTodosCount st = (Normal active, st) /\
      completedTodos (statistics st) + active = totalTodos (statistics st).
Proof.
  apply statistics_in_step.
  - exact reference_seedDatesValid.
  - repeat match goal with
           | |- Forall _ [] => apply Forall_nil
           | |- Forall _ (ImportData "not json" :: _) =>
               apply Forall_cons; [exact checkedImport_not_json|]
           | |- Forall _ (ImportData seededExport :: _) =>
               apply Forall_cons; [exact checkedImport_seededExport|]
           | |- Forall _ (_ :: _) => apply Forall_cons; [exact I|]
           end.
Defined.

Lemma seedUsers_spreadable : spreadable seedUsers.
Proof. unfold spreadable. simpl. lia. Qed.

Lemma seedTodos_spreadable : spreadable seedTodos.
Proof. unfold spreadable. simpl. lia. Qed.

Lemma seedUsers_safe : Forall isSafeInteger (map User.id seedUsers).
Proof. repeat (constructor; [unfold isSafeInteger; simpl; lia|]). constructor. Qed.

Lemma seedTodos_safe : Forall isSafeInteger (map TodoItem.id seedTodos).
Proof. repeat (constructor; [unfold isSafeInteger; simpl; lia|]). constructor. Qed.

Lemma addUser_appends_witness :
  fst (addUser "  Sam  " "sam@example.com" seeded) = Normal tt /\
  users (snd (addUser "  Sam  " "sam@example.com" seeded)) =
    users seeded ++
    [userLiteral (nextId (map User.id seedUsers)) (trim "  Sam  ")
       "sam@example.com" true] /\
  nextId (map User.id seedUsers) = 6%Z /\
  forall y, In y (map User.id seedUsers) -> (y < nextId (map User.id seedUsers))%Z.
Proof.
  pose proof (addUser_appends seeded seedUsers seedTodos
                "  Sam  " "sam@example.com" seeded_wellFormed
                ltac:(discriminate) eq_refl) as (A & _ & F & _).
  destruct (A seedUsers_spreadable) as (R & U & _).
  destruct (F seedUsers_safe) as (N & Fr).
  split; [exact R|]. split; [exact U|]. split; [exact N | exact Fr].
Defined.

Lemma addUser_then_deleteUser_witness :
  users (snd (deleteUser (nextId (map User.id seedUsers))
                (snd (addUser "Sam" "sam@example.com" seeded)))) =
    users seeded /\
  getNextUserId (snd (deleteUser (nextId (map User.id seedUsers))
                        (snd (addUser "Sam" "sam@example.com" seeded)))) =
    (Normal (nextId (map User.id seedUsers)),
     snd (deleteUser (nextId (map User.id seedUsers))
            (snd (addUser "Sam" "sam@example.com" seeded)))).
Proof.
  pose proof (addUser_then_deleteUser seeded seedUsers seedTodos
                "Sam" "sam@example.com" seeded_wellFormed
                ltac:(discriminate) eq_refl seedUsers_spreadable seedUsers_safe)
    as (_ & U & _ & G).
  split; [exact U | exact G].
Defined.

Lemma seeded_inSync : inSync seeded.
Proof. vm_compute. reflexivity. Qed.

Lemma toggleUserStatus_spec_witness :
  users (snd (toggleUserStatus 2 seeded)) =
    map ofUser (updateFirst (hasKey User.id 2) flipActive seedUsers) /\
  users (snd (toggleUserStatus 2 (snd (toggleUserStatus 2 seeded)))) =
    users seeded /\
  snd (toggleUserStatus 2 (snd (toggleUserStatus 2 seeded))) = seeded.
Proof.
  pose proof (toggleUserStatus_spec seeded seedUsers seedTodos 2
                seeded_wellFormed) as (_ & U & _ & _ & T & S).
  split; [exact U|]. split; [exact T | exact (S seeded_inSync)].
Defined.

Lemma setAllUsers_spec_witness :
  users (snd (deactivateAllUsers seeded)) =
    map ofUser (map (withActive false) seedUsers) /\
  activeUsers (statistics (snd (deactivateAllUsers seeded))) = 0 /\
  sameButSelection (snd (deactivateAllUsers (snd (activateAllUsers seeded))))
    (snd (deactivateAllUsers seeded)).
Proof.
  pose proof (setAllUsers_spec seeded seedUsers seedTodos false true
                seeded_wellFormed) as (_ & U & _ & _ & _ & A & L).
  split; [exact U|]. split; [exact A | exact L].
Defined.

Lemma reference_compare_refl (s : string) : String.compare s s = Eq.
Proof.
  induction s as [|c s IH]; simpl; [reflexivity|].
  unfold Ascii.compare. now rewrite N.compare_refl.
Qed.

Lemma reference_compare_trans : forall a b c : string,
  String.compare a b <> Gt -> String.compare b c <> Gt ->
  String.compare a c <> Gt.
Proof.
  induction a as [|x a IH]; intros [|y b] [|z c]; simpl; try congruence.
  unfold Ascii.compare.
  destruct (N.compare_spec (N_of_ascii x) (N_of_ascii y)),
           (N.compare_spec (N_of_ascii y) (N_of_ascii z)),
           (N.compare_spec (N_of_ascii x) (N_of_ascii z));
    try congruence; try lia; eauto.
Qed.

Lemma reference_localeCompare_order :
  (forall a b c, localeCompare a b <= 0 -> localeCompare b c <= 0 ->
                 localeCompare a c <= 0)%Z /\
  (forall a b, 0 < localeCompare a b -> localeCompare b a <= 0)%Z /\
  (forall a, localeCompare a a = 0%Z).
Proof.
  cbn [localeCompare reference]. unfold Reference.localeCompare.
  split; [|split].
  - intros a b c Hab Hbc.
    pose proof (reference_compare_trans a b c) as T.
    destruct (String.compare a b), (String.compare b c), (String.compare a c);
      try lia; exfalso; apply T; first [discriminate | reflexivity].
  - intros a b. rewrite (String.compare_antisym b a).
    destruct (String.compare a b); simpl; lia.
  - intros a. now rewrite reference_compare_refl.
Qed.

Lemma sortUsers_spec_witness :
  exists us' : list User.t,
    sortUsersByName seeded = (Normal tt, set_users (map ofUser us') seeded) /\
    Permutation seedUsers us' /\
    StronglySorted
      (fun a b => (localeCompare (User.name a) (User.name b) <= 0)%Z) us'.
Proof.
  destruct reference_localeCompare_order as (Tr & To & Re).
  destruct (sortUsers_spec seeded seedUsers seedTodos true
              seeded_wellFormed Tr To Re) as (us' & E & P & S & _).
  exists us'. split; [exact E|]. split; [exact P | exact S].
Defined.

Lemma addTodo_spec_witness :
  addTodo 0 seeded = (Normal tt, set_errorMessage "Todo title is required" seeded) /\
  todos (snd (addTodo 9 (set_newTodoTitle " Buy milk " seeded))) =
    todos (set_newTodoTitle " Buy milk " seeded) ++
    [todoLiteral (nextId (map TodoItem.id seedTodos))
       (trim (newTodoTitle (set_newTodoTitle " Buy milk " seeded))) false
       (priorityName (selectedPriority (set_newTodoTitle " Buy milk " seeded)))
       (VDate (Some 9%Z))].
Proof.
  split.
  - exact (proj1 (addTodo_spec seeded seedUsers seedTodos 0) eq_refl).
  - assert (N : trim (newTodoTitle (set_newTodoTitle " Buy milk " seeded)) <> "")
      by discriminate.
    exact (proj1 (proj2 (proj1 (proj2 (addTodo_spec
                                         (set_newTodoTitle " Buy milk " seeded)
                                         seedUsers seedTodos 9))
                           (conj eq_refl eq_refl) N seedTodos_spreadable))).
Defined.

Lemma toggleTodo_spec_witness :
  todos (snd (toggleTodo 2 seeded)) =
    map ofTodo (updateFirst (hasKey TodoItem.id 2) flipCompleted seedTodos) /\
  snd (toggleTodo 2 (snd (toggleTodo 2 seeded))) = seeded.
Proof.
  pose proof (toggleTodo_spec seeded seedUsers seedTodos 2
                seeded_wellFormed) as (_ & U & _ & _ & _ & S).
  split; [exact U | exact (S seeded_inSync)].
Defined.

Lemma deleteTodo_spec_witness :
  todos (snd (deleteTodo 3 seeded)) =
    map ofTodo (removeFirst (hasKey TodoItem.id 3) seedTodos) /\
  S (List.length (todos (snd (deleteTodo 3 seeded)))) =
    List.length (todos seeded) /\
  statistics (snd (deleteTodo 3 seeded)) =
    recompute (users seeded) (todos (snd (deleteTodo 3 seeded))).
Proof.
  pose proof (deleteTodo_spec seeded seedUsers seedTodos 3
                seeded_wellFormed) as (_ & U & _ & _ & L & _).
  split; [exact U|]. apply L. right. right. left. reflexivity.
Defined.

Lemma updateTodoPriority_spec_witness :
  todos (snd (updateTodoPriority 4 High seeded)) =
    map ofTodo (updateFirst (hasKey TodoItem.id 4) (withPriority High) seedTodos) /\
  snd (updateTodoPriority 4 High (snd (updateTodoPriority 4 Medium seeded))) =
    snd (updateTodoPriority 4 High seeded).
Proof.
  pose proof (updateTodoPriority_spec seeded seedUsers seedTodos 4
                High Medium seeded_wellFormed) as (_ & U & _ & _ & L).
  split; [exact U | exact L].
Defined.

Lemma clearCompletedTodos_spec_witness :
  todos (snd (clearCompletedTodos seeded)) =
    map ofTodo (filter (fun t => negb (TodoItem.completed t)) seedTodos) /\
  completedTodos (statistics (snd (clearCompletedTodos seeded))) = 0 /\
  clearCompletedTodos (snd (clearCompletedTodos seeded)) =
    (Normal tt, snd (clearCompletedTodos seeded)).
Proof.
  pose proof (clearCompletedTodos_spec seeded seedUsers seedTodos
                seeded_wellFormed) as (_ & U & _ & _ & C & _ & I).
  split; [exact U|]. split; [exact C | exact I].
Defined.

Lemma markAllTodos_spec_witness :
  completedTodos (statistics (snd (markAllTodosComplete seeded))) =
    List.length seedTodos /\
  todos (snd (clearCompletedTodos (snd (markAllTodosComplete seeded)))) = [].
Proof.
  pose proof (markAllTodos_spec seeded seedUsers seedTodos true
                seeded_wellFormed) as (_ & _ & C & _ & E).
  split; [exact C | exact E].
Defined.

Lemma sortTodosByDate_spec_witness :
  exists ts' : list TodoItem.t,
    sortTodosByDate seeded = (Normal tt, set_todos (map ofTodo ts') seeded) /\
    Permutation seedTodos ts' /\
    StronglySorted
      (fun a b => (TodoItem.createdAt b <= TodoItem.createdAt a)%Z) ts'.
Proof.
  destruct (sortTodosByDate_spec seeded seedUsers seedTodos
              seeded_wellFormed) as (ts' & E & P & S & _).
  exists ts'. split; [exact E|]. split; [exact P | exact S].
Defined.

Lemma todoQueries_spec_witness :
  getFilteredTodos seeded = (Normal (todos seeded), seeded) /\
  getActiveTodosCount (set_todos [VNull] seeded) =
    (Throw TypeError, set_todos [VNull] seeded).
Proof.
  split.
  - exact (proj1 (todoQueries_spec seeded) eq_refl).
  - assert (X : Exists (fun v => isNullish v = true)
                  (todos (set_todos [VNull] seeded)))
      by (left; reflexivity).
    exact (proj1 (proj2 (proj2 (proj2 (todoQueries_spec (set_todos [VNull] seeded))) X))).
Defined.

Lemma searchUsers_spec_witness :
  searchUsers (set_userSearchTerm "   " seeded) =
    (Normal (users seeded), set_userSearchTerm "   " seeded) /\
  searchUsers (set_userSearchTerm "JOHN" seeded) =
    (Normal (map ofUser
               (filter (matchesTerm (userSearchTerm (set_userSearchTerm "JOHN" seeded)))
                  seedUsers)),
     set_userSearchTerm "JOHN" seeded).
Proof.
  split.
  - exact (proj1 (searchUsers_spec (set_userSearchTerm "   " seeded)
                    seedUsers seedTodos) eq_refl).
  - assert (N : trim (userSearchTerm (set_userSearchTerm "JOHN" seeded)) <> "")
      by discriminate.
    exact (proj1 (proj2 (searchUsers_spec (set_userSearchTerm "JOHN" seeded)
                           seedUsers seedTodos)
                    (conj eq_refl eq_refl) N)).
Defined.

Lemma searchUsers_letter_case_witness :
  fst (searchUsers (set_userSearchTerm (toLowerCase "Jane SMITH") seeded)) =
  fst (searchUsers (set_userSearchTerm "Jane SMITH" seeded)).
Proof.
  assert (N : trim "Jane SMITH" <> "") by discriminate.
  exact (proj1 (searchUsers_letter_case seeded seedUsers seedTodos
                  "Jane SMITH" seeded_wellFormed N)).
Defined.

Lemma resetToDefaults_spec_witness :
  fst (resetToDefaults (snd (resetAllData seeded))) = Normal tt /\
  resetToDefaults (set_todos [VNull] seeded) =
    (Throw TypeError, set_users (map ofUser seedUsers) (set_todos [VNull] seeded)).
Proof.
  split.
  - assert (F : Forall (fun v => isNullish v = false)
                  (todos (snd (resetAllData seeded)))) by constructor.
    exact (proj1 (proj1 (resetToDefaults_spec (snd (resetAllData seeded)) 0 []) F)).
  - assert (X : Exists (fun v => isNullish v = true)
                  (todos (set_todos [VNull] seeded)))
      by (left; reflexivity).
    exact (proj2 (resetToDefaults_spec (set_todos [VNull] seeded) 0 []) X).
Defined.

Lemma resetAllData_restart_witness :
  users (snd (addUser "Zoe" "zoe@example.com" (snd (resetAllData seeded)))) =
    [userLiteral 1 (trim "Zoe") "zoe@example.com" true].
Proof.
  assert (N : trim "Zoe" <> "") by discriminate.
  exact (proj1 (proj2 (proj2 (proj2 (proj2 (proj2 (proj2
           (resetAllData_restart seeded "Zoe" "zoe@example.com" "" 0)))))))
           N eq_refl).
Defined.

Lemma reference_parse_empty : JSON_parse "{}" = Some (VObj []).
Proof. vm_compute. reflexivity. Qed.

Lemma reference_parse_null : JSON_parse "null" = Some VNull.
Proof. vm_compute. reflexivity. Qed.

Lemma reference_parse_five : JSON_parse "5" = Some (VNum 5).
Proof. vm_compute. reflexivity. Qed.

Lemma seeded_no_null :
  Forall (fun v => isNullish v = false) (users seeded ++ todos seeded).
Proof. repeat constructor. Qed.

Lemma importData_missing_parts_witness :
  users (snd (importData "{}" seeded)) = users seeded /\
  importData "{}" seeded =
    (Normal tt,
     set_errorMessage ""
       (set_statistics (recompute (users seeded) (todos seeded)) seeded)).
Proof.
  pose proof (importData_missing_parts "{}" (VObj []) seeded
                reference_parse_empty eq_refl) as (U & _ & _ & A).
  split; [apply U; reflexivity|].
  apply A; [reflexivity | reflexivity | reflexivity | exact seeded_no_null].
Defined.

Lemma importData_not_an_object_witness :
  importData "null" seeded =
    (Normal tt, set_errorMessage "Invalid JSON data for import" seeded) /\
  importData "5" seeded =
    (Normal tt,
     set_errorMessage ""
       (set_statistics (recompute (users seeded) (todos seeded)) seeded)).
Proof.
  split.
  - apply (proj1 (importData_not_an_object "null" VNull seeded
                    reference_parse_null)).
    reflexivity.
  - apply (proj2 (importData_not_an_object "5" (VNum 5) seeded
                    reference_parse_five)).
    + right. left. now exists 5%Z.
    + exact seeded_no_null.
Defined.

Lemma deleteUser_selection_witness :
  selectedUser (snd (deleteUser 1 seeded)) = VNull /\
  selectedUser
    (snd (deleteUser 1
            (set_selectedUser (userLiteral 2 "Jane Smith" "jane@example.com" false)
               seeded))) =
    userLiteral 2 "Jane Smith" "jane@example.com" false.
Proof.
  split.
  - exact (proj1 (deleteUser_selection seeded seedUsers seedTodos 1
                    seeded_wellFormed) eq_refl).
  - assert (N : User.id {| User.id := 2; User.name := "Jane Smith";
                           User.email := "jane@example.com";
                           User.isActive := false |} <> 1%Z) by discriminate.
    exact (proj1 (proj2 (deleteUser_selection
                           (set_selectedUser
                              (userLiteral 2 "Jane Smith" "jane@example.com" false)
                              seeded)
                           seedUsers seedTodos 1 (conj eq_refl eq_refl)))
                 {| User.id := 2; User.name := "Jane Smith";
                    User.email := "jane@example.com"; User.isActive := false |}
                 eq_refl N).
Defined.

Lemma reference_parse_darkTheme :
  JSON_parse darkThemeText = Some (VObj [("theme", VStr "dark")]).
Proof. vm_compute. reflexivity. Qed.

Lemma themeChecked_darkTheme : themeChecked (ImportData darkThemeText).
Proof.
  cbn [themeChecked]. rewrite reference_parse_darkTheme. intros _. now right.
Qed.

Lemma theme_stays_valid_witness :
  exists st',
    run [ToggleTheme; AddUser "Ann" "ann@example.com"; ImportData darkThemeText;
         ToggleTheme; ResetAllData] (initial 0 []) = Some st' /\
    themeValid (theme st').
Proof.
  eexists. split; [vm_compute; reflexivity|].
  refine (proj1 (theme_stays_valid
                   [ToggleTheme; AddUser "Ann" "ann@example.com";
                    ImportData darkThemeText; ToggleTheme; ResetAllData]
                   (initial 0 []) _ 0 [] _ _ _)).
  - repeat match goal with
           | |- Forall _ [] => apply Forall_nil
           | |- Forall _ (ImportData darkThemeText :: _) =>
               apply Forall_cons; [exact themeChecked_darkTheme|]
           | |- Forall _ (_ :: _) => apply Forall_cons; [exact I|]
           end.
  - now left.
  - vm_compute. reflexivity.
Defined.

Lemma reference_parse_twinUsers :
  JSON_parse twinUsersText = Some (VObj [("users", VArr twinUsers)]).
Proof. vm_compute. reflexivity. Qed.

Lemma reference_parse_nullTodo :
  JSON_parse nullTodoText =
    Some (VObj [("users", VArr []); ("todos", VArr [VNull])]).
Proof. vm_compute. reflexivity. Qed.

Lemma importData_replaces_witness :
  users (snd (importData twinUsersText seeded)) =
    elements (field "users" (VObj [("users", VArr twinUsers)])) /\
  importData nullTodoText seeded =
    (Normal tt,
     set_errorMessage "Invalid JSON data for import"
       (set_users
          (elements (field "users"
                       (VObj [("users", VArr []); ("todos", VArr [VNull])])))
          seeded)).
Proof.
  split.
  - exact (proj1 (importData_replaces twinUsersText _ seeded
                    reference_parse_twinUsers eq_refl) eq_refl).
  - exact (proj2 (proj2 (importData_replaces nullTodoText _ seeded
                           reference_parse_nullTodo eq_refl))
                 eq_refl eq_refl TypeError eq_refl).
Defined.

Lemma toggleTheme_persists_witness :
  theme (snd (toggleTheme seeded)) = VStr "dark" /\
  theme (snd (loadTheme (initial 0 (localStorage (snd (toggleTheme seeded)))))) =
    theme (snd (toggleTheme seeded)) /\
  theme (snd (toggleTheme (snd (toggleTheme seeded)))) = theme seeded.
Proof.
  pose proof (toggleTheme_persists seeded 0) as (_ & T & _ & L & I).
  split; [exact T|]. split; [exact L|]. apply I. now left.
Defined.

Lemma users_todos_apart_witness :
  todos (snd (exec (DeleteUser 1) seeded)) = todos seeded /\
  users (snd (exec (ToggleTodo 2) seeded)) = users seeded.
Proof.
  split.
  - exact (proj1 (users_todos_apart (DeleteUser 1) seeded) eq_refl).
  - exact (proj1 (proj2 (users_todos_apart (ToggleTodo 2) seeded) eq_refl)).
Defined.

Lemma deleteUser_first_match_witness :
  users (snd (deleteUser 1 (set_users twinUsers seeded))) =
    map ofUser
      (removeFirst (hasKey User.id 1)
         [ {| User.id := 1; User.name := "Ann"; User.email := "ann@example.com";
              User.isActive := true |};
           {| User.id := 1; User.name := "Bob"; User.email := "bob@example.com";
              User.isActive := false |} ]) /\
  List.length (users (snd (deleteUser 1 (set_users twinUsers seeded)))) = 1.
Proof.
  pose proof (deleteUser_first_match (set_users twinUsers seeded)
                [ {| User.id := 1; User.name := "Ann";
                     User.email := "ann@example.com"; User.isActive := true |};
                  {| User.id := 1; User.name := "Bob";
                     User.email := "bob@example.com"; User.isActive := false |} ]
                seedTodos 1 (conj eq_refl eq_refl)) as (_ & U & _).
  split; [exact U|]. rewrite U. reflexivity.
Defined.

Lemma errorMessage_vocabulary_witness :
  exists st',
    run [AddUser "" ""; AddTodo 5; ImportData "not json"; DeleteUser 1;
         AddUser "Ann" "ann@example.com"] (initial 0 []) = Some st' /\
    In (errorMessage st') messages.
Proof.
  eexists. split; [vm_compute; reflexivity|].
  refine (errorMessage_vocabulary
            [AddUser "" ""; AddTodo 5; ImportData "not json"; DeleteUser 1;
             AddUser "Ann" "ann@example.com"] (initial 0 []) _ _ _).
  - now left.
  - vm_compute. reflexivity.
Defined.
